(** * xKube: credential and session core

    A shallow embedding of the parts of xKube that manage cluster
    registrations and authentication tokens, and the properties the
    specification states about them.

    - [Js]: the few JavaScript library functions the code calls.
    - [Cluster], [ClusterState], [clusterSlice]: the Redux slice
      [frontend/src/store/slices/clusterSlice.ts] over the API types of
      [api/clusters].
    - [AuthState], [authSlice]: [frontend/src/store/slices/authSlice.ts],
      with [localStorage] as an explicit store.
    - [AddClusterModal], [SimplifiedClusterForm]: the submit handlers of the
      two forms that create clusters.
    - [Core], [Registry], [TokenService]: the backend operations the slices
      mirror. The backend sources are not part of the tree, so these are
      written from the specification's component design.
    - [Mirror]: one user's cluster slice run next to the Registry, each
      thunk carrying the Registry's answer.
    - the thunks, pages, route guard, API clients and auth context around
      the two slices.

    The properties of the slices and forms come first; token rotation, the
    Registry as specified, the code around the slices, and the Registry
    with the slice that mirrors it follow. *)

From Stdlib Require Import String Ascii List Bool ZArith Lia.
From stdpp Require Import base option list strings gmap.

Import ListNotations.
Local Open Scope string_scope.
Local Open Scope list_scope.

(** ** JavaScript helpers *)

Module Js.

(** [s1 === s2] on strings. *)
Definition str_eq (a b : string) : bool := String.eqb a b.

(** Truthiness of a [string | undefined]: [undefined] and the empty
    string are falsy. *)
Definition truthy (o : option string) : bool :=
  match o with
  | Some s => negb (String.eqb s "")
  | None => false
  end.

(** [o || d] for an optional string. *)
Definition or_else (o : option string) (d : string) : string :=
  match o with
  | Some s => if String.eqb s "" then d else s
  | None => d
  end.

(** [Array.prototype.findIndex]; [None] stands for [-1]. *)
Fixpoint findIndex {A} (p : A -> bool) (l : list A) : option nat :=
  match l with
  | [] => None
  | x :: l' => if p x then Some 0%nat else S <$> findIndex p l'
  end.

(** [const x = arr.find(p); if (x) { mutate x }] on an Immer draft: the
    first element satisfying [p] is updated in place. *)
Fixpoint modify_first {A} (p : A -> bool) (f : A -> A) (l : list A) : list A :=
  match l with
  | [] => []
  | x :: l' => if p x then f x :: l' else x :: modify_first p f l'
  end.

(** White space and line terminators of ECMAScript among the code units
    below 256: TAB, LF, VT, FF, CR, SP and NBSP. Strings are modelled as
    sequences of such code units. *)
Definition is_white_space (c : ascii) : bool :=
  let n := nat_of_ascii c in
  ((9 <=? n) && (n <=? 13))%nat || (n =? 32)%nat || (n =? 160)%nat.

Fixpoint trimStart (s : string) : string :=
  match s with
  | EmptyString => EmptyString
  | String c s' => if is_white_space c then trimStart s' else s
  end.

Fixpoint trimEnd (s : string) : string :=
  match s with
  | EmptyString => EmptyString
  | String c s' =>
      match trimEnd s' with
      | EmptyString => if is_white_space c then EmptyString else String c EmptyString
      | t => String c t
      end
  end.

(** [String.prototype.trim]. *)
Definition trim (s : string) : string := trimEnd (trimStart s).

(** Every code unit of the string is white space. *)
Fixpoint all_white_space (s : string) : bool :=
  match s with
  | EmptyString => true
  | String c s' => is_white_space c && all_white_space s'
  end.

End Js.

(** ** API types ([api/clusters]) *)

Module Cluster.
Record t := mk {
  id : string;
  name : string;
  description : option string;
  context : string;
  is_active : bool;
  is_connected : bool;
  version : option string;
  node_count : Z;
  pod_count : Z;
  tags : list string;
  owner_id : string;
  created_at : string;
  updated_at : string;
  last_connected_at : option string
}.

(** [c.is_active = b] *)
Definition set_is_active (b : bool) (c : t) : t :=
  mk (id c) (name c) (description c) (context c) b (is_connected c)
     (version c) (node_count c) (pod_count c) (tags c) (owner_id c)
     (created_at c) (updated_at c) (last_connected_at c).

(** [c.is_connected = b] *)
Definition set_is_connected (b : bool) (c : t) : t :=
  mk (id c) (name c) (description c) (context c) (is_active c) b
     (version c) (node_count c) (pod_count c) (tags c) (owner_id c)
     (created_at c) (updated_at c) (last_connected_at c).

(** [c.version = v] *)
Definition set_version (v : option string) (c : t) : t :=
  mk (id c) (name c) (description c) (context c) (is_active c) (is_connected c)
     v (node_count c) (pod_count c) (tags c) (owner_id c)
     (created_at c) (updated_at c) (last_connected_at c).

(** [c.last_connected_at = ts] *)
Definition set_last_connected_at (ts : option string) (c : t) : t :=
  mk (id c) (name c) (description c) (context c) (is_active c) (is_connected c)
     (version c) (node_count c) (pod_count c) (tags c) (owner_id c)
     (created_at c) (updated_at c) ts.
End Cluster.

Module ClusterCreate.
Record t := mk {
  name : string;
  kubeconfig : string;
  context : string;
  description : option string;
  tags : option (list string)
}.
End ClusterCreate.

Module ConnectionTestResult.
Record t := mk {
  connected : bool;
  version : option string;
  error : option string
}.
End ConnectionTestResult.

(** ** The cluster slice ([store/slices/clusterSlice.ts]) *)

Module ClusterState.
Record t := mk {
  clusters : list Cluster.t;
  activeCluster : option Cluster.t;
  loading : bool;
  error : option string
}.
End ClusterState.

Module clusterSlice.
Import ClusterState.

Definition initialState : ClusterState.t := mk [] None false None.

(** The actions the slice handles: its own [clearError] and the
    [pending]/[fulfilled]/[rejected] actions of the thunks for which a
    case is registered. A rejected action carries [action.error.message]. *)
Inductive action :=
| clearError
| fetchClusters_pending
| fetchClusters_fulfilled (payload : list Cluster.t)
| fetchClusters_rejected (message : option string)
| createCluster_pending
| createCluster_fulfilled (payload : Cluster.t)
| createCluster_rejected (message : option string)
| updateCluster_fulfilled (payload : Cluster.t)
| deleteCluster_fulfilled (payload : string)
| testConnection_fulfilled (id : string) (result : ConnectionTestResult.t)
| activateCluster_fulfilled (payload : Cluster.t).

(** The reducers run on an Immer draft. A draft is a tree: a write through
    [state.clusters[i]] does not reach [state.activeCluster], also when
    both were assigned the same payload object, so the state is modelled
    by value. *)
Definition reducer (state : ClusterState.t) (a : action) : ClusterState.t :=
  match a with
  | clearError =>
      mk (clusters state) (activeCluster state) (loading state) None
  | fetchClusters_pending =>
      mk (clusters state) (activeCluster state) true None
  | fetchClusters_fulfilled payload =>
      let active := find Cluster.is_active payload in
      mk payload
         (match active with Some c => Some c | None => activeCluster state end)
         false (error state)
  | fetchClusters_rejected message =>
      mk (clusters state) (activeCluster state) false
         (Some (Js.or_else message "Failed to fetch clusters"))
  | createCluster_pending =>
      mk (clusters state) (activeCluster state) true None
  | createCluster_fulfilled payload =>
      mk (clusters state ++ [payload]) (activeCluster state) false (error state)
  | createCluster_rejected message =>
      mk (clusters state) (activeCluster state) false
         (Some (Js.or_else message "Failed to create cluster"))
  | updateCluster_fulfilled payload =>
      match Js.findIndex (fun c => Js.str_eq (Cluster.id c) (Cluster.id payload))
                         (clusters state) with
      | Some index =>
          mk (<[index := payload]> (clusters state))
             (if Cluster.is_active payload then Some payload else activeCluster state)
             (loading state) (error state)
      | None => state
      end
  | deleteCluster_fulfilled payload =>
      mk (List.filter (fun c => negb (Js.str_eq (Cluster.id c) payload)) (clusters state))
         (match activeCluster state with
          | Some c => if Js.str_eq (Cluster.id c) payload then None else Some c
          | None => None
          end)
         (loading state) (error state)
  | testConnection_fulfilled id result =>
      mk (Js.modify_first
            (fun c => Js.str_eq (Cluster.id c) id)
            (fun cluster =>
               let cluster := Cluster.set_is_connected
                                (ConnectionTestResult.connected result) cluster in
               if Js.truthy (ConnectionTestResult.version result)
               then Cluster.set_version (ConnectionTestResult.version result) cluster
               else cluster)
            (clusters state))
         (activeCluster state) (loading state) (error state)
  | activateCluster_fulfilled payload =>
      let deactivated := map (Cluster.set_is_active false) (clusters state) in
      match Js.findIndex (fun c => Js.str_eq (Cluster.id c) (Cluster.id payload))
                         deactivated with
      | Some index =>
          mk (<[index := payload]> deactivated) (Some payload)
             (loading state) (error state)
      | None =>
          mk deactivated (activeCluster state) (loading state) (error state)
      end
  end.

(** The state after a sequence of actions. *)
Definition run (state : ClusterState.t) (actions : list action) : ClusterState.t :=
  fold_left reducer actions state.

(** How an API call made by a thunk's payload creator ends: the promise
    resolves with the response data, or the call throws and
    [createAsyncThunk] keeps the error's message. *)
Inductive api_result (A : Type) :=
| resolved (data : A)
| thrown (message : option string).
Arguments resolved {A} data.
Arguments thrown {A} message.

(** The actions a dispatched [createCluster] thunk produces: [pending], then
    [fulfilled] with the created cluster or [rejected] with the error. *)
Definition createCluster (response : api_result Cluster.t) : list action :=
  [ createCluster_pending;
    match response with
    | resolved cluster => createCluster_fulfilled cluster
    | thrown message => createCluster_rejected message
    end ].

(** Number of stored clusters with [is_active = true]. *)
Definition active_count (l : list Cluster.t) : nat :=
  length (List.filter Cluster.is_active l).

End clusterSlice.

(** The actions of the cluster lifecycle: the fulfilled actions of
    [createCluster], [activateCluster] and [deleteCluster]. *)
Definition lifecycle (a : clusterSlice.action) : bool :=
  match a with
  | clusterSlice.createCluster_fulfilled _
  | clusterSlice.activateCluster_fulfilled _
  | clusterSlice.deleteCluster_fulfilled _ => true
  | _ => false
  end.

(** A created cluster arrives inactive, as the Registry creates it. *)
Definition creates_inactive (a : clusterSlice.action) : bool :=
  match a with
  | clusterSlice.createCluster_fulfilled payload => negb (Cluster.is_active payload)
  | _ => true
  end.

(** ** The auth slice ([store/slices/authSlice.ts]) *)

Module User.
Record t := mk {
  id : string;
  email : string;
  name : string;
  avatar_url : option string;
  auth_provider : string;
  is_verified : bool;
  created_at : string
}.
End User.

Module TokenResponse.
Record t := mk {
  access_token : string;
  refresh_token : string
}.
End TokenResponse.

Module AuthState.
Record t := mk {
  user : option User.t;
  accessToken : option string;
  refreshToken : option string;
  isLoading : bool;
  error : option string
}.
End AuthState.

Module authSlice.
Import AuthState.

(** The browser's [localStorage]: [getItem] is lookup, [setItem] is insert,
    [removeItem] is delete. *)
Abbreviation Storage := (gmap string string).

Definition ACCESS_KEY : string := "xkube_access_token".
Definition REFRESH_KEY : string := "xkube_refresh_token".

Definition initialState (localStorage : Storage) : AuthState.t :=
  mk None (localStorage !! ACCESS_KEY) (localStorage !! REFRESH_KEY) false None.

(** A rejected thunk carries the value given to [rejectWithValue] as
    [action.payload]. *)
Inductive action :=
| setTokens (accessToken refreshToken : string)
| clearError
| login_pending
| login_fulfilled (payload : TokenResponse.t)
| login_rejected (payload : string)
| register_pending
| register_fulfilled (payload : TokenResponse.t)
| register_rejected (payload : string)
| fetchCurrentUser_pending
| fetchCurrentUser_fulfilled (payload : User.t)
| fetchCurrentUser_rejected
| refreshAccessToken_fulfilled (payload : TokenResponse.t)
| refreshAccessToken_rejected
| logout_fulfilled.

Definition store_tokens (access refresh : string) (ls : Storage) : Storage :=
  <[REFRESH_KEY := refresh]> (<[ACCESS_KEY := access]> ls).

Definition remove_tokens (ls : Storage) : Storage :=
  delete REFRESH_KEY (delete ACCESS_KEY ls).

(** The reducers write [localStorage] as well as the draft, so a step maps
    a state and a storage to a state and a storage. *)
Definition reducer (st : AuthState.t * Storage) (a : action) : AuthState.t * Storage :=
  let (state, ls) := st in
  match a with
  | setTokens access refresh =>
      (mk (user state) (Some access) (Some refresh) (isLoading state) (error state),
       store_tokens access refresh ls)
  | clearError =>
      (mk (user state) (accessToken state) (refreshToken state) (isLoading state) None, ls)
  | login_pending | register_pending =>
      (mk (user state) (accessToken state) (refreshToken state) true None, ls)
  | login_fulfilled payload | register_fulfilled payload =>
      (mk (user state)
          (Some (TokenResponse.access_token payload))
          (Some (TokenResponse.refresh_token payload))
          false (error state),
       store_tokens (TokenResponse.access_token payload)
                    (TokenResponse.refresh_token payload) ls)
  | login_rejected payload | register_rejected payload =>
      (mk (user state) (accessToken state) (refreshToken state) false (Some payload), ls)
  | fetchCurrentUser_pending =>
      (mk (user state) (accessToken state) (refreshToken state) true (error state), ls)
  | fetchCurrentUser_fulfilled payload =>
      (mk (Some payload) (accessToken state) (refreshToken state) false (error state), ls)
  | fetchCurrentUser_rejected =>
      (mk (user state) None None false (error state), remove_tokens ls)
  | refreshAccessToken_fulfilled payload =>
      (mk (user state)
          (Some (TokenResponse.access_token payload))
          (Some (TokenResponse.refresh_token payload))
          (isLoading state) (error state),
       store_tokens (TokenResponse.access_token payload)
                    (TokenResponse.refresh_token payload) ls)
  | refreshAccessToken_rejected =>
      (mk None None None (isLoading state) (error state), remove_tokens ls)
  | logout_fulfilled =>
      (mk None None None (isLoading state) (error state), remove_tokens ls)
  end.

(** The seven transitions that assign the token fields. *)
Definition writes_tokens (a : action) : bool :=
  match a with
  | setTokens _ _ | login_fulfilled _ | register_fulfilled _
  | refreshAccessToken_fulfilled _ | fetchCurrentUser_rejected
  | refreshAccessToken_rejected | logout_fulfilled => true
  | _ => false
  end.

(** Both tokens present, or both absent. *)
Definition paired (access refresh : option string) : Prop :=
  (exists a r, access = Some a /\ refresh = Some r) \/ (access = None /\ refresh = None).

(** What [POST /api/auth/refresh] can answer to the thunk: an OK response
    with a new pair, a response that is not OK, or a failed [fetch]. *)
Inductive refresh_response :=
| response_ok (body : TokenResponse.t)
| response_not_ok
| network_error.

(** The payload creator of the [refreshAccessToken] thunk: it sends the
    stored refresh token once and turns the answer into the fulfilled or
    rejected action; [server] answers the request body's [refresh_token]. *)
Definition refreshAccessToken (state : AuthState.t)
    (server : string -> refresh_response) : action :=
  if Js.truthy (refreshToken state) then
    match refreshToken state with
    | Some rt =>
        match server rt with
        | response_ok body => refreshAccessToken_fulfilled body
        | response_not_ok => refreshAccessToken_rejected
        | network_error => refreshAccessToken_rejected
        end
    | None => refreshAccessToken_rejected
    end
  else refreshAccessToken_rejected.

End authSlice.

(** ** The add-cluster form ([features/clusters/AddClusterModal.tsx]) *)

Module AddClusterModal.

(** The form's [useState] fields read by [handleSubmit]. *)
Record form := mk_form {
  name : string;
  description : string;
  kubeconfig : string;
  context : string;
  tags : string
}.

(** What [handleSubmit] does after validation: show an error and return,
    or dispatch one of the two thunks. *)
Inductive outcome :=
| set_error (message : string)
| dispatch_createCluster (data : ClusterCreate.t)
| dispatch_updateCluster (id : string) (name : string) (description : option string)
    (context : string) (tags : option (list string)) (kubeconfig : option string).

(** [s.split(',')] *)
Fixpoint split_comma (s : string) : list string :=
  match s with
  | EmptyString => [EmptyString]
  | String c s' =>
      if Ascii.eqb c ","%char then EmptyString :: split_comma s'
      else match split_comma s' with
           | [] => [String c EmptyString]
           | t :: ts => String c t :: ts
           end
  end.

(** [tags.split(',').map(t => t.trim()).filter(t => t)] *)
Definition tagArray (tags : string) : list string :=
  List.filter (fun t => negb (String.eqb t "")) (map Js.trim (split_comma tags)).

Definition nonempty_or_undefined {A} (l : list A) : option (list A) :=
  match l with [] => None | _ => Some l end.

Definition trimmed_or_undefined (s : string) : option string :=
  let t := Js.trim s in if String.eqb t "" then None else Some t.

(** [handleSubmit] up to the dispatch; [cluster] is the prop that selects
    edit mode. What follows the dispatch, the [catch] branch included, is
    [AddClusterModalEffects.handleSubmit_settled]. *)
Definition handleSubmit (cluster : option Cluster.t) (f : form) : outcome :=
  if String.eqb (Js.trim (name f)) "" then set_error "Cluster name is required"
  else if match cluster with None => String.eqb (Js.trim (kubeconfig f)) "" | Some _ => false end
  then set_error "Kubeconfig is required"
  else if String.eqb (Js.trim (context f)) "" then set_error "Context is required"
  else
    let tagArray := tagArray (tags f) in
    match cluster with
    | Some c =>
        dispatch_updateCluster (Cluster.id c) (Js.trim (name f))
          (trimmed_or_undefined (description f)) (Js.trim (context f))
          (nonempty_or_undefined tagArray) (trimmed_or_undefined (kubeconfig f))
    | None =>
        dispatch_createCluster
          (ClusterCreate.mk (Js.trim (name f)) (Js.trim (kubeconfig f))
             (Js.trim (context f)) (trimmed_or_undefined (description f))
             (nonempty_or_undefined tagArray))
    end.

End AddClusterModal.

(** ** The onboarding form ([components/clusters/SimplifiedClusterForm.tsx]) *)

Module SimplifiedClusterForm.

(** The form's [useState] fields read by [handleSubmit]. *)
Record form := mk_form {
  autoDetect : bool;
  selectedContext : string;
  manualConfig : string;
  clusterName : string
}.

(** The object passed to [createCluster]; it is built as [any], so the
    fields of [ClusterCreate] may be missing and [context_name] is added. *)
Record payload := mk_payload {
  name : string;
  description : string;
  context_name : option string;
  kubeconfig : option string;
  context : option string
}.

(** [a || b] on strings. *)
Definition or_string (a b : string) : string :=
  if String.eqb a "" then b else a.

(** [handleSubmit] builds the payload and dispatches [createCluster] with it;
    no field is checked. [current_context] stands for
    [JSON.parse(manualConfig)['current-context']]: [None] when the text is
    not JSON (the [catch] branch) or the property is missing. *)
Definition handleSubmit (current_context : string -> option string) (f : form) : payload :=
  let name := or_string (clusterName f) (or_string (selectedContext f) "My Cluster") in
  if autoDetect f then
    mk_payload name ("Imported from " ++ selectedContext f)
               (Some (selectedContext f)) None None
  else
    mk_payload name "Manually added cluster" None
               (Some (manualConfig f))
               (Some (Js.or_else (current_context (manualConfig f)) "default")).

End SimplifiedClusterForm.

(** ** The backend core

    The slices above mirror a backend whose sources are not in the tree
    (the FastAPI service under [/backend]). The operations below are written
    from the specification's component design and error taxonomy. Values the
    backend takes from outside (the clock, freshly generated identifiers,
    the outcome of a connection attempt to a cluster) are arguments. *)

Module Core.

(** Modelled from the spec: the reasons of [ConnectError{timeout | refused |
    tls | unknown}] (the backend's error types are not in the tree). *)
Inductive connect_reason := timeout | refused | tls | unknown.

(** Modelled from the spec: the error taxonomy (backend error types are
    not in the tree). [InvalidInput] is the rejection of an empty name,
    kubeconfig or context, for which the taxonomy has no name. *)
Inductive error :=
| NotFound
| InvalidCredential
| InvalidInput
| ConnectError (reason : connect_reason)
| DecryptError
| Unauthenticated
| Expired
| AlreadyUsed
| Revoked
| TemporaryFailure.

(** Modelled from the spec: the outcome of an operation written
    [-> A | Error] in the contracts (not in the tree). *)
Inductive result (A : Type) :=
| Ok (a : A)
| Err (e : error).
Arguments Ok {A} a.
Arguments Err {A} e.

(** Modelled from the spec: the external capability
    [Connect(kubeconfig, context) -> (ClusterClient | ConnectError)], as
    the outcome of one attempt; a client answers [Version()]. *)
Inductive attempt :=
| connected (version : string)
| failed (reason : connect_reason).

End Core.

Module Registry.
Import Core.

(** Modelled from the spec: the Credential Vault's cluster table and the
    Connection Cache (neither is in the tree). Rows are kept in creation
    order and are the records the listing path returns; the ciphertext
    column is left out, no operation below reads it. [handles] holds the
    ids of the clusters with a live connection handle. *)
Record state := mk {
  records : list Cluster.t;
  handles : gset string
}.

(** Modelled from the spec: the empty Vault and Cache (backend start-up is
    not in the tree). *)
Definition empty : state := mk [] ∅.

(** Modelled from the spec: "owner (User id, exclusive ownership)" and the
    ownership check of the Registry operations (not in the tree). *)
Definition owned_by (ownerId : string) (c : Cluster.t) : bool :=
  String.eqb (Cluster.owner_id c) ownerId.

(** Modelled from the spec: the lookup key of the cluster table, "keyed by
    surrogate id" (not in the tree). *)
Definition has_id (id : string) (c : Cluster.t) : bool :=
  String.eqb (Cluster.id c) id.

(** Modelled from the spec: Vault [Load(id) -> Cluster | NotFound],
    restricted to an owner as the Registry uses it (not in the tree). *)
Definition Load (ownerId id : string) (st : state) : option Cluster.t :=
  find (fun c => has_id id c && owned_by ownerId c) (records st).

(** Modelled from the spec: Vault [ListByOwner] and Registry [List],
    "ordered by creation time ascending; does not touch live connections"
    (not in the tree). *)
Definition List (ownerId : string) (st : state) : list Cluster.t :=
  List.filter (owned_by ownerId) (records st).

(** Modelled from the spec: Vault [SetActive(ownerId, id)], which "clears
    is_active on every other Cluster owned by ownerId and sets it on id,
    as a single indivisible operation" (not in the tree): one pass over
    the owner's rows. *)
Definition SetActive (ownerId id : string) (rows : list Cluster.t) : list Cluster.t :=
  map (fun c => if owned_by ownerId c
                then Cluster.set_is_active (has_id id c) c
                else c) rows.

(** Modelled from the spec: Registry [Create] (not in the tree). It
    "rejects empty name/kubeconfig/context", validates that the
    kubeconfig/context pair connects "before persisting" and "on
    validation failure returns InvalidCredential without persisting". A
    new cluster is inactive (Scenario A) and its cached connection fields
    are unset until an explicit test. The surrogate id is generated
    outside; the table is keyed by it, so an id already present is a
    storage failure. *)
Definition Create (ownerId : string) (data : ClusterCreate.t)
    (new_id now : string) (conn : attempt) (st : state)
  : result Cluster.t * state :=
  if String.eqb (ClusterCreate.name data) ""
     || String.eqb (ClusterCreate.kubeconfig data) ""
     || String.eqb (ClusterCreate.context data) ""
  then (Err InvalidInput, st)
  else match conn with
       | failed _ => (Err InvalidCredential, st)
       | connected _ =>
           if existsb (has_id new_id) (records st)
           then (Err TemporaryFailure, st)
           else
             let c := Cluster.mk new_id (ClusterCreate.name data)
                        (ClusterCreate.description data)
                        (ClusterCreate.context data)
                        false false None 0%Z 0%Z
                        (default [] (ClusterCreate.tags data))
                        ownerId now now None in
             (Ok c, mk (records st ++ [c]) (handles st))
       end.

(** Modelled from the spec: Registry [Activate], which "invokes Vault's
    atomic SetActive; fails with NotFound if cluster absent/not owned"
    (not in the tree). *)
Definition Activate (ownerId id : string) (st : state) : result Cluster.t * state :=
  match Load ownerId id st with
  | None => (Err NotFound, st)
  | Some _ =>
      let st' := mk (SetActive ownerId id (records st)) (handles st) in
      match Load ownerId id st' with
      | Some c => (Ok c, st')
      | None => (Err NotFound, st)
      end
  end.

(** Modelled from the spec: Connection Cache [Invalidate(clusterId)],
    which "forcibly evicts" (not in the tree). *)
Definition Invalidate (id : string) (cache : gset string) : gset string :=
  cache ∖ {[ id ]}.

(** Modelled from the spec: Registry [Delete], which "evicts handle,
    removes record; if the deleted cluster was active, no cluster becomes
    active" (not in the tree). A cluster that is absent or not owned is
    [NotFound]. *)
Definition Delete (ownerId id : string) (st : state) : result unit * state :=
  match Load ownerId id st with
  | None => (Err NotFound, st)
  | Some _ =>
      (Ok tt, mk (List.filter (fun c => negb (has_id id c)) (records st))
                 (Invalidate id (handles st)))
  end.

(** Modelled from the spec: Connection Cache [GetOrConnect], reduced to
    the cached ids (not in the tree): a hit needs no attempt, a successful
    attempt on a miss caches the handle, a failed one is not cached. *)
Definition GetOrConnect (c : Cluster.t) (conn : attempt) (st : state)
  : result unit * state :=
  if bool_decide (Cluster.id c ∈ handles st) then (Ok tt, st)
  else match conn with
       | connected _ => (Ok tt, mk (records st) ({[ Cluster.id c ]} ∪ handles st))
       | failed r => (Err (ConnectError r), st)
       end.

(** Modelled from the spec: the calls of the invariant "after any sequence
    of Create/Activate/Delete calls", each with its owner and the values
    it takes from outside; [Connect] stands for a use of the cluster that
    goes through the Connection Cache. *)
Inductive call :=
| call_Create (ownerId : string) (data : ClusterCreate.t)
    (new_id now : string) (conn : attempt)
| call_Activate (ownerId id : string)
| call_Delete (ownerId id : string)
| call_Connect (ownerId id : string) (conn : attempt).

(** Modelled from the spec: the state a call leaves, whatever it returns
    (not in the tree). *)
Definition step (st : state) (c : call) : state :=
  match c with
  | call_Create ownerId data new_id now conn =>
      snd (Create ownerId data new_id now conn st)
  | call_Activate ownerId id => snd (Activate ownerId id st)
  | call_Delete ownerId id => snd (Delete ownerId id st)
  | call_Connect ownerId id conn =>
      match Load ownerId id st with
      | Some c => snd (GetOrConnect c conn st)
      | None => st
      end
  end.

(** Modelled from the spec: the state after a sequence of calls (not in
    the tree). *)
Definition run (st : state) (calls : list call) : state :=
  fold_left step calls st.

(** Modelled from the spec: "the count of Clusters with is_active = true
    owned by that owner", counted in the modelled table. *)
Definition active_count (ownerId : string) (st : state) : nat :=
  length (List.filter Cluster.is_active (List ownerId st)).

(** Modelled from the spec: the cluster table is "keyed by surrogate id",
    so no two rows of the modelled table share one. *)
Definition keyed (st : state) : Prop :=
  NoDup (map Cluster.id (records st)).

End Registry.

Module TokenService.
Import Core.

(** Modelled from the spec: the states of a refresh token record,
    "issued -> (verified)* -> rotated -> retired, with revoked reachable
    from any non-retired state" (the token tables are not in the tree). *)
Inductive token_state := issued | rotated | retired | revoked.

(** Modelled from the spec: the Session / Refresh Token record (not in the
    tree): "token identifier, owning User id, issued-at, expires-at", its
    state, "the identifier of the access token it was paired with" and the
    link of a rotation "to the old one"; [family] is the identifier of the
    login's first refresh token, which names the refresh-token family. *)
Record refresh_record := mk_record {
  user_id : string;
  issued_at : Z;
  expires_at : Z;
  status : token_state;
  access_id : string;
  family : string;
  previous : option string
}.

(** Modelled from the spec: a state transition of one record (not in the
    tree). *)
Definition set_status (s : token_state) (r : refresh_record) : refresh_record :=
  mk_record (user_id r) (issued_at r) (expires_at r) s (access_id r)
            (family r) (previous r).

(** Modelled from the spec: the access token, "a signed, time-boxed bearer
    credential carrying userId + issued-at + type discriminator" (token
    encoding is not in the tree); the signature is not modelled. *)
Record access_token := mk_access {
  jti : string;
  sub : string;
  iat : Z;
  exp : Z;
  typ : string
}.

(** Modelled from the spec: the [{accessToken, refreshToken}] that
    [IssuePair] and [Redeem] return (not in the tree). *)
Record pair := mk_pair {
  accessToken : access_token;
  refreshToken : string
}.

(** Modelled from the spec: the token lifetimes in seconds; the
    specification leaves them open ("minutes", "longer"), the README gives
    15 minutes and 7 days. *)
Definition ACCESS_TTL : Z := 900.
Definition REFRESH_TTL : Z := 604800.

(** Modelled from the spec: the Refresh-Token table, "keyed by surrogate
    id", here the token identifier (not in the tree). *)
Abbreviation table := (gmap string refresh_record).

(** Modelled from the spec: what a call takes from outside, the clock and
    two freshly generated "opaque, unguessable" identifiers (their sources
    are not in the tree). *)
Record env := mk_env {
  now : Z;
  new_refresh : string;
  new_access : string
}.

(** Modelled from the spec: the pair issued to [userId], its access token
    "carrying userId + issued-at + type discriminator" and expiring after
    the short lifetime (not in the tree). *)
Definition new_pair (userId : string) (e : env) : pair :=
  mk_pair (mk_access (new_access e) userId (now e) (now e + ACCESS_TTL) "access")
          (new_refresh e).

(** Modelled from the spec: [IssuePair(userId)] (not in the tree): the
    refresh token is "recorded in the Session/Refresh Token table in
    issued state" and starts a family. An identifier already in the table
    is a storage failure. *)
Definition IssuePair (userId : string) (e : env) (t : table) : result pair * table :=
  match t !! new_refresh e with
  | Some _ => (Err TemporaryFailure, t)
  | None =>
      (Ok (new_pair userId e),
       <[new_refresh e :=
           mk_record userId (now e) (now e + REFRESH_TTL) issued (new_access e)
                     (new_refresh e) None]> t)
  end.

(** Modelled from the spec: the revocation of "the entire remaining chain"
    of a family (not in the tree): every record of the family that could
    still be redeemed becomes [revoked]. *)
Definition revoke_family (fam : string) (t : table) : table :=
  (fun r => if String.eqb (family r) fam
            then match status r with issued => set_status revoked r | _ => r end
            else r) <$> t.

(** Modelled from the spec: [Redeem(refreshToken)] (not in the tree). A
    record that is already rotated, retired or revoked is a replay signal:
    the family's remaining chain is revoked. The outcome is [AlreadyUsed]
    for a token that was redeemed before (sections 5 and 8, Scenario C)
    and [Revoked] for a revoked one, the two replay outcomes of the
    operation's signature (the prose of section 4.5 names only
    [Revoked]). A valid record is marked [rotated] and a new pair is
    issued in the same family, linked to the old record. An unknown
    identifier is [NotFound]. *)
Definition Redeem (refreshToken : string) (e : env) (t : table) : result pair * table :=
  match t !! refreshToken with
  | None => (Err NotFound, t)
  | Some r =>
      match status r with
      | rotated | retired => (Err AlreadyUsed, revoke_family (family r) t)
      | revoked => (Err Revoked, revoke_family (family r) t)
      | issued =>
          if (expires_at r <=? now e)%Z then (Err Expired, t)
          else match t !! new_refresh e with
               | Some _ => (Err TemporaryFailure, t)
               | None =>
                   (Ok (new_pair (user_id r) e),
                    <[new_refresh e :=
                        mk_record (user_id r) (now e) (now e + REFRESH_TTL) issued
                                  (new_access e) (family r) (Some refreshToken)]>
                      (<[refreshToken := set_status rotated r]> t))
               end
      end
  end.

(** Modelled from the spec: [Revoke(refreshToken)], "explicit logout —
    marks revoked" (not in the tree); [revoked] is reachable from any
    state but [retired]. *)
Definition Revoke (refreshToken : string) (t : table) : table :=
  match t !! refreshToken with
  | Some r =>
      match status r with
      | retired => t
      | _ => <[refreshToken := set_status revoked r]> t
      end
  | None => t
  end.

(** Modelled from the spec: the operations of the Token Service that
    write the table, each with what it takes from outside (not in the
    tree). *)
Inductive call :=
| call_IssuePair (userId : string) (e : env)
| call_Redeem (refreshToken : string) (e : env)
| call_Revoke (refreshToken : string).

(** Modelled from the spec: the table a call leaves, whatever it returns
    (not in the tree). *)
Definition step (t : table) (c : call) : table :=
  match c with
  | call_IssuePair userId e => snd (IssuePair userId e t)
  | call_Redeem refreshToken e => snd (Redeem refreshToken e t)
  | call_Revoke refreshToken => Revoke refreshToken t
  end.

(** Modelled from the spec: the table after a sequence of calls (not in
    the tree). *)
Definition run (t : table) (calls : list call) : table :=
  fold_left step calls t.

(** Modelled from the spec: a call that returned a value, for [Redeem] "a
    successful redemption" (not in the tree). *)
Definition is_Ok {A} (r : result A) : bool :=
  match r with Ok _ => true | Err _ => false end.

(** Modelled from the spec: a token whose record is "already
    rotated/retired/revoked" in the modelled table. *)
Definition spent (refreshToken : string) (t : table) : Prop :=
  exists r, t !! refreshToken = Some r /\ status r <> issued.

End TokenService.

(** ** Scenarios

    The data of the specification's scenarios A and B: a user with the
    clusters "prod" and "staging". *)

Module Scenario.

Definition alice : string := "user-1".

Definition prod_data : ClusterCreate.t :=
  ClusterCreate.mk "prod" "apiVersion: v1" "prod-admin" None None.

Definition staging_data : ClusterCreate.t :=
  ClusterCreate.mk "staging" "apiVersion: v1" "staging-admin" (Some "pre-production") None.

(** The records the Registry creates for them. *)
Definition prod : Cluster.t :=
  Cluster.mk "c-1" "prod" None "prod-admin" false false None 0 0 []
             alice "2026-01-01T10:00:00Z" "2026-01-01T10:00:00Z" None.

Definition staging : Cluster.t :=
  Cluster.mk "c-2" "staging" (Some "pre-production") "staging-admin" false false None 0 0 []
             alice "2026-01-02T10:00:00Z" "2026-01-02T10:00:00Z" None.

(** "prod" created and activated, then "staging" created. *)
Definition calls_B : list Registry.call :=
  [ Registry.call_Create alice prod_data "c-1" "2026-01-01T10:00:00Z"
      (Core.connected "v1.29.0");
    Registry.call_Activate alice "c-1";
    Registry.call_Create alice staging_data "c-2" "2026-01-02T10:00:00Z"
      (Core.connected "v1.30.1") ].

Definition registry_B : Registry.state := Registry.run Registry.empty calls_B.

(** Scenario B after a use of "prod" that left a connection handle. *)
Definition registry_B_connected : Registry.state :=
  Registry.step registry_B
    (Registry.call_Connect alice "c-1" (Core.connected "v1.29.0")).

(** "prod" after a successful connection test. *)
Definition prod_connected : Cluster.t :=
  Cluster.mk "c-1" "prod" None "prod-admin" true true (Some "v1.29.0") 3 41 []
             alice "2026-01-01T10:00:00Z" "2026-01-03T09:00:00Z"
             (Some "2026-01-03T09:00:00Z").

(** The same history as the cluster slice sees it. *)
Definition actions_B : list clusterSlice.action :=
  [ clusterSlice.createCluster_fulfilled prod;
    clusterSlice.activateCluster_fulfilled (Cluster.set_is_active true prod);
    clusterSlice.createCluster_fulfilled staging ].

Definition state_B : ClusterState.t :=
  clusterSlice.run clusterSlice.initialState actions_B.

(** Scenario C: a login at time 1000 and a refresh at time 1600. *)
Definition login_env : TokenService.env := TokenService.mk_env 1000 "rt-1" "at-1".
Definition refresh_env : TokenService.env := TokenService.mk_env 1600 "rt-2" "at-2".
Definition replay_env : TokenService.env := TokenService.mk_env 1700 "rt-3" "at-3".

Definition table_login : gmap string TokenService.refresh_record :=
  snd (TokenService.IssuePair alice login_env ∅).

Definition table_rotated : gmap string TokenService.refresh_record :=
  snd (TokenService.Redeem "rt-1" refresh_env table_login).

(** The signed-in client of scenario C and its [localStorage]. *)
Definition storage_C : gmap string string :=
  authSlice.store_tokens "access-1" "rt-1" ∅.

Definition auth_C : AuthState.t :=
  AuthState.mk
    (Some (User.mk "user-1" "alice@example.org" "Alice" None "local" true
                   "2025-12-24T08:00:00Z"))
    (Some "access-1") (Some "rt-1") false None.

End Scenario.

(** ** The other thunks of the cluster slice ([clusterSlice.ts], lines 22-68)

    The slice registers a case for every action of [fetchClusters] and
    [createCluster], and only for the [fulfilled] action of the other four
    thunks; an action without a case leaves the state as it is. Each thunk
    below is the list of the actions it dispatches that have a case. *)

Module clusterThunks.
Import clusterSlice.

Definition fetchClusters (response : api_result (list Cluster.t)) : list action :=
  [ fetchClusters_pending;
    match response with
    | resolved clusters => fetchClusters_fulfilled clusters
    | thrown message => fetchClusters_rejected message
    end ].

Definition updateCluster (response : api_result Cluster.t) : list action :=
  match response with
  | resolved cluster => [updateCluster_fulfilled cluster]
  | thrown _ => []
  end.

(** [await clusterApi.deleteCluster(id); return id] *)
Definition deleteCluster (id : string) (response : api_result unit) : list action :=
  match response with
  | resolved _ => [deleteCluster_fulfilled id]
  | thrown _ => []
  end.

(** [return { id, result }] *)
Definition testConnection (id : string)
    (response : api_result ConnectionTestResult.t) : list action :=
  match response with
  | resolved result => [testConnection_fulfilled id result]
  | thrown _ => []
  end.

Definition activateCluster (response : api_result Cluster.t) : list action :=
  match response with
  | resolved cluster => [activateCluster_fulfilled cluster]
  | thrown _ => []
  end.

End clusterThunks.

(** ** The application shell ([App.tsx], [AppWithClusterCheck]) *)

Module App.

Inductive view :=
| LoadingScreen
| ClusterOnboarding
| MainRoutes.

(** What [AppWithClusterCheck] renders; [timedOut] is set by the timer the
    mount effect starts beside [dispatch(fetchClusters())]. *)
Definition AppWithClusterCheck (state : ClusterState.t) (timedOut : bool) : view :=
  if ClusterState.loading state && negb timedOut then LoadingScreen
  else if negb timedOut
          && negb (Js.truthy (ClusterState.error state))
          && (length (ClusterState.clusters state) =? 0)%nat
       then ClusterOnboarding
       else MainRoutes.

End App.

(** ** The cluster detail page ([ClusterDetailPage]) *)

Module ClusterDetailPage.

(** [state.clusters.clusters.find(c => c.id === clusterId)]; the route
    parameter [clusterId] is a [string | undefined]. *)
Definition cluster (state : ClusterState.t) (clusterId : option string) : option Cluster.t :=
  match clusterId with
  | Some id => find (fun c => Js.str_eq (Cluster.id c) id) (ClusterState.clusters state)
  | None => None
  end.

(** The guard of the effect "activate this cluster when viewing":
    [cluster && !cluster.is_active && clusterId]. When it holds the effect
    dispatches [activateCluster(clusterId)]. *)
Definition activates (state : ClusterState.t) (clusterId : option string) : bool :=
  match cluster state clusterId with
  | Some c => negb (Cluster.is_active c) && Js.truthy clusterId
  | None => false
  end.

End ClusterDetailPage.

(** ** The other thunks of the auth slice ([authSlice.ts], lines 51-167) *)

Module authThunks.
Import authSlice.

(** What [POST /api/auth/login] and [/register] can answer: an OK response
    with a token pair; a response that is not OK, whose JSON body carries a
    [detail] that is a string, or none; or a [fetch] or [json()] that
    throws. A [detail] that is present and not a string is outside this
    type: the thunk would pass it to [rejectWithValue] as it is, and the
    slice's [error], a string or null here, cannot hold it. *)
Inductive token_answer :=
| token_ok (body : TokenResponse.t)
| token_not_ok (detail : option string)
| token_thrown.

(** What [GET /api/auth/me] can answer. *)
Inductive me_answer :=
| me_ok (user : User.t)
| me_not_ok
| me_thrown.

(** The settling action of [login]; its [pending] action comes first. *)
Definition login_settled (answer : token_answer) : action :=
  match answer with
  | token_ok body => login_fulfilled body
  | token_not_ok detail => login_rejected (Js.or_else detail "Login failed")
  | token_thrown => login_rejected "Network error"
  end.

Definition login (answer : token_answer) : list action :=
  [login_pending; login_settled answer].

Definition register_settled (answer : token_answer) : action :=
  match answer with
  | token_ok body => register_fulfilled body
  | token_not_ok detail => register_rejected (Js.or_else detail "Registration failed")
  | token_thrown => register_rejected "Network error"
  end.

Definition register (answer : token_answer) : list action :=
  [register_pending; register_settled answer].

(** The settling action of [fetchCurrentUser]: its payload creator reads
    [state.auth.accessToken] and, when there is one, asks the server with
    [Authorization: Bearer <token>]; [server] answers that token. *)
Definition fetchCurrentUser_settled (state : AuthState.t)
    (server : string -> me_answer) : action :=
  if Js.truthy (AuthState.accessToken state) then
    match AuthState.accessToken state with
    | Some token =>
        match server token with
        | me_ok user => fetchCurrentUser_fulfilled user
        | me_not_ok | me_thrown => fetchCurrentUser_rejected
        end
    | None => fetchCurrentUser_rejected
    end
  else fetchCurrentUser_rejected.

(** A dispatched [fetchCurrentUser]: the [pending] action is reduced, then
    the payload creator runs on the resulting state, then the settling
    action is reduced. The settling action is returned for [unwrap]. *)
Definition fetchCurrentUser (st : AuthState.t * gmap string string)
    (server : string -> me_answer) : (AuthState.t * gmap string string) * action :=
  let st1 := reducer st fetchCurrentUser_pending in
  let settled := fetchCurrentUser_settled (fst st1) server in
  (reducer st1 settled, settled).

(** The request the [logout] thunk sends: the stored refresh token, when
    there is one. Whatever the server answers, and also when [fetch]
    throws, the thunk is fulfilled. *)
Definition logout_request (state : AuthState.t) : option string :=
  if Js.truthy (AuthState.refreshToken state) then AuthState.refreshToken state else None.

Definition logout : list action := [logout_fulfilled].

(** A dispatched [refreshAccessToken]; it has no [pending] case. *)
Definition dispatch_refreshAccessToken (st : AuthState.t * gmap string string)
    (server : string -> refresh_response) : AuthState.t * gmap string string :=
  reducer st (refreshAccessToken (fst st) server).

(** The state after a sequence of actions. *)
Definition run (st : AuthState.t * gmap string string) (actions : list action)
  : AuthState.t * gmap string string :=
  fold_left reducer actions st.

End authThunks.

(** ** The protected route ([components/ProtectedRoute.tsx])

    The component of the same name inside [App.tsx] has the same two
    effects but redirects to [/login] where this one renders the login
    page; it is not modelled. *)

Module ProtectedRoute.

Inductive view :=
| Spinner
| LoginPage
| children.

(** What the component renders. *)
Definition ProtectedRoute (state : AuthState.t) : view :=
  if AuthState.isLoading state then Spinner
  else match AuthState.user state with
       | Some _ => children
       | None => LoginPage
       end.

(** The guard of the effect that dispatches [fetchCurrentUser()]:
    [accessToken && !user && !isLoading]. *)
Definition fetches_user (state : AuthState.t) : bool :=
  Js.truthy (AuthState.accessToken state)
  && match AuthState.user state with Some _ => false | None => true end
  && negb (AuthState.isLoading state).

(** The OAuth callback effect: with both query parameters present it
    stores them and reloads the page, which starts the slice again from
    [localStorage]; otherwise it does nothing. [None] stands for "no
    reload". *)
Definition oauth_callback (access_token refresh_token : option string)
    (ls : gmap string string) : option (gmap string string) :=
  if Js.truthy access_token && Js.truthy refresh_token then
    match access_token, refresh_token with
    | Some a, Some r =>
        Some (<[authSlice.REFRESH_KEY := r]> (<[authSlice.ACCESS_KEY := a]> ls))
    | _, _ => None
    end
  else None.

End ProtectedRoute.

(** ** The login page ([LoginPage.tsx], [handleSubmit]) *)

Module LoginPage.

(** [handleSubmit]: clear the error, dispatch [login] and unwrap it, then
    dispatch [fetchCurrentUser] and unwrap it, then navigate to
    [/clusters]; a rejected thunk makes [unwrap] throw, which ends the
    handler. The result is the store and whether the page navigated. *)
Definition handleSubmit (st : AuthState.t * gmap string string)
    (login_answer : authThunks.token_answer)
    (me_server : string -> authThunks.me_answer)
  : (AuthState.t * gmap string string) * bool :=
  let st0 := authSlice.reducer st authSlice.clearError in
  let st1 := authThunks.run st0 (authThunks.login login_answer) in
  match login_answer with
  | authThunks.token_ok _ =>
      let (st2, settled) := authThunks.fetchCurrentUser st1 me_server in
      match settled with
      | authSlice.fetchCurrentUser_fulfilled _ => (st2, true)
      | _ => (st2, false)
      end
  | _ => (st1, false)
  end.

End LoginPage.

(** ** The API clients ([services/api.ts] and [api/pods.ts]) *)

Module api.

(** The request interceptor: [headers] are the request's headers. *)
Definition request_interceptor (ls : gmap string string)
    (headers : gmap string string) : gmap string string :=
  if Js.truthy (ls !! "xkube_access_token") then
    match ls !! "xkube_access_token" with
    | Some token => <["Authorization" := String.append "Bearer " token]> headers
    | None => headers
    end
  else headers.

(** The response interceptor's error handler, on [localStorage]; [status]
    is [error.response?.status], absent when no response arrived. The error
    is rejected again in every case. *)
Definition response_error_interceptor (status : option Z)
    (ls : gmap string string) : gmap string string :=
  match status with
  | Some 401%Z => delete "xkube_refresh_token" (delete "xkube_access_token" ls)
  | _ => ls
  end.

End api.

Module podsApi.

(** [getAuthToken] of the pods client. *)
Definition getAuthToken (ls : gmap string string) : option string :=
  ls !! "access_token".

(** The request interceptor of the pods client's own axios instance. *)
Definition request_interceptor (ls : gmap string string)
    (headers : gmap string string) : gmap string string :=
  if Js.truthy (getAuthToken ls) then
    match getAuthToken ls with
    | Some token => <["Authorization" := String.append "Bearer " token]> headers
    | None => headers
    end
  else headers.

End podsApi.

(** ** More of the add-cluster form: the effect that fills it and the
    kubeconfig upload ([AddClusterModal.tsx], lines 36-75) *)

Module JsString.

(** [s.split(sep)] for a separator of one code unit. *)
Fixpoint split (sep : ascii) (s : string) : list string :=
  match s with
  | EmptyString => [EmptyString]
  | String c s' =>
      if Ascii.eqb c sep then EmptyString :: split sep s'
      else match split sep s' with
           | [] => [String c EmptyString]
           | t :: ts => String c t :: ts
           end
  end.

(** [s.includes(c)] for one code unit. *)
Fixpoint includes (c : ascii) (s : string) : bool :=
  match s with
  | EmptyString => false
  | String c' s' => Ascii.eqb c' c || includes c s'
  end.

(** [s.startsWith(p)] *)
Definition startsWith (p s : string) : bool := String.prefix p s.

(** [l.join(sep)] on an array of strings. *)
Definition join (sep : string) (l : list string) : string := String.concat sep l.

End JsString.

Module AddClusterModalEffects.
Import AddClusterModal.

(** The effect on [cluster] and [isOpen]: in edit mode it fills the name,
    the description, the context and the tags from the cluster and leaves
    the kubeconfig field as it is; otherwise it resets the form. *)
Definition useEffect (cluster : option Cluster.t) (f : form) : form :=
  match cluster with
  | Some c =>
      mk_form (Cluster.name c) (Js.or_else (Cluster.description c) "")
              (kubeconfig f) (Cluster.context c)
              (SimplifiedClusterForm.or_string (JsString.join ", " (Cluster.tags c)) "")
  | None => mk_form "" "" "" "" ""
  end.

(** [reader.onload] of [handleFileUpload], for a file whose text is
    [content]: the kubeconfig field takes the text, and the context field
    takes what follows the first colon of the first line that starts with
    [current-context:], up to the next colon, trimmed. *)
Definition handleFileUpload (content : string) (f : form) : form :=
  let f := mk_form (name f) (description f) content (context f) (tags f) in
  let yamlLines := JsString.split "010"%char content in
  match find (JsString.startsWith "current-context:") yamlLines with
  | Some currentContextLine =>
      if String.eqb currentContextLine "" then f
      else match JsString.split ":"%char currentContextLine !! 1%nat with
           | Some segment =>
               mk_form (name f) (description f) (kubeconfig f) (Js.trim segment) (tags f)
           | None => f
           end
  | None => f
  end.

(** [handleSubmit] to its end; [response] is how the dispatched thunk
    ended, as [unwrap] sees it. A validation error is shown and nothing is
    sent. Otherwise the error was reset to the empty string; when the thunk
    is fulfilled the list is fetched again and the modal closes; when it is
    rejected, [unwrap] throws and the [catch] branch shows
    [err.message || 'Failed to save cluster']. The result is the form's
    error text and whether the modal closed. *)
Definition handleSubmit_settled (cluster : option Cluster.t) (f : form)
    (response : clusterSlice.api_result Cluster.t) : string * bool :=
  match handleSubmit cluster f with
  | set_error message => (message, false)
  | dispatch_createCluster _ | dispatch_updateCluster _ _ _ _ _ _ =>
      match response with
      | clusterSlice.resolved _ => (EmptyString, true)
      | clusterSlice.thrown message => (Js.or_else message "Failed to save cluster", false)
      end
  end.

End AddClusterModalEffects.

(** ** More of the onboarding form: auto-detection and the submit button
    ([SimplifiedClusterForm.tsx]) *)

Module KubeContext.
Record t := mk {
  name : string;
  cluster : string;
  user : string;
  namespace : string;
  server : string;
  is_current : bool
}.
End KubeContext.

Module AutoDetectResponse.
Record t := mk {
  success : bool;
  message : string;
  contexts : list KubeContext.t;
  current_context : option string;
  kubeconfig_path : string
}.
End AutoDetectResponse.

Module SimplifiedClusterFormState.

(** The component's [useState] fields. *)
Record t := mk {
  autoDetect : bool;
  loading : bool;
  detecting : bool;
  contexts : list KubeContext.t;
  selectedContext : string;
  manualConfig : string;
  clusterName : string;
  error : string
}.

Definition initialState : t := mk true false false [] "" "" "" "".

(** The fields [handleSubmit] reads. *)
Definition form (s : t) : SimplifiedClusterForm.form :=
  SimplifiedClusterForm.mk_form (autoDetect s) (selectedContext s)
                                (manualConfig s) (clusterName s).

(** [detectClusters], once [clusterApi.autoDetect()] has settled. *)
Definition detectClusters (answer : clusterSlice.api_result AutoDetectResponse.t) (s : t) : t :=
  match answer with
  | clusterSlice.resolved data =>
      if AutoDetectResponse.success data
         && (0 <? length (AutoDetectResponse.contexts data))%nat then
        match find KubeContext.is_current (AutoDetectResponse.contexts data) with
        | Some current =>
            mk (autoDetect s) (loading s) false (AutoDetectResponse.contexts data)
               (KubeContext.name current) (manualConfig s) (KubeContext.name current) ""
        | None =>
            mk (autoDetect s) (loading s) false (AutoDetectResponse.contexts data)
               (selectedContext s) (manualConfig s) (clusterName s) ""
        end
      else
        mk false (loading s) false (contexts s) (selectedContext s) (manualConfig s)
           (clusterName s)
           (SimplifiedClusterForm.or_string (AutoDetectResponse.message data)
                                            "No contexts found in ~/.kube/config")
  | clusterSlice.thrown _ =>
      mk false (loading s) false (contexts s) (selectedContext s) (manualConfig s)
         (clusterName s)
         "Failed to auto-detect clusters. Please paste kubeconfig manually."
  end.

(** The [disabled] attribute of the submit button. *)
Definition submit_disabled (s : t) : bool :=
  loading s
  || (autoDetect s && String.eqb (selectedContext s) "")
  || (negb (autoDetect s) && String.eqb (manualConfig s) "").

End SimplifiedClusterFormState.

(** ** The auth context ([contexts/AuthContext.tsx]) *)

Module AuthContext.

Definition TOKEN_KEY : string := "xkube_access_token".
Definition REFRESH_TOKEN_KEY : string := "xkube_refresh_token".

(** The provider's [useState] fields. *)
Record t := mk {
  user : option User.t;
  isLoading : bool
}.

Definition initialState : t := mk None true.

Definition getAccessToken (ls : gmap string string) : option string := ls !! TOKEN_KEY.
Definition getRefreshToken (ls : gmap string string) : option string := ls !! REFRESH_TOKEN_KEY.

Definition setTokens (access refresh : string) (ls : gmap string string)
  : gmap string string :=
  <[REFRESH_TOKEN_KEY := refresh]> (<[TOKEN_KEY := access]> ls).

Definition clearTokens (ls : gmap string string) : gmap string string :=
  delete REFRESH_TOKEN_KEY (delete TOKEN_KEY ls).

(** What [GET /api/auth/me] can answer: an OK response with the user, a
    response that is not OK with its status, or a [fetch] or [json()] that
    throws. *)
Inductive me_response :=
| me_ok (userData : User.t)
| me_status (status : Z)
| me_thrown.

(** The server, as far as [fetchUser] and [refreshToken] ask it: the
    answer of [/api/auth/me] to an access token and of [/api/auth/refresh]
    to a refresh token. *)
Record server := mk_server {
  me : string -> me_response;
  refresh : string -> authSlice.refresh_response
}.

(** [fetchUser] and [refreshToken] call each other: a 401 from
    [/api/auth/me] starts a refresh, and a refresh that succeeds fetches
    the user again. [fuel] bounds the number of nested calls; [None] means
    that the calls did not settle within it. [refreshToken] also returns
    its boolean result. *)
Fixpoint fetchUser (fuel : nat) (srv : server) (st : t * gmap string string)
  : option (t * gmap string string) :=
  match fuel with
  | O => None
  | S fuel =>
      let (s, ls) := st in
      if Js.truthy (getAccessToken ls) then
        match getAccessToken ls with
        | Some token =>
            match me srv token with
            | me_ok userData => Some (mk (Some userData) false, ls)
            | me_status status =>
                if (status =? 401)%Z then
                  match refreshToken fuel srv st with
                  | Some ((s', ls'), refreshed) =>
                      if refreshed then Some (mk (user s') false, ls')
                      else Some (mk None false, clearTokens ls')
                  | None => None
                  end
                else Some (mk (user s) false, ls)
            | me_thrown => Some (mk (user s) false, ls)
            end
        | None => Some (mk (user s) false, ls)
        end
      else Some (mk (user s) false, ls)
  end
with refreshToken (fuel : nat) (srv : server) (st : t * gmap string string)
  : option ((t * gmap string string) * bool) :=
  match fuel with
  | O => None
  | S fuel =>
      let (s, ls) := st in
      if Js.truthy (getRefreshToken ls) then
        match getRefreshToken ls with
        | Some refreshTokenValue =>
            match refresh srv refreshTokenValue with
            | authSlice.response_ok data =>
                let ls := setTokens (TokenResponse.access_token data)
                                    (TokenResponse.refresh_token data) ls in
                match fetchUser fuel srv (s, ls) with
                | Some st' => Some (st', true)
                | None => None
                end
            | authSlice.response_not_ok | authSlice.network_error => Some (st, false)
            end
        | None => Some (st, false)
        end
      else Some (st, false)
  end.

End AuthContext.

(** ** The cluster slice next to the Registry

    The slice holds the clusters of the signed-in user as the API returned
    them. Below, one user's slice is run next to the Registry: every call
    of that user reaches the slice as the actions of the thunk that made
    it, carrying the Registry's own answer. *)

Module Mirror.
Import Registry.

(** Modelled from the spec: how the answer of a Registry operation reaches
    the API client (the route handlers are not in the tree). A returned
    value is the response data; an error is an error response, on which the
    API call throws, and [message] is the text the thunk then sees. *)
Definition answer {A} (message : Core.error -> option string) (r : Core.result A)
  : clusterSlice.api_result A :=
  match r with
  | Core.Ok a => clusterSlice.resolved a
  | Core.Err e => clusterSlice.thrown (message e)
  end.

(** Modelled from the spec: the actions the slice of [user] handles for one
    call on the Registry in state [st] (the routes are not in the tree):
    the user's own [Create], [Activate] and [Delete] are made by the thunks
    [createCluster], [activateCluster] and [deleteCluster]; the calls of
    other users and the uses of a connection do not reach this slice. *)
Definition actions (user : string) (message : Core.error -> option string)
    (st : state) (c : call) : list clusterSlice.action :=
  match c with
  | call_Create ownerId data new_id now conn =>
      if String.eqb ownerId user
      then clusterSlice.createCluster
             (answer message (fst (Create ownerId data new_id now conn st)))
      else []
  | call_Activate ownerId id =>
      if String.eqb ownerId user
      then clusterThunks.activateCluster (answer message (fst (Activate ownerId id st)))
      else []
  | call_Delete ownerId id =>
      if String.eqb ownerId user
      then clusterThunks.deleteCluster id (answer message (fst (Delete ownerId id st)))
      else []
  | call_Connect _ _ _ => []
  end.

(** Modelled from the spec: one call, on the Registry and on the user's
    slice (the routes are not in the tree). *)
Definition step (user : string) (message : Core.error -> option string)
    (p : state * ClusterState.t) (c : call) : state * ClusterState.t :=
  (Registry.step (fst p) c, clusterSlice.run (snd p) (actions user message (fst p) c)).

(** Modelled from the spec: a sequence of calls (the routes are not in the
    tree). *)
Definition run (user : string) (message : Core.error -> option string)
    (p : state * ClusterState.t) (calls : list call) : state * ClusterState.t :=
  fold_left (step user message) calls p.

(** Modelled from the spec: the empty Registry and a slice that has just
    been created. *)
Definition start : state * ClusterState.t := (Registry.empty, clusterSlice.initialState).

(** Modelled from the spec: the owner's active cluster, "the single Cluster
    record per owner currently designated as the default target"; [None] is
    the "explicit null state". *)
Definition active (ownerId : string) (st : state) : option Cluster.t :=
  find Cluster.is_active (List ownerId st).

(** The slice shows what [List] returns for the user, and its active slot
    is the user's active cluster. *)
Definition mirrors (user : string) (st : state) (s : ClusterState.t) : Prop :=
  ClusterState.clusters s = List user st /\
  ClusterState.activeCluster s = active user st.

End Mirror.

(** * Properties *)

(** ** JavaScript helpers *)

Section JsFacts.
Context {A : Type}.
Implicit Types (p : A -> bool) (l : list A).

Lemma findIndex_None p l :
  Js.findIndex p l = None <-> forall x, In x l -> p x = false.
Proof.
  induction l as [|a l IH]; simpl.
  - split; [intros _ x [] | reflexivity].
  - destruct (p a) eqn:Ha.
    + split; [discriminate |].
      intros H. rewrite (H a) in Ha by auto. discriminate.
    + destruct (Js.findIndex p l) as [i|] eqn:Hi; simpl.
      * split; [discriminate |].
        intros H. assert (Some i = None) as Hn; [| discriminate Hn].
        apply IH. intros x Hx. apply H. auto.
      * split; [| reflexivity].
        intros _ x [<- | Hx]; [assumption |].
        destruct IH as [IH _]. apply IH; [reflexivity | assumption].
Qed.

(** A found index is in range, holds an element satisfying the predicate,
    and no earlier element does. *)
Lemma findIndex_Some p l i :
  Js.findIndex p l = Some i ->
  exists x, l !! i = Some x /\ p x = true /\
            forall j y, (j < i)%nat -> l !! j = Some y -> p y = false.
Proof.
  revert i. induction l as [|a l IH]; simpl; intros i; [discriminate |].
  destruct (p a) eqn:Ha.
  - intros [= <-]. exists a. repeat split; auto. intros j y Hj. lia.
  - destruct (Js.findIndex p l) as [k|]; simpl; [| discriminate].
    intros [= <-]. destruct (IH k eq_refl) as (x & Hx & Hp & Hbefore).
    exists x. repeat split; auto.
    intros [|j] y Hj; simpl; [intros [= <-]; assumption |].
    apply Hbefore. lia.
Qed.

Lemma findIndex_is_Some p l x :
  In x l -> p x = true -> exists i, Js.findIndex p l = Some i.
Proof.
  intros Hin Hp. destruct (Js.findIndex p l) as [i|] eqn:E; [eauto |].
  rewrite findIndex_None in E. rewrite (E x Hin) in Hp. discriminate.
Qed.

Lemma modify_first_absent p (f : A -> A) l :
  (forall x, In x l -> p x = false) -> Js.modify_first p f l = l.
Proof.
  induction l as [|a l IH]; simpl; intros H; [reflexivity |].
  rewrite (H a) by auto. f_equal. apply IH. intros x Hx. apply H. auto.
Qed.

Lemma modify_first_length p (f : A -> A) l :
  length (Js.modify_first p f l) = length l.
Proof.
  induction l as [|a l IH]; simpl; [reflexivity |].
  destruct (p a); simpl; congruence.
Qed.

(** [modify_first] is an update at the index [findIndex] returns. *)
Lemma modify_first_findIndex p (f : A -> A) l i x :
  Js.findIndex p l = Some i -> l !! i = Some x ->
  Js.modify_first p f l = <[i := f x]> l.
Proof.
  revert i. induction l as [|a l IH]; simpl; intros i; [discriminate |].
  destruct (p a).
  - intros [= <-]. simpl. intros [= ->]. reflexivity.
  - destruct (Js.findIndex p l) as [k|]; simpl; [| discriminate].
    intros [= <-]. simpl. intros Hx. f_equal. apply IH; auto.
Qed.
End JsFacts.

Lemma trimEnd_all_white_space s :
  Js.all_white_space s = true -> Js.trimEnd s = "".
Proof.
  induction s as [|c s IH]; simpl; [reflexivity |].
  intros [Hc Hs]%andb_true_iff. rewrite (IH Hs), Hc. reflexivity.
Qed.

Lemma trimEnd_empty s :
  Js.trimEnd s = "" -> Js.all_white_space s = true.
Proof.
  induction s as [|c s IH]; simpl; [reflexivity |].
  destruct (Js.trimEnd s); [| discriminate].
  destruct (Js.is_white_space c); [| discriminate].
  intros _. simpl. apply IH. reflexivity.
Qed.

Lemma trimStart_all_white_space s :
  Js.all_white_space s = Js.all_white_space (Js.trimStart s).
Proof.
  induction s as [|c s IH]; simpl; [reflexivity |].
  destruct (Js.is_white_space c) eqn:Hc; simpl; [assumption |].
  rewrite Hc. reflexivity.
Qed.

(** [s.trim()] is the empty string exactly when [s] holds white space
    only. *)
Lemma trim_empty_iff s :
  Js.trim s = "" <-> Js.all_white_space s = true.
Proof.
  unfold Js.trim. rewrite trimStart_all_white_space. split.
  - apply trimEnd_empty.
  - apply trimEnd_all_white_space.
Qed.

(** ** The cluster slice: counting active clusters *)

Section ActiveCount.
Import clusterSlice.
Implicit Types (l : list Cluster.t) (c payload : Cluster.t).

Lemma active_count_cons c l :
  active_count (c :: l) = ((if Cluster.is_active c then 1 else 0) + active_count l)%nat.
Proof. unfold active_count. simpl. destruct (Cluster.is_active c); reflexivity. Qed.

Lemma active_count_push l payload :
  active_count (l ++ [payload]) =
  (active_count l + if Cluster.is_active payload then 1 else 0)%nat.
Proof.
  unfold active_count. rewrite List.filter_app, length_app. simpl.
  destruct (Cluster.is_active payload); reflexivity.
Qed.

Lemma active_count_deactivated l :
  active_count (map (Cluster.set_is_active false) l) = 0%nat.
Proof.
  induction l as [|c l IH]; [reflexivity |].
  simpl map. rewrite active_count_cons, IH. reflexivity.
Qed.

Lemma active_count_zero l :
  active_count l = 0%nat <-> forall c, In c l -> Cluster.is_active c = false.
Proof.
  induction l as [|a l IH]; [split; [intros _ c [] | reflexivity] |].
  rewrite active_count_cons. split.
  - intros H c [<- | Hc].
    + destruct (Cluster.is_active a); [discriminate | reflexivity].
    + apply IH; [| assumption]. destruct (Cluster.is_active a); [discriminate | exact H].
  - intros H. rewrite (H a) by (left; reflexivity). simpl.
    apply IH. intros c Hc. apply H. right. assumption.
Qed.

(** Overwriting one slot of a list without active clusters leaves at most
    the written cluster active. *)
Lemma active_count_insert l i payload :
  active_count l = 0%nat ->
  active_count (<[i := payload]> l) =
  if Cluster.is_active payload && bool_decide (i < length l)%nat then 1%nat else 0%nat.
Proof.
  revert i. induction l as [|a l IH]; intros i H0.
  - simpl. rewrite andb_false_r. reflexivity.
  - rewrite active_count_cons in H0.
    assert (Cluster.is_active a = false) as Ha
      by (destruct (Cluster.is_active a); [discriminate | reflexivity]).
    rewrite Ha in H0. simpl in H0. destruct i as [|i].
    + change (<[0%nat := payload]> (a :: l)) with (payload :: l).
      rewrite active_count_cons, H0.
      rewrite bool_decide_eq_true_2 by (simpl; lia).
      destruct (Cluster.is_active payload); reflexivity.
    + change (<[S i := payload]> (a :: l)) with (a :: <[i := payload]> l).
      rewrite active_count_cons, Ha, (IH i H0).
      rewrite (bool_decide_ext (S i < length (a :: l))%nat (i < length l)%nat)
        by (simpl; lia).
      reflexivity.
Qed.

Lemma active_count_filter (p : Cluster.t -> bool) l :
  (active_count (List.filter p l) <= active_count l)%nat.
Proof.
  induction l as [|a l IH]; [reflexivity |].
  simpl. destruct (p a); rewrite ?active_count_cons; lia.
Qed.

(** After [activateCluster.fulfilled] at most one stored cluster is
    active, whatever the state before and whatever the payload. *)
Lemma activate_at_most_one state payload :
  (active_count (ClusterState.clusters
                   (reducer state (activateCluster_fulfilled payload))) <= 1)%nat.
Proof.
  simpl.
  destruct (Js.findIndex _ _) as [i|]; simpl.
  - rewrite active_count_insert by apply active_count_deactivated.
    destruct (_ && _); lia.
  - rewrite active_count_deactivated. lia.
Qed.

Lemma delete_active_count state id :
  (active_count (ClusterState.clusters (reducer state (deleteCluster_fulfilled id)))
   <= active_count (ClusterState.clusters state))%nat.
Proof. simpl. apply active_count_filter. Qed.

End ActiveCount.

Lemma lifecycle_step_at_most_one state a :
  lifecycle a = true -> creates_inactive a = true ->
  (clusterSlice.active_count (ClusterState.clusters state) <= 1)%nat ->
  (clusterSlice.active_count
     (ClusterState.clusters (clusterSlice.reducer state a)) <= 1)%nat.
Proof.
  intros Hl Hc Hs. destruct a; try discriminate Hl.
  - simpl in *. rewrite active_count_push.
    destruct (Cluster.is_active payload); [discriminate | lia].
  - pose proof (delete_active_count state payload). lia.
  - apply activate_at_most_one.
Qed.

Lemma lifecycle_run_at_most_one actions : forall state,
  Forall (fun a => lifecycle a = true /\ creates_inactive a = true) actions ->
  (clusterSlice.active_count (ClusterState.clusters state) <= 1)%nat ->
  (clusterSlice.active_count
     (ClusterState.clusters (clusterSlice.run state actions)) <= 1)%nat.
Proof.
  induction actions as [|a actions IH]; intros state Hall Hs; [exact Hs |].
  inversion Hall as [|? ? [Hl Hc] Hrest]; subst.
  simpl. apply IH; [assumption |].
  apply lifecycle_step_at_most_one; assumption.
Qed.

(** ** At most one active cluster in the slice *)

(** The bound is not the reducers' own: [createCluster.fulfilled] pushes
    its payload as it is, so two created clusters that arrived with
    [is_active = true] would both be stored active. The slice relies on the
    Registry, which creates clusters inactive. *)
Lemma create_fulfilled_two_active :
  let actions :=
    [ clusterSlice.createCluster_fulfilled (Cluster.set_is_active true Scenario.prod);
      clusterSlice.createCluster_fulfilled (Cluster.set_is_active true Scenario.staging) ] in
  forallb lifecycle actions = true /\
  clusterSlice.active_count
    (ClusterState.clusters (clusterSlice.run clusterSlice.initialState actions)) = 2%nat.
Proof. split; reflexivity. Qed.

(** In the cluster slice, after any sequence of [createCluster],
    [activateCluster] and [deleteCluster] fulfilled actions in which every
    created cluster arrives inactive, at most one entry of [state.clusters]
    has [is_active = true]. *)
Theorem at_most_one_active_cluster (actions : list clusterSlice.action) :
  Forall (fun a => lifecycle a = true /\ creates_inactive a = true) actions ->
  (clusterSlice.active_count
     (ClusterState.clusters (clusterSlice.run clusterSlice.initialState actions)) <= 1)%nat.
Proof.
  intros Hactions.
  apply lifecycle_run_at_most_one; [exact Hactions |].
  unfold clusterSlice.active_count. simpl. lia.
Qed.

Lemma at_most_one_active_cluster_witness :
  Forall (fun a => lifecycle a = true /\ creates_inactive a = true) Scenario.actions_B /\
  (clusterSlice.active_count
     (ClusterState.clusters
        (clusterSlice.run clusterSlice.initialState Scenario.actions_B)) <= 1)%nat.
Proof.
  assert (Forall (fun a => lifecycle a = true /\ creates_inactive a = true)
                 Scenario.actions_B) as H
    by (repeat constructor).
  split; [exact H |].
  exact (at_most_one_active_cluster Scenario.actions_B H).
Defined.

(** ** [activateCluster.fulfilled], and C9 *)

Section Activation.

Lemma findIndex_map {A} (p : A -> bool) (f : A -> A) (l : list A) :
  (forall x, p (f x) = p x) -> Js.findIndex p (map f l) = Js.findIndex p l.
Proof.
  intros Hf. induction l as [|a l IH]; [reflexivity |].
  simpl. rewrite Hf, IH. reflexivity.
Qed.

(** The reducer when the payload's id is stored at index [i]. *)
Lemma activate_fulfilled_found state payload i :
  Js.findIndex (fun c => Js.str_eq (Cluster.id c) (Cluster.id payload))
               (ClusterState.clusters state) = Some i ->
  clusterSlice.reducer state (clusterSlice.activateCluster_fulfilled payload) =
  ClusterState.mk
    (<[i := payload]> (map (Cluster.set_is_active false) (ClusterState.clusters state)))
    (Some payload) (ClusterState.loading state) (ClusterState.error state).
Proof.
  intros Hi. simpl. rewrite findIndex_map by reflexivity. rewrite Hi. reflexivity.
Qed.

(** The reducer when the payload's id is not stored. *)
Lemma activate_fulfilled_not_found state payload :
  Js.findIndex (fun c => Js.str_eq (Cluster.id c) (Cluster.id payload))
               (ClusterState.clusters state) = None ->
  clusterSlice.reducer state (clusterSlice.activateCluster_fulfilled payload) =
  ClusterState.mk
    (map (Cluster.set_is_active false) (ClusterState.clusters state))
    (ClusterState.activeCluster state) (ClusterState.loading state)
    (ClusterState.error state).
Proof.
  intros Hi. simpl. rewrite findIndex_map by reflexivity. rewrite Hi. reflexivity.
Qed.

Lemma activate_fulfilled_flags (l : list Cluster.t) payload i j c :
  (i < length l)%nat ->
  Cluster.is_active payload = true ->
  <[i := payload]> (map (Cluster.set_is_active false) l) !! j = Some c ->
  (Cluster.is_active c = true <-> j = i).
Proof.
  intros Hi Hp Hj. destruct (decide (j = i)) as [-> | Hne].
  - rewrite list_lookup_insert_eq in Hj by (rewrite length_map; exact Hi).
    injection Hj as <-. tauto.
  - rewrite list_lookup_insert_ne in Hj by congruence.
    rewrite list_lookup_fmap in Hj.
    destruct (l !! j); [| discriminate]. injection Hj as <-. simpl.
    split; [discriminate | contradiction].
Qed.

End Activation.

(** When the cluster slice receives [activateCluster.fulfilled] for a
    stored cluster B, carrying B as activated ([is_active = true]), then in
    the one resulting state B's entry is the payload and is active, it is
    [state.activeCluster], and every other entry, the previously active
    one included, is inactive and otherwise as it was; no entry is added or
    removed. *)
Theorem activate_switches_active_cluster
    (state : ClusterState.t) (payload B : Cluster.t) :
  In B (ClusterState.clusters state) ->
  Cluster.id B = Cluster.id payload ->
  Cluster.is_active payload = true ->
  let state' := clusterSlice.reducer state (clusterSlice.activateCluster_fulfilled payload) in
  exists i,
    Js.findIndex (fun c => Js.str_eq (Cluster.id c) (Cluster.id payload))
                 (ClusterState.clusters state) = Some i /\
    ClusterState.clusters state' =
      (<[i := payload]> (map (Cluster.set_is_active false) (ClusterState.clusters state))) /\
    ClusterState.clusters state' !! i = Some payload /\
    ClusterState.activeCluster state' = Some payload /\
    (forall j c, ClusterState.clusters state' !! j = Some c ->
                 (Cluster.is_active c = true <-> j = i)) /\
    (forall a, In a (ClusterState.clusters state') ->
               Cluster.id a <> Cluster.id payload -> Cluster.is_active a = false) /\
    map Cluster.id (ClusterState.clusters state') = map Cluster.id (ClusterState.clusters state) /\
    clusterSlice.active_count (ClusterState.clusters state') = 1%nat.
Proof.
  intros HB Hid Hact state'.
  destruct (findIndex_is_Some
              (fun c => Js.str_eq (Cluster.id c) (Cluster.id payload))
              (ClusterState.clusters state) B HB) as [i Hi].
  { apply String.eqb_eq. exact Hid. }
  exists i. split; [exact Hi |].
  subst state'. rewrite (activate_fulfilled_found state payload i Hi).
  destruct (findIndex_Some _ _ _ Hi) as (y & Hy & Hp & _).
  pose proof (lookup_lt_Some _ _ _ Hy) as Hlt. simpl.
  assert (<[i := payload]> (map (Cluster.set_is_active false) (ClusterState.clusters state))
            !! i = Some payload) as Hat
    by (apply list_lookup_insert_eq; rewrite length_map; exact Hlt).
  assert (forall j c,
            <[i := payload]> (map (Cluster.set_is_active false) (ClusterState.clusters state))
              !! j = Some c -> (Cluster.is_active c = true <-> j = i)) as Hflags
    by (intros j c; apply activate_fulfilled_flags; assumption).
  split; [reflexivity |].
  split; [exact Hat |]. split; [reflexivity |]. split; [exact Hflags |].
  split.
  { intros a Ha Hne. apply list_elem_of_In, list_elem_of_lookup in Ha as [j Hj].
    destruct (Cluster.is_active a) eqn:Ea; [| reflexivity].
    apply (Hflags j a Hj) in Ea. subst j. rewrite Hat in Hj.
    injection Hj as <-. contradiction. }
  split.
  { apply list_eq. intros j. rewrite !list_lookup_fmap.
    destruct (decide (j = i)) as [-> | Hne].
    - rewrite Hat, Hy. simpl. f_equal. symmetry. apply String.eqb_eq. exact Hp.
    - rewrite list_lookup_insert_ne by congruence. rewrite list_lookup_fmap.
      destruct (ClusterState.clusters state !! j); reflexivity. }
  rewrite active_count_insert by apply active_count_deactivated.
  rewrite Hact, length_map. rewrite bool_decide_eq_true_2 by exact Hlt. reflexivity.
Qed.

(** Scenario B: "prod" is active, "staging" is created and activated. *)
Lemma activate_switches_active_cluster_witness :
  exists i,
    Js.findIndex (fun c => Js.str_eq (Cluster.id c) "c-2")
                 (ClusterState.clusters Scenario.state_B) = Some i /\
    ClusterState.clusters
      (clusterSlice.reducer Scenario.state_B
         (clusterSlice.activateCluster_fulfilled
            (Cluster.set_is_active true Scenario.staging))) !! i =
      Some (Cluster.set_is_active true Scenario.staging).
Proof.
  destruct (activate_switches_active_cluster Scenario.state_B
              (Cluster.set_is_active true Scenario.staging) Scenario.staging)
    as (i & Hi & _ & Hat & _).
  - right. left. reflexivity.
  - reflexivity.
  - reflexivity.
  - exists i. split; [exact Hi | exact Hat].
Defined.

(** Scenario B, evaluated: the slice shows "prod" inactive and "staging"
    active. *)
Example scenario_B_activate_staging :
  clusterSlice.reducer Scenario.state_B
    (clusterSlice.activateCluster_fulfilled (Cluster.set_is_active true Scenario.staging)) =
  ClusterState.mk [Scenario.prod; Cluster.set_is_active true Scenario.staging]
                  (Some (Cluster.set_is_active true Scenario.staging)) false None.
Proof. reflexivity. Qed.

(** C9: when [activateCluster.fulfilled] carries a cluster whose id is not
    in [state.clusters], every stored cluster ends with [is_active = false]
    and is otherwise unchanged, none is active, and [state.activeCluster]
    keeps its previous value. *)
Theorem activate_unknown_id_deactivates_all
    (state : ClusterState.t) (payload : Cluster.t) :
  (forall c, In c (ClusterState.clusters state) -> Cluster.id c <> Cluster.id payload) ->
  let state' := clusterSlice.reducer state (clusterSlice.activateCluster_fulfilled payload) in
  ClusterState.clusters state' =
    map (Cluster.set_is_active false) (ClusterState.clusters state) /\
  (forall c, In c (ClusterState.clusters state') -> Cluster.is_active c = false) /\
  clusterSlice.active_count (ClusterState.clusters state') = 0%nat /\
  ClusterState.activeCluster state' = ClusterState.activeCluster state.
Proof.
  intros Habsent state'.
  assert (Js.findIndex (fun c => Js.str_eq (Cluster.id c) (Cluster.id payload))
                       (ClusterState.clusters state) = None) as Hi.
  { apply findIndex_None. intros x Hx. apply String.eqb_neq. apply Habsent. exact Hx. }
  subst state'. rewrite (activate_fulfilled_not_found state payload Hi). simpl.
  split; [reflexivity |].
  split; [apply active_count_zero, active_count_deactivated |].
  split; [apply active_count_deactivated | reflexivity].
Qed.

(** In scenario B an activation of an unknown cluster leaves the slice with
    no active entry while [state.activeCluster] still holds "prod" as it was
    when active. *)
Lemma activate_unknown_id_deactivates_all_witness :
  let unknown := Cluster.mk "c-9" "gone" None "gone-admin" true false None 0 0 []
                   Scenario.alice "2026-01-05T10:00:00Z" "2026-01-05T10:00:00Z" None in
  let state' := clusterSlice.reducer Scenario.state_B
                  (clusterSlice.activateCluster_fulfilled unknown) in
  ClusterState.clusters state' = [Scenario.prod; Scenario.staging] /\
  clusterSlice.active_count (ClusterState.clusters state') = 0%nat /\
  ClusterState.activeCluster state' = Some (Cluster.set_is_active true Scenario.prod).
Proof.
  intros unknown state'.
  destruct (activate_unknown_id_deactivates_all Scenario.state_B unknown)
    as (Hclusters & _ & Hcount & Hactive).
  - intros c [<- | [<- | []]]; discriminate.
  - subst state'. rewrite Hclusters, Hactive.
    split; [reflexivity |]. split; reflexivity.
Defined.

(** ** [deleteCluster.fulfilled] *)

(** [deleteCluster.fulfilled] removes from [state.clusters] the entries
    with the deleted id and keeps every other entry as it was, in order;
    [state.activeCluster] becomes null when it was the deleted cluster and
    is untouched otherwise; and when the deleted cluster was the only
    active one, no stored cluster is active afterwards: none is promoted. *)
Theorem delete_leaves_no_active_cluster (state : ClusterState.t) (id : string) :
  let state' := clusterSlice.reducer state (clusterSlice.deleteCluster_fulfilled id) in
  ClusterState.clusters state' =
    List.filter (fun x => negb (Js.str_eq (Cluster.id x) id)) (ClusterState.clusters state) /\
  (forall x, In x (ClusterState.clusters state') <->
             In x (ClusterState.clusters state) /\ Cluster.id x <> id) /\
  (forall a, ClusterState.activeCluster state = Some a -> Cluster.id a = id ->
             ClusterState.activeCluster state' = None) /\
  (forall a, ClusterState.activeCluster state = Some a -> Cluster.id a <> id ->
             ClusterState.activeCluster state' = Some a) /\
  (ClusterState.activeCluster state = None -> ClusterState.activeCluster state' = None) /\
  ((forall x, In x (ClusterState.clusters state) ->
              Cluster.is_active x = true -> Cluster.id x = id) ->
   clusterSlice.active_count (ClusterState.clusters state') = 0%nat).
Proof.
  intros state'. subst state'. simpl.
  split; [reflexivity |].
  split.
  { intros x. rewrite filter_In, negb_true_iff. unfold Js.str_eq.
    rewrite String.eqb_neq. reflexivity. }
  split.
  { intros a -> Hid. unfold Js.str_eq.
    apply String.eqb_eq in Hid. rewrite Hid. reflexivity. }
  split.
  { intros a -> Hid. unfold Js.str_eq.
    apply String.eqb_neq in Hid. rewrite Hid. reflexivity. }
  split; [intros ->; reflexivity |].
  intros Honly. apply active_count_zero.
  intros c Hc. apply filter_In in Hc as [Hc Hne].
  destruct (Cluster.is_active c) eqn:Hact; [| reflexivity].
  apply Honly in Hact; [| exact Hc].
  apply negb_true_iff in Hne. unfold Js.str_eq in Hne.
  apply String.eqb_neq in Hne. contradiction.
Qed.

(** Scenario B: deleting the active "prod" leaves "staging", inactive, and
    no active cluster. *)
Lemma delete_leaves_no_active_cluster_witness :
  let state' := clusterSlice.reducer Scenario.state_B
                  (clusterSlice.deleteCluster_fulfilled "c-1") in
  ClusterState.clusters state' = [Scenario.staging] /\
  ClusterState.activeCluster state' = None /\
  clusterSlice.active_count (ClusterState.clusters state') = 0%nat.
Proof.
  intros state'.
  destruct (delete_leaves_no_active_cluster Scenario.state_B "c-1")
    as (Hclusters & _ & Hnull & _ & _ & Hzero).
  split; [exact Hclusters |].
  split; [apply (Hnull (Cluster.set_is_active true Scenario.prod)); reflexivity |].
  apply Hzero. intros x [<- | [<- | []]]; [reflexivity | discriminate].
Defined.

(** ** A failed create in the slice *)

(** When the create request fails (the API call of the [createCluster]
    thunk throws, as it does on an error response), the actions the thunk
    dispatches leave [state.clusters] and [state.activeCluster] as they were
    before the request: nothing is stored; the slice ends not loading, with
    the error's message, or "Failed to create cluster", in [state.error]. *)
Theorem create_rejected_persists_nothing
    (state : ClusterState.t) (message : option string) :
  let state' := clusterSlice.run state
                  (clusterSlice.createCluster (clusterSlice.thrown message)) in
  ClusterState.clusters state' = ClusterState.clusters state /\
  ClusterState.activeCluster state' = ClusterState.activeCluster state /\
  ClusterState.loading state' = false /\
  ClusterState.error state' = Some (Js.or_else message "Failed to create cluster") /\
  (exists text, ClusterState.error state' = Some text /\ text <> "").
Proof.
  intros state'. subst state'. simpl. repeat split.
  exists (Js.or_else message "Failed to create cluster"). split; [reflexivity |].
  destruct message as [m|]; simpl; [| discriminate].
  destruct (String.eqb_spec m ""); [discriminate | assumption].
Qed.

(** A create that succeeds stores exactly the returned cluster, last. *)
Lemma create_fulfilled_pushes (state : ClusterState.t) (cluster : Cluster.t) :
  ClusterState.clusters
    (clusterSlice.run state (clusterSlice.createCluster (clusterSlice.resolved cluster))) =
  ClusterState.clusters state ++ [cluster].
Proof. reflexivity. Qed.

(** ** C3: [testConnection.fulfilled] *)

(** C3, as stated, fails in the cluster slice: the result of a failed
    attempt overwrites the cached [is_connected] of the tested cluster. *)
Lemma failed_test_overwrites_is_connected :
  let state := ClusterState.mk [Scenario.prod_connected] None false None in
  let result := ConnectionTestResult.mk false None (Some "connection timed out") in
  let state' := clusterSlice.reducer state
                  (clusterSlice.testConnection_fulfilled "c-1" result) in
  ConnectionTestResult.connected result = false /\
  map Cluster.is_connected (ClusterState.clusters state) = [true] /\
  map Cluster.is_connected (ClusterState.clusters state') = [false].
Proof. repeat split. Qed.

(** C3 (amended): [testConnection.fulfilled] changes at most the first
    stored cluster with the tested id, and of that cluster only
    [is_connected], which takes the attempt's [connected] flag whether the
    attempt succeeded or failed, and [version], which is replaced only when
    the result carries a non-empty version. [last_connected_at], every other
    field, every other cluster and the rest of the state are unchanged. *)
Theorem test_connection_updates_cached_fields
    (state : ClusterState.t) (id : string) (result : ConnectionTestResult.t)
    (j : nat) (c : Cluster.t) :
  ClusterState.clusters state !! j = Some c ->
  let state' := clusterSlice.reducer state (clusterSlice.testConnection_fulfilled id result) in
  let tested :=
    Cluster.mk (Cluster.id c) (Cluster.name c) (Cluster.description c) (Cluster.context c)
      (Cluster.is_active c)
      (ConnectionTestResult.connected result)
      (if Js.truthy (ConnectionTestResult.version result)
       then ConnectionTestResult.version result else Cluster.version c)
      (Cluster.node_count c) (Cluster.pod_count c) (Cluster.tags c) (Cluster.owner_id c)
      (Cluster.created_at c) (Cluster.updated_at c) (Cluster.last_connected_at c) in
  ClusterState.clusters state' !! j =
    Some (if decide (Js.findIndex (fun x => Js.str_eq (Cluster.id x) id)
                                  (ClusterState.clusters state) = Some j)
          then tested else c) /\
  length (ClusterState.clusters state') = length (ClusterState.clusters state) /\
  ClusterState.activeCluster state' = ClusterState.activeCluster state /\
  ClusterState.loading state' = ClusterState.loading state /\
  ClusterState.error state' = ClusterState.error state.
Proof.
  intros Hj state' tested. subst state'. simpl.
  split; [| split; [apply modify_first_length | repeat split]].
  destruct (Js.findIndex (fun x => Js.str_eq (Cluster.id x) id) (ClusterState.clusters state))
    as [i|] eqn:Hi.
  - destruct (findIndex_Some _ _ _ Hi) as (y & Hy & _).
    rewrite (modify_first_findIndex _ _ _ i y Hi Hy).
    destruct (decide (Some i = Some j)) as [[= ->] | Hne].
    + rewrite list_lookup_insert_eq by (eapply lookup_lt_Some; exact Hy).
      rewrite Hj in Hy. injection Hy as <-. f_equal. subst tested.
      unfold Cluster.set_version, Cluster.set_is_connected.
      destruct (Js.truthy _); reflexivity.
    + rewrite list_lookup_insert_ne by congruence. exact Hj.
  - rewrite findIndex_None in Hi. rewrite modify_first_absent by exact Hi.
    rewrite Hj. destruct (decide (None = Some j)); [discriminate | reflexivity].
Qed.

(** A failed test of the connected "prod": [is_connected] becomes false,
    [version] and [last_connected_at] stay. *)
Lemma test_connection_updates_cached_fields_witness :
  let state := ClusterState.mk [Scenario.prod_connected] None false None in
  let result := ConnectionTestResult.mk false None (Some "connection timed out") in
  ClusterState.clusters state !! 0%nat = Some Scenario.prod_connected /\
  ClusterState.clusters
    (clusterSlice.reducer state (clusterSlice.testConnection_fulfilled "c-1" result))
    !! 0%nat =
  Some (Cluster.set_is_connected false Scenario.prod_connected).
Proof.
  intros state result.
  assert (ClusterState.clusters state !! 0%nat = Some Scenario.prod_connected) as H0
    by reflexivity.
  split; [exact H0 |].
  destruct (test_connection_updates_cached_fields state "c-1" result 0%nat
              Scenario.prod_connected H0) as [Hat _].
  rewrite Hat. reflexivity.
Defined.

(** A successful test refreshes [is_connected] and [version], not
    [last_connected_at]. *)
Example successful_test_keeps_last_connected_at :
  let state := ClusterState.mk [Scenario.prod_connected] None false None in
  let result := ConnectionTestResult.mk true (Some "v1.30.1") None in
  ClusterState.clusters
    (clusterSlice.reducer state (clusterSlice.testConnection_fulfilled "c-1" result)) =
  [Cluster.set_version (Some "v1.30.1") Scenario.prod_connected].
Proof. reflexivity. Qed.

(** ** C7: the Add Cluster modal rejects empty input *)

(** The form passes validation exactly when the three trimmed fields are
    not empty, and then dispatches [createCluster] with the trimmed
    values. *)
Lemma handleSubmit_create_accepts (f : AddClusterModal.form) :
  Js.trim (AddClusterModal.name f) <> "" ->
  Js.trim (AddClusterModal.kubeconfig f) <> "" ->
  Js.trim (AddClusterModal.context f) <> "" ->
  exists data,
    AddClusterModal.handleSubmit None f = AddClusterModal.dispatch_createCluster data /\
    ClusterCreate.name data = Js.trim (AddClusterModal.name f) /\
    ClusterCreate.kubeconfig data = Js.trim (AddClusterModal.kubeconfig f) /\
    ClusterCreate.context data = Js.trim (AddClusterModal.context f).
Proof.
  intros Hn Hk Hc. unfold AddClusterModal.handleSubmit.
  apply String.eqb_neq in Hn, Hk, Hc. rewrite Hn, Hk, Hc.
  eexists. split; [reflexivity |]. repeat split.
Qed.

(** The validation of [handleSubmit] when no cluster is edited: the first
    empty field, in the order name, kubeconfig, context, is reported. *)
Lemma handleSubmit_create_rejects (f : AddClusterModal.form) :
  Js.trim (AddClusterModal.name f) = "" \/
  Js.trim (AddClusterModal.kubeconfig f) = "" \/
  Js.trim (AddClusterModal.context f) = "" ->
  AddClusterModal.handleSubmit None f =
    AddClusterModal.set_error
      (if String.eqb (Js.trim (AddClusterModal.name f)) ""
       then "Cluster name is required"
       else if String.eqb (Js.trim (AddClusterModal.kubeconfig f)) ""
            then "Kubeconfig is required"
            else "Context is required").
Proof.
  intros Hempty. unfold AddClusterModal.handleSubmit.
  destruct (String.eqb_spec (Js.trim (AddClusterModal.name f)) "") as [Hn | Hn];
    [reflexivity |].
  destruct (String.eqb_spec (Js.trim (AddClusterModal.kubeconfig f)) "") as [Hk | Hk];
    [reflexivity |].
  destruct (String.eqb_spec (Js.trim (AddClusterModal.context f)) "") as [Hc | Hc];
    [reflexivity |].
  destruct Hempty as [H | [H | H]]; contradiction.
Qed.

(** C7, as stated, fails for the onboarding form, whose [handleSubmit]
    checks nothing before it dispatches [createCluster]: in auto-detect mode
    the request carries the name of a detected context and no kubeconfig or
    context at all, and in manual mode a kubeconfig of blanks is sent as it
    is (blanks are not JSON, so the context falls back to "default"). *)
Lemma onboarding_form_submits_without_kubeconfig :
  let detected := SimplifiedClusterForm.mk_form true "microk8s" "" "" in
  let blank := SimplifiedClusterForm.mk_form false "" "  " "dev" in
  SimplifiedClusterForm.handleSubmit (fun _ => None) detected =
    SimplifiedClusterForm.mk_payload "microk8s" "Imported from microk8s"
      (Some "microk8s") None None /\
  Js.trim (SimplifiedClusterForm.manualConfig blank) = "" /\
  SimplifiedClusterForm.handleSubmit (fun _ => None) blank =
    SimplifiedClusterForm.mk_payload "dev" "Manually added cluster" None
      (Some "  ") (Some "default").
Proof. repeat split. Qed.

(** C7 (amended): in the Add Cluster modal (no cluster being edited), when the name,
    the kubeconfig or the context is empty after trimming white space,
    [handleSubmit] sets a validation error (for the first empty field in
    that order) and returns: it dispatches no [createCluster], so no create
    request is issued. *)
Theorem create_rejects_empty_inputs (f : AddClusterModal.form) :
  Js.trim (AddClusterModal.name f) = "" \/
  Js.trim (AddClusterModal.kubeconfig f) = "" \/
  Js.trim (AddClusterModal.context f) = "" ->
  AddClusterModal.handleSubmit None f =
    AddClusterModal.set_error
      (if String.eqb (Js.trim (AddClusterModal.name f)) ""
       then "Cluster name is required"
       else if String.eqb (Js.trim (AddClusterModal.kubeconfig f)) ""
            then "Kubeconfig is required"
            else "Context is required") /\
  (forall data,
     AddClusterModal.handleSubmit None f <> AddClusterModal.dispatch_createCluster data).
Proof.
  intros Hempty. pose proof (handleSubmit_create_rejects f Hempty) as Hrej.
  split; [exact Hrej |].
  intros data. rewrite Hrej. discriminate.
Qed.

(** A kubeconfig of blanks and line breaks only is rejected. *)
Lemma create_rejects_empty_inputs_witness :
  let f := AddClusterModal.mk_form "prod" "" (String " " (String "010" " ")) "prod-admin" "" in
  AddClusterModal.handleSubmit None f = AddClusterModal.set_error "Kubeconfig is required".
Proof.
  intros f.
  destruct (create_rejects_empty_inputs f) as [Hrej _].
  - right. left. reflexivity.
  - exact Hrej.
Defined.

(** A field is empty after trimming exactly when it holds white space
    only, so a form with such a name, kubeconfig or context is rejected. *)
Lemma handleSubmit_rejects_white_space (f : AddClusterModal.form) :
  Js.all_white_space (AddClusterModal.name f)
  || Js.all_white_space (AddClusterModal.kubeconfig f)
  || Js.all_white_space (AddClusterModal.context f) = true ->
  exists message, AddClusterModal.handleSubmit None f = AddClusterModal.set_error message.
Proof.
  intros H. eexists. apply handleSubmit_create_rejects.
  rewrite !trim_empty_iff.
  apply orb_true_iff in H as [H | H]; [apply orb_true_iff in H as [H | H] |]; auto.
Qed.

(** When a cluster is edited the kubeconfig may stay empty: the form then
    dispatches [updateCluster] without one. *)
Example handleSubmit_edit_without_kubeconfig :
  AddClusterModal.handleSubmit (Some Scenario.prod)
    (AddClusterModal.mk_form " prod-eu " "" "" "prod-admin" "eu, , blue") =
  AddClusterModal.dispatch_updateCluster "c-1" "prod-eu" None "prod-admin"
    (Some ["eu"; "blue"]) None.
Proof. reflexivity. Qed.

(** ** C10: the two tokens are written as a pair *)

Lemma token_keys_differ : authSlice.ACCESS_KEY <> authSlice.REFRESH_KEY.
Proof. discriminate. Qed.

Lemma store_tokens_lookup access refresh (ls : gmap string string) :
  authSlice.store_tokens access refresh ls !! authSlice.ACCESS_KEY = Some access /\
  authSlice.store_tokens access refresh ls !! authSlice.REFRESH_KEY = Some refresh.
Proof.
  unfold authSlice.store_tokens. split.
  - rewrite lookup_insert_ne by (symmetry; exact token_keys_differ).
    apply lookup_insert_eq.
  - apply lookup_insert_eq.
Qed.

Lemma remove_tokens_lookup (ls : gmap string string) :
  authSlice.remove_tokens ls !! authSlice.ACCESS_KEY = None /\
  authSlice.remove_tokens ls !! authSlice.REFRESH_KEY = None.
Proof.
  unfold authSlice.remove_tokens. split.
  - rewrite lookup_delete_ne by (symmetry; exact token_keys_differ).
    apply lookup_delete_eq.
  - apply lookup_delete_eq.
Qed.

(** C10: each of [setTokens], [login.fulfilled], [register.fulfilled],
    [refreshAccessToken.fulfilled], [fetchCurrentUser.rejected],
    [refreshAccessToken.rejected] and [logout.fulfilled] leaves
    [state.accessToken] and [state.refreshToken] both assigned or both
    null, and [localStorage] holding the same two values or neither; every
    other action leaves the two fields and [localStorage] as they were. *)
Theorem tokens_written_as_a_pair
    (state : AuthState.t) (ls : gmap string string) (a : authSlice.action) :
  let state' := fst (authSlice.reducer (state, ls) a) in
  let ls' := snd (authSlice.reducer (state, ls) a) in
  if authSlice.writes_tokens a then
    (exists access refresh,
        AuthState.accessToken state' = Some access /\
        AuthState.refreshToken state' = Some refresh /\
        ls' !! authSlice.ACCESS_KEY = Some access /\
        ls' !! authSlice.REFRESH_KEY = Some refresh) \/
    (AuthState.accessToken state' = None /\
     AuthState.refreshToken state' = None /\
     ls' !! authSlice.ACCESS_KEY = None /\
     ls' !! authSlice.REFRESH_KEY = None)
  else
    AuthState.accessToken state' = AuthState.accessToken state /\
    AuthState.refreshToken state' = AuthState.refreshToken state /\
    ls' = ls.
Proof.
  destruct a; simpl; try (repeat split; reflexivity);
    first [ left; do 2 eexists; split; [reflexivity |]; split; [reflexivity |];
            apply store_tokens_lookup
          | right; split; [reflexivity |]; split; [reflexivity |];
            apply remove_tokens_lookup ].
Qed.

(** So no action leaves exactly one token where both or neither were. *)
Lemma paired_preserved (state : AuthState.t) (ls : gmap string string) (a : authSlice.action) :
  authSlice.paired (AuthState.accessToken state) (AuthState.refreshToken state) ->
  authSlice.paired (AuthState.accessToken (fst (authSlice.reducer (state, ls) a)))
                   (AuthState.refreshToken (fst (authSlice.reducer (state, ls) a))).
Proof.
  intros Hp. unfold authSlice.paired.
  destruct a; simpl; try exact Hp;
    first [ left; do 2 eexists; split; reflexivity | right; split; reflexivity ].
Qed.

(** The slice itself can start unpaired: [initialState] reads the two keys
    of [localStorage] independently. *)
Example initialState_unpaired :
  let ls : gmap string string := {[ authSlice.ACCESS_KEY := "eyJhbGciOi" ]} in
  AuthState.accessToken (authSlice.initialState ls) = Some "eyJhbGciOi" /\
  AuthState.refreshToken (authSlice.initialState ls) = None.
Proof. split; reflexivity. Qed.

(** ** The Token Service as specified, and the refresh thunk *)

Section TokenFacts.
Import TokenService.
Implicit Types (t : gmap string refresh_record) (r : refresh_record).

(** What a successful [Redeem] found and what it wrote. *)
Lemma Redeem_Ok_inv token e t p t' :
  Redeem token e t = (Core.Ok p, t') ->
  exists r,
    t !! token = Some r /\ status r = issued /\ (now e < expires_at r)%Z /\
    t !! new_refresh e = None /\
    p = new_pair (user_id r) e /\
    t' = <[new_refresh e :=
            mk_record (user_id r) (now e) (now e + REFRESH_TTL) issued
                      (new_access e) (family r) (Some token)]>
           (<[token := set_status rotated r]> t).
Proof.
  unfold Redeem. destruct (t !! token) as [r|] eqn:Hr; [| discriminate].
  destruct (status r) eqn:Hs; try discriminate.
  destruct (expires_at r <=? now e)%Z eqn:Hexp; [discriminate |].
  destruct (t !! new_refresh e) eqn:Hnew; [discriminate |].
  intros [= <- <-]. exists r. apply Z.leb_gt in Hexp. repeat split; assumption.
Qed.

Lemma Redeem_spent token e t r :
  t !! token = Some r -> status r <> issued ->
  Redeem token e t =
  (Core.Err (match status r with revoked => Core.Revoked | _ => Core.AlreadyUsed end),
   revoke_family (family r) t).
Proof.
  intros Hr Hs. unfold Redeem. rewrite Hr.
  destruct (status r); [contradiction | reflexivity ..].
Qed.

(** After the revocation no record of the family can be redeemed. *)
Lemma revoke_family_spent fam t token r :
  revoke_family fam t !! token = Some r -> family r = fam -> status r <> issued.
Proof.
  unfold revoke_family. rewrite lookup_fmap.
  destruct (t !! token) as [r0|]; [| discriminate].
  simpl. intros [= <-].
  destruct (String.eqb_spec (family r0) fam) as [Heq | Hne].
  - destruct (status r0) eqn:Hs; simpl; rewrite ?Hs; discriminate.
  - intros Hfam. contradiction.
Qed.

Lemma revoke_family_keeps_spent fam t token :
  spent token t -> spent token (revoke_family fam t).
Proof.
  intros (r & Hr & Hs). unfold spent, revoke_family. rewrite lookup_fmap, Hr. simpl.
  eexists. split; [reflexivity |].
  destruct (String.eqb (family r) fam); [| exact Hs].
  destruct (status r) eqn:E; simpl; rewrite ?E; congruence.
Qed.

(** The revocation changes the status of issued records only. *)
Lemma revoke_family_lookup fam t token r :
  t !! token = Some r ->
  exists r', revoke_family fam t !! token = Some r' /\
             family r' = family r /\ user_id r' = user_id r /\
             (status r <> issued -> r' = r) /\
             (status r = issued -> family r = fam -> status r' = revoked).
Proof.
  intros Hr. unfold revoke_family. rewrite lookup_fmap, Hr. simpl.
  eexists. split; [reflexivity |].
  destruct (String.eqb_spec (family r) fam) as [Heq | Hne].
  - destruct (status r) eqn:E; simpl; repeat split; congruence.
  - repeat split; congruence.
Qed.

(** No call makes a spent token redeemable again. *)
Lemma step_keeps_spent token t c : spent token t -> spent token (step t c).
Proof.
  intros Hsp. pose proof Hsp as (r & Hr & Hs).
  destruct c as [userId e | token' e | token']; simpl.
  - unfold IssuePair. destruct (t !! new_refresh e) eqn:Hnew; [exact Hsp |].
    simpl. exists r. split; [| exact Hs].
    rewrite lookup_insert_ne; [exact Hr | congruence].
  - unfold Redeem. destruct (t !! token') as [r'|] eqn:Hr'; [| exact Hsp].
    destruct (status r') eqn:Hs'; simpl;
      try (apply revoke_family_keeps_spent; exact Hsp).
    destruct (expires_at r' <=? now e)%Z; [exact Hsp |].
    destruct (t !! new_refresh e) eqn:Hnew; [exact Hsp |].
    simpl. unfold spent. rewrite lookup_insert_ne by congruence.
    destruct (decide (token' = token)) as [-> | Hne].
    + rewrite lookup_insert_eq. eexists. split; [reflexivity | discriminate].
    + rewrite lookup_insert_ne by exact Hne. exists r. auto.
  - unfold Revoke. destruct (t !! token') as [r'|] eqn:Hr'; [| exact Hsp].
    destruct (decide (token' = token)) as [-> | Hne].
    + destruct (status r'); try exact Hsp; unfold spent;
        (rewrite lookup_insert_eq; eexists; split; [reflexivity | discriminate]).
    + destruct (status r'); try exact Hsp; unfold spent;
        (exists r; rewrite lookup_insert_ne by exact Hne; auto).
Qed.

Lemma run_keeps_spent token calls : forall t,
  spent token t -> spent token (run t calls).
Proof.
  induction calls as [|c calls IH]; intros t Hsp; [exact Hsp |].
  simpl. apply IH. apply step_keeps_spent. exact Hsp.
Qed.

Lemma Redeem_spent_not_Ok token e t :
  spent token t -> is_Ok (fst (Redeem token e t)) = false.
Proof.
  intros (r & Hr & Hs). rewrite (Redeem_spent _ _ _ _ Hr Hs). reflexivity.
Qed.

End TokenFacts.

Section RefreshThunk.
Import authSlice.

(** The thunk is rejected unless a refresh token is stored and the server
    answers it with an OK response. *)
Lemma refreshAccessToken_rejected_iff state server :
  refreshAccessToken state server = refreshAccessToken_rejected <->
  Js.truthy (AuthState.refreshToken state) = false \/
  exists rt, AuthState.refreshToken state = Some rt /\
             forall body, server rt <> response_ok body.
Proof.
  unfold refreshAccessToken.
  destruct (AuthState.refreshToken state) as [rt|]; simpl.
  - destruct (negb (String.eqb rt "")); [| tauto].
    destruct (server rt) eqn:Hs; split; try discriminate; try reflexivity.
    + intros [Hf | (rt' & [= <-] & Hno)]; [discriminate |].
      exfalso. apply (Hno body). exact Hs.
    + intros _. right. exists rt. split; [reflexivity |]. rewrite Hs. discriminate.
    + intros _. right. exists rt. split; [reflexivity |]. rewrite Hs. discriminate.
  - tauto.
Qed.

(** [refreshAccessToken.rejected] signs the user out: no tokens and no user
    in the state, no tokens in [localStorage]. *)
Lemma refresh_rejected_signs_out state (ls : gmap string string) :
  let st' := reducer (state, ls) refreshAccessToken_rejected in
  AuthState.user (fst st') = None /\
  AuthState.accessToken (fst st') = None /\
  AuthState.refreshToken (fst st') = None /\
  snd st' !! ACCESS_KEY = None /\
  snd st' !! REFRESH_KEY = None.
Proof.
  simpl. repeat split; apply remove_tokens_lookup.
Qed.

(** Signed out, a refresh is rejected without a request, also after a
    reload of the page. *)
Lemma signed_out_cannot_refresh state (ls : gmap string string) server :
  AuthState.refreshToken state = None ->
  ls !! REFRESH_KEY = None ->
  refreshAccessToken state server = refreshAccessToken_rejected /\
  refreshAccessToken (initialState ls) server = refreshAccessToken_rejected.
Proof.
  intros Hs Hls. unfold refreshAccessToken, initialState. simpl.
  rewrite Hs, Hls. split; reflexivity.
Qed.

End RefreshThunk.

(** In the Token Service as modelled above, a refresh token that was
    redeemed is never redeemed again. The redemption that follows a successful one returns
    [AlreadyUsed] and revokes the family, the pair just issued included, and
    after any further calls the token still does not yield a pair. Every
    redemption of a used or revoked token is such a replay: it returns
    [AlreadyUsed] or [Revoked] and leaves no redeemable record in the
    family. On the client, a refresh the server does not answer with an OK
    response is rejected and [refreshAccessToken.rejected] signs the user
    out: tokens and user are cleared in the state and in [localStorage], and
    a further refresh is rejected without a request until the user signs in
    again. *)
Theorem refresh_token_redeemed_at_most_once
    (t t1 : gmap string TokenService.refresh_record) (token : string)
    (e : TokenService.env) (p : TokenService.pair)
    (state : AuthState.t) (ls : gmap string string)
    (server : string -> authSlice.refresh_response) :
  TokenService.Redeem token e t = (Core.Ok p, t1) ->
  (exists r1,
      t1 !! token = Some r1 /\
      forall e2,
        TokenService.Redeem token e2 t1 =
          (Core.Err Core.AlreadyUsed,
           TokenService.revoke_family (TokenService.family r1) t1) /\
        forall e3,
          fst (TokenService.Redeem (TokenService.refreshToken p) e3
                 (TokenService.revoke_family (TokenService.family r1) t1)) =
          Core.Err Core.Revoked) /\
  (forall calls e',
      TokenService.is_Ok
        (fst (TokenService.Redeem token e' (TokenService.run t1 calls))) = false) /\
  (forall (t0 : gmap string TokenService.refresh_record) token0 r0 e0,
      t0 !! token0 = Some r0 -> TokenService.status r0 <> TokenService.issued ->
      exists err,
        TokenService.Redeem token0 e0 t0 =
          (Core.Err err, TokenService.revoke_family (TokenService.family r0) t0) /\
        (err = Core.AlreadyUsed \/ err = Core.Revoked) /\
        forall token' r',
          TokenService.revoke_family (TokenService.family r0) t0 !! token' = Some r' ->
          TokenService.family r' = TokenService.family r0 ->
          TokenService.status r' <> TokenService.issued) /\
  ((Js.truthy (AuthState.refreshToken state) = false \/
    exists rt, AuthState.refreshToken state = Some rt /\
               forall body, server rt <> authSlice.response_ok body) ->
   let st' := authSlice.reducer (state, ls) (authSlice.refreshAccessToken state server) in
   AuthState.user (fst st') = None /\
   AuthState.accessToken (fst st') = None /\
   AuthState.refreshToken (fst st') = None /\
   snd st' !! authSlice.ACCESS_KEY = None /\
   snd st' !! authSlice.REFRESH_KEY = None /\
   forall server',
     authSlice.refreshAccessToken (fst st') server' = authSlice.refreshAccessToken_rejected /\
     authSlice.refreshAccessToken (authSlice.initialState (snd st')) server' =
       authSlice.refreshAccessToken_rejected).
Proof.
  intros HR.
  destruct (Redeem_Ok_inv _ _ _ _ _ HR) as (r & Hr & Hs & Hexp & Hnew & -> & ->).
  assert (TokenService.new_refresh e <> token) as Hne by congruence.
  set (fresh := TokenService.mk_record (TokenService.user_id r) (TokenService.now e)
                  (TokenService.now e + TokenService.REFRESH_TTL) TokenService.issued
                  (TokenService.new_access e) (TokenService.family r) (Some token)).
  set (t1 := <[TokenService.new_refresh e := fresh]>
               (<[token := TokenService.set_status TokenService.rotated r]> t)).
  assert (t1 !! token = Some (TokenService.set_status TokenService.rotated r)) as Ht1
    by (subst t1; rewrite lookup_insert_ne by exact Hne; apply lookup_insert_eq).
  assert (t1 !! TokenService.new_refresh e = Some fresh) as Hfresh
    by (subst t1; apply lookup_insert_eq).
  split.
  { exists (TokenService.set_status TokenService.rotated r).
    split; [exact Ht1 |].
    intros e2. split.
    - rewrite (Redeem_spent token e2 t1 _ Ht1) by discriminate. reflexivity.
    - intros e3. simpl.
      destruct (revoke_family_lookup (TokenService.family r) t1 _ fresh Hfresh)
        as (r' & Hr' & _ & _ & _ & Hrev).
      specialize (Hrev eq_refl eq_refl).
      rewrite (Redeem_spent _ e3 _ r' Hr') by (rewrite Hrev; discriminate).
      rewrite Hrev. reflexivity. }
  split.
  { intros calls e'. apply Redeem_spent_not_Ok. apply run_keeps_spent.
    eexists. split; [exact Ht1 | discriminate]. }
  split.
  { intros t0 token0 r0 e0 Hr0 Hs0. eexists.
    split; [apply Redeem_spent; assumption |].
    split; [destruct (TokenService.status r0); auto |].
    intros token' r'. apply revoke_family_spent. }
  intros Hrej st'.
  apply refreshAccessToken_rejected_iff in Hrej. subst st'. rewrite Hrej.
  destruct (refresh_rejected_signs_out state ls) as (Hu & Ha & Hrt & Hla & Hlr).
  repeat (split; [assumption |]).
  intros server'. apply signed_out_cannot_refresh; assumption.
Qed.

(** Scenario C: a login, a refresh, and the replay of the first refresh
    token; the client that replays is signed out. *)
Lemma refresh_token_redeemed_at_most_once_witness :
  TokenService.Redeem "rt-1" Scenario.refresh_env Scenario.table_login =
    (Core.Ok (TokenService.new_pair Scenario.alice Scenario.refresh_env),
     Scenario.table_rotated) /\
  fst (TokenService.Redeem "rt-1" Scenario.replay_env Scenario.table_rotated) =
    Core.Err Core.AlreadyUsed /\
  fst (TokenService.Redeem "rt-2" Scenario.replay_env
         (snd (TokenService.Redeem "rt-1" Scenario.replay_env Scenario.table_rotated))) =
    Core.Err Core.Revoked /\
  AuthState.refreshToken
    (fst (authSlice.reducer (Scenario.auth_C, Scenario.storage_C)
            (authSlice.refreshAccessToken Scenario.auth_C
               (fun _ => authSlice.response_not_ok)))) = None.
Proof.
  assert (TokenService.Redeem "rt-1" Scenario.refresh_env Scenario.table_login =
          (Core.Ok (TokenService.new_pair Scenario.alice Scenario.refresh_env),
           Scenario.table_rotated)) as HR by (vm_compute; reflexivity).
  destruct (refresh_token_redeemed_at_most_once _ _ _ _ _
              Scenario.auth_C Scenario.storage_C (fun _ => authSlice.response_not_ok) HR)
    as ((r1 & Hr1 & Hsecond) & _ & _ & Hclient).
  split; [exact HR |].
  destruct (Hsecond Scenario.replay_env) as [H2 H3].
  split; [rewrite H2; reflexivity |].
  split; [rewrite H2; exact (H3 Scenario.replay_env) |].
  apply Hclient. right. exists "rt-1". split; [reflexivity | discriminate].
Defined.

(** Scenario C, evaluated. *)
Example scenario_C_statuses :
  TokenService.status <$> Scenario.table_rotated =
    {[ "rt-1" := TokenService.rotated; "rt-2" := TokenService.issued ]} /\
  TokenService.status <$>
    snd (TokenService.Redeem "rt-1" Scenario.replay_env Scenario.table_rotated) =
    {[ "rt-1" := TokenService.rotated; "rt-2" := TokenService.revoked ]}.
Proof. split; vm_compute; reflexivity. Qed.

(** ** Further properties of the slices and the modal *)

(** X1: after [activateCluster.fulfilled] at most one stored cluster is
    active, whatever the state before and whatever the payload. *)
Theorem activate_fulfilled_bounds_active
    (state : ClusterState.t) (payload : Cluster.t) :
  (clusterSlice.active_count
     (ClusterState.clusters
        (clusterSlice.reducer state (clusterSlice.activateCluster_fulfilled payload))) <= 1)%nat.
Proof. apply activate_at_most_one. Qed.

(** X2: [fetchClusters.fulfilled] replaces [state.clusters] by the fetched
    list; [state.activeCluster] becomes the first active cluster of the
    list, and keeps its previous value when the list has none. *)
Theorem fetch_fulfilled_replaces_clusters
    (state : ClusterState.t) (payload : list Cluster.t) :
  let state' := clusterSlice.reducer state (clusterSlice.fetchClusters_fulfilled payload) in
  ClusterState.clusters state' = payload /\
  ClusterState.loading state' = false /\
  match Js.findIndex Cluster.is_active payload with
  | Some i => ClusterState.activeCluster state' = payload !! i
  | None => ClusterState.activeCluster state' = ClusterState.activeCluster state
  end.
Proof.
  simpl. split; [reflexivity |]. split; [reflexivity |].
  induction payload as [|c payload IH]; simpl; [reflexivity |].
  destruct (Cluster.is_active c); [reflexivity |].
  destruct (Js.findIndex Cluster.is_active payload); simpl in *; exact IH.
Qed.

(** X3: [updateCluster.fulfilled] for a cluster whose id is not stored
    leaves the state as it was. *)
Theorem update_unknown_id_is_ignored (state : ClusterState.t) (payload : Cluster.t) :
  (forall c, In c (ClusterState.clusters state) -> Cluster.id c <> Cluster.id payload) ->
  clusterSlice.reducer state (clusterSlice.updateCluster_fulfilled payload) = state.
Proof.
  intros Habsent. simpl.
  assert (Js.findIndex (fun c => Js.str_eq (Cluster.id c) (Cluster.id payload))
                       (ClusterState.clusters state) = None) as ->; [| reflexivity].
  apply findIndex_None. intros x Hx. apply String.eqb_neq. apply Habsent. exact Hx.
Qed.

Lemma update_unknown_id_is_ignored_witness :
  clusterSlice.reducer Scenario.state_B
    (clusterSlice.updateCluster_fulfilled Scenario.prod_connected) <> Scenario.state_B /\
  clusterSlice.reducer (ClusterState.mk [Scenario.staging] None false None)
    (clusterSlice.updateCluster_fulfilled Scenario.prod_connected) =
  ClusterState.mk [Scenario.staging] None false None.
Proof.
  split; [discriminate |].
  apply update_unknown_id_is_ignored.
  intros c [<- | []]. discriminate.
Defined.

(** In the Add Cluster modal, when name, kubeconfig and context are not
    empty after trimming, [handleSubmit] dispatches [createCluster] with the
    trimmed values. *)
Theorem add_cluster_modal_submits_trimmed (f : AddClusterModal.form) :
  Js.trim (AddClusterModal.name f) <> "" ->
  Js.trim (AddClusterModal.kubeconfig f) <> "" ->
  Js.trim (AddClusterModal.context f) <> "" ->
  AddClusterModal.handleSubmit None f =
  AddClusterModal.dispatch_createCluster
    (ClusterCreate.mk (Js.trim (AddClusterModal.name f))
       (Js.trim (AddClusterModal.kubeconfig f))
       (Js.trim (AddClusterModal.context f))
       (AddClusterModal.trimmed_or_undefined (AddClusterModal.description f))
       (AddClusterModal.nonempty_or_undefined
          (AddClusterModal.tagArray (AddClusterModal.tags f)))).
Proof.
  intros Hn Hk Hc. unfold AddClusterModal.handleSubmit.
  apply String.eqb_neq in Hn, Hk, Hc. rewrite Hn, Hk, Hc. reflexivity.
Qed.

Lemma add_cluster_modal_submits_trimmed_witness :
  AddClusterModal.handleSubmit None
    (AddClusterModal.mk_form " staging " "pre-production " "apiVersion: v1"
       "staging-admin" "eu,  blue ,") =
  AddClusterModal.dispatch_createCluster
    (ClusterCreate.mk "staging" "apiVersion: v1" "staging-admin"
       (Some "pre-production") (Some ["eu"; "blue"])).
Proof.
  rewrite add_cluster_modal_submits_trimmed by discriminate. reflexivity.
Defined.

(** X5: no action of the auth slice leaves exactly one of the two tokens
    present when both or neither were present before. *)
Theorem auth_tokens_stay_paired
    (state : AuthState.t) (ls : gmap string string) (a : authSlice.action) :
  authSlice.paired (AuthState.accessToken state) (AuthState.refreshToken state) ->
  authSlice.paired (AuthState.accessToken (fst (authSlice.reducer (state, ls) a)))
                   (AuthState.refreshToken (fst (authSlice.reducer (state, ls) a))).
Proof. apply paired_preserved. Qed.

Lemma auth_tokens_stay_paired_witness :
  authSlice.paired
    (AuthState.accessToken
       (fst (authSlice.reducer (Scenario.auth_C, Scenario.storage_C) authSlice.clearError)))
    (AuthState.refreshToken
       (fst (authSlice.reducer (Scenario.auth_C, Scenario.storage_C) authSlice.clearError))).
Proof.
  apply auth_tokens_stay_paired.
  left. exists "access-1", "rt-1". split; reflexivity.
Defined.

(** ** The Registry as specified

    The slice mirrors the Cluster Registry. The same properties hold of the
    Registry's operations as the specification describes them, and the
    clusters those operations return meet the conditions under which the
    slice was shown to keep them. *)

Section RegistryFacts.
Import Registry.
Implicit Types (rows : list Cluster.t) (c : Cluster.t) (st : state).

Lemma has_id_true id c : has_id id c = true <-> Cluster.id c = id.
Proof. apply String.eqb_eq. Qed.

Lemma owned_by_true ownerId c : owned_by ownerId c = true <-> Cluster.owner_id c = ownerId.
Proof. apply String.eqb_eq. Qed.

Lemma SetActive_ids ownerId id rows :
  map Cluster.id (SetActive ownerId id rows) = map Cluster.id rows.
Proof.
  unfold SetActive. rewrite List.map_map. apply List.map_ext.
  intros c. destruct (owned_by ownerId c); reflexivity.
Qed.

(** The rows of another owner are not touched. *)
Lemma SetActive_other_owner ownerId id other rows :
  other <> ownerId ->
  List.filter (owned_by other) (SetActive ownerId id rows) =
  List.filter (owned_by other) rows.
Proof.
  intros Hne. induction rows as [|c rows IH]; [reflexivity |].
  simpl. destruct (owned_by ownerId c) eqn:Ho.
  - apply owned_by_true in Ho.
    assert (owned_by other c = false) as Hc.
    { apply not_true_is_false. rewrite owned_by_true. congruence. }
    unfold owned_by in *. simpl. rewrite Hc. exact IH.
  - destruct (owned_by other c); [f_equal |]; exact IH.
Qed.

(** The owner's rows after [SetActive]: the row with the given id is active,
    every other one is not. *)
Lemma SetActive_owner ownerId id rows :
  List.filter (owned_by ownerId) (SetActive ownerId id rows) =
  map (fun c => Cluster.set_is_active (has_id id c) c)
      (List.filter (owned_by ownerId) rows).
Proof.
  induction rows as [|c rows IH]; [reflexivity |].
  simpl. destruct (owned_by ownerId c) eqn:Ho.
  - unfold owned_by in *. simpl. rewrite Ho. simpl. f_equal. exact IH.
  - rewrite Ho. exact IH.
Qed.

Lemma NoDup_ids_filter (p : Cluster.t -> bool) rows :
  NoDup (map Cluster.id rows) -> NoDup (map Cluster.id (List.filter p rows)).
Proof.
  induction rows as [|c rows IH]; simpl; intros Hnd; [constructor |].
  apply NoDup_cons in Hnd as [Hnotin Hrest].
  destruct (p c); simpl; [| auto].
  apply NoDup_cons. split; [| auto].
  intros Hin. apply Hnotin.
  apply list_elem_of_In in Hin. apply list_elem_of_In.
  apply in_map_iff in Hin as (x & Hx & Hin). apply in_map_iff.
  exists x. split; [assumption |]. apply filter_In in Hin. tauto.
Qed.

(** With distinct ids, marking the rows by id marks at most one. *)
Lemma marked_at_most_one id rows :
  NoDup (map Cluster.id rows) ->
  (length (List.filter Cluster.is_active
             (map (fun c => Cluster.set_is_active (has_id id c) c) rows)) <= 1)%nat.
Proof.
  induction rows as [|c rows IH]; simpl; intros Hnd; [lia |].
  apply NoDup_cons in Hnd as [Hnotin Hrest].
  destruct (has_id id c) eqn:Hid; simpl; [| auto].
  apply has_id_true in Hid.
  assert (List.filter Cluster.is_active
            (map (fun c => Cluster.set_is_active (has_id id c) c) rows) = []) as ->;
    [| simpl; lia].
  clear IH. induction rows as [|x rows IH]; [reflexivity |].
  simpl in *. apply NoDup_cons in Hrest as [_ Hrest].
  destruct (has_id id x) eqn:Hx.
  - exfalso. apply Hnotin. apply has_id_true in Hx.
    rewrite Hx, Hid. left.
  - simpl. apply IH; [| exact Hrest].
    intros Hin. apply Hnotin. right. exact Hin.
Qed.

Lemma Load_Some ownerId id st c :
  Load ownerId id st = Some c ->
  In c (records st) /\ Cluster.id c = id /\ Cluster.owner_id c = ownerId.
Proof.
  unfold Load. intros H. apply find_some in H as [Hin Hp].
  apply andb_true_iff in Hp as [Hi Ho].
  apply has_id_true in Hi. apply owned_by_true in Ho. auto.
Qed.

Lemma Load_None ownerId id st :
  Load ownerId id st = None ->
  forall c, In c (records st) -> Cluster.id c = id -> Cluster.owner_id c <> ownerId.
Proof.
  unfold Load. intros H c Hin Hid Ho.
  pose proof (find_none _ _ H c Hin) as Hp. simpl in Hp.
  apply andb_false_iff in Hp as [Hp | Hp].
  - apply not_true_iff_false in Hp. apply Hp. apply has_id_true. exact Hid.
  - apply not_true_iff_false in Hp. apply Hp. apply owned_by_true. exact Ho.
Qed.

Lemma Create_keyed ownerId data new_id now conn st :
  keyed st -> keyed (snd (Create ownerId data new_id now conn st)).
Proof.
  unfold keyed, Create. intros Hk.
  destruct (_ || _); [exact Hk |].
  destruct conn; [| exact Hk].
  destruct (existsb _ _) eqn:Hex; [exact Hk |].
  simpl. rewrite List.map_app. simpl.
  apply NoDup_app. repeat split.
  - exact Hk.
  - intros x Hx Hnew. apply list_elem_of_In in Hx, Hnew.
    destruct Hnew as [<- | []].
    apply in_map_iff in Hx as (c & Hc & Hin).
    assert (existsb (has_id new_id) (records st) = true) as Habs.
    { apply existsb_exists. exists c. split; [exact Hin |]. apply has_id_true. exact Hc. }
    congruence.
  - apply NoDup_singleton.
Qed.

Lemma step_keyed st call : keyed st -> keyed (step st call).
Proof.
  intros Hk. destruct call as [o d i n a | o i | o i | o i a]; simpl.
  - apply Create_keyed. exact Hk.
  - unfold Activate. destruct (Load o i st); [| exact Hk].
    destruct (Load o i _); [| exact Hk].
    unfold keyed. simpl. rewrite SetActive_ids. exact Hk.
  - unfold Delete. destruct (Load o i st); [| exact Hk].
    unfold keyed. simpl. apply NoDup_ids_filter. exact Hk.
  - destruct (Load o i st); [| exact Hk].
    unfold GetOrConnect. destruct (bool_decide _); [exact Hk |].
    destruct a; exact Hk.
Qed.

Lemma active_count_SetActive ownerId id other st :
  keyed st ->
  (active_count other st <= 1)%nat ->
  (active_count other (mk (SetActive ownerId id (records st)) (handles st)) <= 1)%nat.
Proof.
  intros Hk Hc. unfold active_count, List in *. simpl.
  destruct (String.eqb_spec other ownerId) as [-> | Hne].
  - rewrite SetActive_owner. apply marked_at_most_one.
    apply NoDup_ids_filter. exact Hk.
  - rewrite SetActive_other_owner by exact Hne. exact Hc.
Qed.

Lemma step_active_count st call other :
  keyed st ->
  (active_count other st <= 1)%nat ->
  (active_count other (step st call) <= 1)%nat.
Proof.
  intros Hk Hc. destruct call as [o d i n a | o i | o i | o i a]; simpl.
  - unfold Create. destruct (_ || _); [exact Hc |].
    destruct a; [| exact Hc]. destruct (existsb _ _); [exact Hc |].
    unfold active_count, List in *. simpl.
    rewrite !List.filter_app, length_app. simpl.
    destruct (owned_by other _); simpl; lia.
  - unfold Activate. destruct (Load o i st); [| exact Hc].
    destruct (Load o i _); [| exact Hc].
    simpl. apply active_count_SetActive; assumption.
  - unfold Delete. destruct (Load o i st); [| exact Hc].
    unfold active_count, List in *. simpl.
    etransitivity; [| exact Hc].
    clear. induction (records st) as [|c rows IH]; [reflexivity |].
    simpl. destruct (has_id i c); simpl.
    + destruct (owned_by other c); simpl; [| exact IH].
      destruct (Cluster.is_active c); simpl; lia.
    + destruct (owned_by other c); simpl; [| exact IH].
      destruct (Cluster.is_active c); simpl; lia.
  - destruct (Load o i st); [| exact Hc].
    unfold GetOrConnect. destruct (bool_decide _); [exact Hc |].
    destruct a; exact Hc.
Qed.

Lemma run_single_active calls : forall st other,
  keyed st ->
  (active_count other st <= 1)%nat ->
  (active_count other (run st calls) <= 1)%nat.
Proof.
  induction calls as [|call calls IH]; intros st other Hk Hc; [exact Hc |].
  simpl. apply IH.
  - apply step_keyed. exact Hk.
  - apply step_active_count; assumption.
Qed.

Lemma Load_SetActive ownerId id rows handles0 :
  Load ownerId id (mk (SetActive ownerId id rows) handles0) =
  Cluster.set_is_active true <$> Load ownerId id (mk rows handles0).
Proof.
  unfold Load. simpl. induction rows as [|c rows IH]; [reflexivity |].
  simpl. destruct (owned_by ownerId c) eqn:Ho.
  - unfold owned_by, has_id in *. simpl. rewrite Ho.
    destruct (String.eqb (Cluster.id c) id); simpl; [reflexivity | exact IH].
  - rewrite Ho, andb_false_r. exact IH.
Qed.

Lemma Activate_Ok ownerId id st b :
  Load ownerId id st = Some b ->
  Activate ownerId id st =
  (Core.Ok (Cluster.set_is_active true b),
   mk (SetActive ownerId id (records st)) (handles st)).
Proof.
  intros HL. unfold Activate. rewrite HL, Load_SetActive.
  destruct st as [rows hs]. simpl in *. rewrite HL. reflexivity.
Qed.

Lemma Activate_NotFound ownerId id st :
  Load ownerId id st = None -> Activate ownerId id st = (Core.Err Core.NotFound, st).
Proof. intros HL. unfold Activate. rewrite HL. reflexivity. Qed.

(** In the list of marked rows exactly the rows with the given id are
    active. *)
Lemma marked_active_iff id (rows : list Cluster.t) c :
  In c (map (fun c => Cluster.set_is_active (has_id id c) c) rows) ->
  (Cluster.is_active c = true <-> Cluster.id c = id).
Proof.
  intros (x & <- & _)%in_map_iff. simpl. apply has_id_true.
Qed.

Lemma List_SetActive ownerId id st :
  List ownerId (mk (SetActive ownerId id (records st)) (handles st)) =
  map (fun c => Cluster.set_is_active (has_id id c) c) (List ownerId st).
Proof. unfold List. simpl. apply SetActive_owner. Qed.

Lemma List_SetActive_other ownerId id other st :
  other <> ownerId ->
  List other (mk (SetActive ownerId id (records st)) (handles st)) = List other st.
Proof. intros Hne. unfold List. simpl. apply SetActive_other_owner. exact Hne. Qed.

Lemma Load_in_List ownerId id st b :
  Load ownerId id st = Some b -> In b (List ownerId st).
Proof.
  intros HL. destruct (Load_Some _ _ _ _ HL) as (Hin & _ & Ho).
  apply filter_In. split; [exact Hin |]. apply owned_by_true. exact Ho.
Qed.

Lemma filter_comm {A} (p q : A -> bool) (l : list A) :
  List.filter p (List.filter q l) = List.filter q (List.filter p l).
Proof.
  induction l as [|a l IH]; [reflexivity |].
  simpl. destruct (p a) eqn:Hp, (q a) eqn:Hq; simpl; rewrite ?Hp, ?Hq, IH; reflexivity.
Qed.

Lemma Delete_Ok ownerId id st c :
  Load ownerId id st = Some c ->
  Delete ownerId id st =
  (Core.Ok tt, mk (List.filter (fun c => negb (has_id id c)) (records st))
                  (Invalidate id (handles st))).
Proof. intros HL. unfold Delete. rewrite HL. reflexivity. Qed.

Lemma Delete_NotFound ownerId id st :
  Load ownerId id st = None -> Delete ownerId id st = (Core.Err Core.NotFound, st).
Proof. intros HL. unfold Delete. rewrite HL. reflexivity. Qed.

Lemma singleton_of_short {A} (x : A) (l : list A) :
  (length l <= 1)%nat -> In x l -> l = [x].
Proof.
  destruct l as [|y [|z l]]; simpl; intros Hlen Hin.
  - contradiction.
  - destruct Hin as [-> | []]. reflexivity.
  - lia.
Qed.

(** Deleting the owner's only active cluster leaves the owner without an
    active cluster. *)
Lemma Delete_active_none ownerId id st c :
  Load ownerId id st = Some c ->
  Cluster.is_active c = true ->
  (active_count ownerId st <= 1)%nat ->
  active_count ownerId (snd (Delete ownerId id st)) = 0%nat.
Proof.
  intros HL Hact Hone. rewrite (Delete_Ok _ _ _ _ HL). simpl.
  unfold active_count, List in *. simpl.
  rewrite (filter_comm (owned_by ownerId)), (filter_comm Cluster.is_active).
  destruct (Load_Some _ _ _ _ HL) as (Hin & Hid & Ho).
  rewrite (singleton_of_short c _ Hone).
  - simpl. apply has_id_true in Hid. rewrite Hid. reflexivity.
  - apply filter_In. split; [| exact Hact].
    apply filter_In. split; [exact Hin |]. apply owned_by_true. exact Ho.
Qed.

(** A [Create] that does not return a cluster leaves the Registry as it
    was. *)
Lemma Create_Err_unchanged ownerId data new_id now conn st e :
  fst (Create ownerId data new_id now conn st) = Core.Err e ->
  snd (Create ownerId data new_id now conn st) = st.
Proof.
  unfold Create. destruct (_ || _); [reflexivity |].
  destruct conn; [| reflexivity].
  destruct (existsb _ _); [reflexivity | discriminate].
Qed.

(** [Create] rejects an empty name, kubeconfig or context before it tries
    to connect. *)
Lemma Create_rejects_empty ownerId data new_id now conn st :
  ClusterCreate.name data = "" \/ ClusterCreate.kubeconfig data = "" \/
  ClusterCreate.context data = "" ->
  Create ownerId data new_id now conn st = (Core.Err Core.InvalidInput, st).
Proof.
  intros H. unfold Create.
  assert (String.eqb (ClusterCreate.name data) ""
          || String.eqb (ClusterCreate.kubeconfig data) ""
          || String.eqb (ClusterCreate.context data) "" = true) as ->; [| reflexivity].
  destruct H as [-> | [-> | ->]]; simpl; rewrite ?orb_true_r; reflexivity.
Qed.

(** A successful [Create] appends one inactive cluster of the owner. *)
Lemma Create_Ok ownerId data new_id now conn st c :
  fst (Create ownerId data new_id now conn st) = Core.Ok c ->
  records (snd (Create ownerId data new_id now conn st)) = records st ++ [c] /\
  Cluster.id c = new_id /\ Cluster.owner_id c = ownerId /\
  Cluster.is_active c = false /\ Cluster.name c = ClusterCreate.name data.
Proof.
  unfold Create. destruct (_ || _); [discriminate |].
  destruct conn; [| discriminate].
  destruct (existsb _ _); [discriminate |].
  simpl. intros [= <-]. repeat split.
Qed.

(** For every owner, after any sequence of Registry calls, at most one of
    the owner's clusters is active. *)
Lemma Registry_single_active (calls : list call) (ownerId : string) :
  (active_count ownerId (run empty calls) <= 1)%nat.
Proof.
  apply run_single_active.
  - unfold keyed. simpl. constructor.
  - unfold active_count. simpl. lia.
Qed.

(** [Activate] of an owned cluster returns it active; in the owner's [List]
    afterwards a cluster is active exactly when it has the activated id, the
    listed clusters are otherwise the same, and no other owner's list
    changes. *)
Lemma Registry_Activate_switches (st : state) (ownerId B : string) (b : Cluster.t) :
  Load ownerId B st = Some b ->
  exists st',
    Activate ownerId B st = (Core.Ok (Cluster.set_is_active true b), st') /\
    In (Cluster.set_is_active true b) (List ownerId st') /\
    (forall c, In c (List ownerId st') ->
               (Cluster.is_active c = true <-> Cluster.id c = B)) /\
    map Cluster.id (List ownerId st') = map Cluster.id (List ownerId st) /\
    (forall other, other <> ownerId -> List other st' = List other st).
Proof.
  intros HL.
  exists (mk (SetActive ownerId B (records st)) (handles st)).
  destruct (Load_Some _ _ _ _ HL) as (Hin & Hb & Ho).
  split; [apply Activate_Ok; exact HL |].
  rewrite List_SetActive.
  split.
  { apply in_map_iff. exists b. split.
    - f_equal. apply has_id_true. exact Hb.
    - eapply Load_in_List. exact HL. }
  split; [intros c; apply marked_active_iff |].
  split; [rewrite List.map_map; reflexivity |].
  intros other. apply List_SetActive_other.
Qed.

(** [Delete] of an owned cluster removes the rows with its id and evicts
    its connection handle; the owner's other clusters stay as they were,
    and if the deleted cluster was the owner's active one the owner has no
    active cluster afterwards. *)
Lemma Registry_Delete_removes (st : state) (ownerId id : string) (c : Cluster.t) :
  Load ownerId id st = Some c ->
  let st' := snd (Delete ownerId id st) in
  fst (Delete ownerId id st) = Core.Ok tt /\
  (forall x, In x (records st') -> Cluster.id x <> id) /\
  (id ∉ handles st') /\
  List ownerId st' = List.filter (fun x => negb (has_id id x)) (List ownerId st) /\
  (Cluster.is_active c = true -> (active_count ownerId st <= 1)%nat ->
   active_count ownerId st' = 0%nat).
Proof.
  intros HL st'. subst st'.
  split; [rewrite (Delete_Ok _ _ _ _ HL); reflexivity |].
  split.
  { rewrite (Delete_Ok _ _ _ _ HL). simpl. intros x Hx Hid.
    apply filter_In in Hx as [Hin Hx].
    apply has_id_true in Hid. rewrite Hid in Hx. discriminate. }
  split.
  { rewrite (Delete_Ok _ _ _ _ HL). simpl. unfold Invalidate.
    apply not_elem_of_difference. right. apply elem_of_singleton. reflexivity. }
  split.
  { rewrite (Delete_Ok _ _ _ _ HL). unfold List. simpl. apply filter_comm. }
  intros Hact Hone. eapply Delete_active_none; eassumption.
Qed.

(** A [Create] whose fields are not empty and whose connection attempt
    fails returns [InvalidCredential] and persists nothing. *)
Lemma Registry_Create_invalid_credential (st : state) (ownerId : string)
    (data : ClusterCreate.t) (new_id now : string) (reason : Core.connect_reason) :
  ClusterCreate.name data <> "" ->
  ClusterCreate.kubeconfig data <> "" ->
  ClusterCreate.context data <> "" ->
  Create ownerId data new_id now (Core.failed reason) st =
    (Core.Err Core.InvalidCredential, st).
Proof.
  intros Hn Hk Hc. unfold Create.
  apply String.eqb_neq in Hn, Hk, Hc. rewrite Hn, Hk, Hc. reflexivity.
Qed.

(** The cluster a [Create] returns arrives inactive in the slice, and the
    cluster an [Activate] returns arrives active. *)
Lemma Registry_payloads ownerId data new_id now conn id st c :
  (fst (Create ownerId data new_id now conn st) = Core.Ok c ->
   creates_inactive (clusterSlice.createCluster_fulfilled c) = true) /\
  (fst (Activate ownerId id st) = Core.Ok c ->
   Cluster.is_active c = true /\ Cluster.id c = id).
Proof.
  split.
  - intros H. apply Create_Ok in H as (_ & _ & _ & Hact & _).
    simpl. rewrite Hact. reflexivity.
  - destruct (Load ownerId id st) as [b|] eqn:HL.
    + rewrite (Activate_Ok _ _ _ _ HL). simpl. intros [= <-].
      split; [reflexivity |]. apply (Load_Some _ _ _ _ HL).
    + rewrite (Activate_NotFound _ _ _ HL). discriminate.
Qed.

End RegistryFacts.

(** Scenario B in the Registry: one active cluster; activating "staging"
    makes [List] show "prod" inactive and "staging" active; deleting the
    active "prod" evicts its handle and leaves "staging", inactive. *)
Example scenario_B_registry :
  Registry.List Scenario.alice Scenario.registry_B =
    [Cluster.set_is_active true Scenario.prod; Scenario.staging] /\
  Registry.List Scenario.alice
    (snd (Registry.Activate Scenario.alice "c-2" Scenario.registry_B)) =
    [Scenario.prod; Cluster.set_is_active true Scenario.staging] /\
  Registry.List Scenario.alice
    (snd (Registry.Delete Scenario.alice "c-1" Scenario.registry_B_connected)) =
    [Scenario.staging] /\
  Registry.handles Scenario.registry_B_connected = {[ "c-1" ]} /\
  Registry.handles
    (snd (Registry.Delete Scenario.alice "c-1" Scenario.registry_B_connected)) = ∅.
Proof. repeat split; vm_compute; reflexivity. Qed.

(** * Properties of the code around the claims *)

(** ** The cluster slice: the other reducers and thunks *)

Section ClusterSliceMore.
Import clusterSlice.
Implicit Types (l : list Cluster.t) (c payload old : Cluster.t).

Lemma active_count_replace l i payload old :
  l !! i = Some old ->
  (active_count (<[i := payload]> l) + (if Cluster.is_active old then 1 else 0) =
   active_count l + (if Cluster.is_active payload then 1 else 0))%nat.
Proof.
  revert i. induction l as [|a l IH]; intros i Hi; [discriminate |].
  destruct i as [|i].
  - injection Hi as ->.
    change (<[0%nat := payload]> (old :: l)) with (payload :: l).
    rewrite !active_count_cons. lia.
  - change (<[S i := payload]> (a :: l)) with (a :: <[i := payload]> l).
    rewrite !active_count_cons. specialize (IH i Hi). lia.
Qed.

Lemma modify_first_map {B} (g : Cluster.t -> B) (p : Cluster.t -> bool)
    (f : Cluster.t -> Cluster.t) l :
  (forall c, g (f c) = g c) -> map g (Js.modify_first p f l) = map g l.
Proof.
  intros Hg. induction l as [|a l IH]; [reflexivity |].
  simpl. destruct (p a); simpl; [rewrite Hg; reflexivity | rewrite IH; reflexivity].
Qed.

Lemma active_count_map_is_active l l' :
  map Cluster.is_active l = map Cluster.is_active l' -> active_count l = active_count l'.
Proof.
  revert l'. induction l as [|a l IH]; intros [|a' l'] H; try discriminate; [reflexivity |].
  simpl in H. injection H as Ha Hl. rewrite !active_count_cons, Ha, (IH l' Hl). reflexivity.
Qed.

Lemma filter_id_absent (id : string) l :
  (forall c, In c l -> Cluster.id c <> id) ->
  List.filter (fun c => negb (Js.str_eq (Cluster.id c) id)) l = l.
Proof.
  induction l as [|a l IH]; intros H; [reflexivity |].
  simpl. unfold Js.str_eq.
  assert (String.eqb (Cluster.id a) id = false) as ->
    by (apply String.eqb_neq, H; left; reflexivity).
  simpl. f_equal. apply IH. intros c Hc. apply H. right. exact Hc.
Qed.

Lemma filter_id_idempotent (id : string) l :
  List.filter (fun c => negb (Js.str_eq (Cluster.id c) id))
    (List.filter (fun c => negb (Js.str_eq (Cluster.id c) id)) l) =
  List.filter (fun c => negb (Js.str_eq (Cluster.id c) id)) l.
Proof.
  apply filter_id_absent. intros c Hc. apply filter_In in Hc as [_ Hc].
  apply negb_true_iff in Hc. unfold Js.str_eq in Hc. apply String.eqb_neq. exact Hc.
Qed.

Lemma filter_swap {A} (p q : A -> bool) (l : list A) :
  List.filter p (List.filter q l) = List.filter q (List.filter p l).
Proof.
  induction l as [|a l IH]; [reflexivity |].
  simpl. destruct (p a) eqn:Hp, (q a) eqn:Hq; simpl; rewrite ?Hp, ?Hq, IH; reflexivity.
Qed.

(** The first entry with a given id, in a list whose slot [i], the first
    with that id, was overwritten by a cluster bearing the id. *)
Lemma find_insert_first (id : string) l i payload :
  Js.findIndex (fun c => Js.str_eq (Cluster.id c) id) l = Some i ->
  Cluster.id payload = id ->
  find (fun c => Js.str_eq (Cluster.id c) id) (<[i := payload]> l) = Some payload.
Proof.
  intros Hi Hid. revert i Hi. induction l as [|a l IH]; intros i Hi; [discriminate |].
  simpl in Hi. destruct (Js.str_eq (Cluster.id a) id) eqn:Ha.
  - injection Hi as <-. simpl. unfold Js.str_eq. rewrite Hid, String.eqb_refl. reflexivity.
  - destruct (Js.findIndex _ l) as [k|] eqn:Hk; [| discriminate].
    simpl in Hi. injection Hi as <-. simpl. rewrite Ha. apply IH. reflexivity.
Qed.

Lemma find_None_of_findIndex (id : string) l :
  Js.findIndex (fun c => Js.str_eq (Cluster.id c) id) l = None ->
  find (fun c => Js.str_eq (Cluster.id c) id) l = None.
Proof.
  intros H. rewrite findIndex_None in H.
  induction l as [|a l IH]; [reflexivity |].
  simpl. rewrite (H a) by (left; reflexivity). apply IH.
  intros x Hx. apply H. right. exact Hx.
Qed.

End ClusterSliceMore.

(** X7: [updateCluster.fulfilled] overwrites the first stored entry that has
    the payload's id and touches no other entry, so the number of active
    entries changes by exactly the difference between the payload and the
    entry it replaces: unlike an activation, an update that arrives active
    does not deactivate the cluster that was active. *)
Theorem update_fulfilled_active_count
    (state : ClusterState.t) (payload old : Cluster.t) (i : nat) :
  Js.findIndex (fun c => Js.str_eq (Cluster.id c) (Cluster.id payload))
               (ClusterState.clusters state) = Some i ->
  ClusterState.clusters state !! i = Some old ->
  let state' := clusterSlice.reducer state (clusterSlice.updateCluster_fulfilled payload) in
  ClusterState.clusters state' = (<[i := payload]> (ClusterState.clusters state)) /\
  (clusterSlice.active_count (ClusterState.clusters state')
   + (if Cluster.is_active old then 1 else 0) =
   clusterSlice.active_count (ClusterState.clusters state)
   + (if Cluster.is_active payload then 1 else 0))%nat /\
  ClusterState.activeCluster state' =
    (if Cluster.is_active payload then Some payload else ClusterState.activeCluster state).
Proof.
  intros Hi Hold state'. subst state'. simpl. rewrite Hi. simpl.
  split; [reflexivity |]. split; [| reflexivity].
  apply active_count_replace. exact Hold.
Qed.

(** In scenario B an update of "staging" that arrives active leaves two
    active clusters. *)
Lemma update_fulfilled_active_count_witness :
  clusterSlice.active_count
    (ClusterState.clusters
       (clusterSlice.reducer Scenario.state_B
          (clusterSlice.updateCluster_fulfilled
             (Cluster.set_is_active true Scenario.staging)))) = 2%nat.
Proof.
  destruct (update_fulfilled_active_count Scenario.state_B
              (Cluster.set_is_active true Scenario.staging) Scenario.staging 1%nat
              eq_refl eq_refl) as (_ & Hcount & _).
  vm_compute in Hcount. vm_compute. lia.
Defined.

(** X8: [testConnection.fulfilled] never changes which clusters are stored,
    their order, or any [is_active] flag, so the number of active clusters
    and [state.activeCluster] are the same before and after any test. *)
Theorem test_connection_keeps_activation
    (state : ClusterState.t) (id : string) (result : ConnectionTestResult.t) :
  let state' := clusterSlice.reducer state (clusterSlice.testConnection_fulfilled id result) in
  map Cluster.id (ClusterState.clusters state') = map Cluster.id (ClusterState.clusters state) /\
  map Cluster.is_active (ClusterState.clusters state') =
    map Cluster.is_active (ClusterState.clusters state) /\
  clusterSlice.active_count (ClusterState.clusters state') =
    clusterSlice.active_count (ClusterState.clusters state) /\
  ClusterState.activeCluster state' = ClusterState.activeCluster state.
Proof.
  simpl.
  assert (forall c,
            Cluster.is_active
              (if Js.truthy (ConnectionTestResult.version result)
               then Cluster.set_version (ConnectionTestResult.version result)
                      (Cluster.set_is_connected (ConnectionTestResult.connected result) c)
               else Cluster.set_is_connected (ConnectionTestResult.connected result) c)
            = Cluster.is_active c) as Hact
    by (intros c; destruct (Js.truthy _); reflexivity).
  assert (forall c,
            Cluster.id
              (if Js.truthy (ConnectionTestResult.version result)
               then Cluster.set_version (ConnectionTestResult.version result)
                      (Cluster.set_is_connected (ConnectionTestResult.connected result) c)
               else Cluster.set_is_connected (ConnectionTestResult.connected result) c)
            = Cluster.id c) as Hid
    by (intros c; destruct (Js.truthy _); reflexivity).
  split; [apply modify_first_map; exact Hid |].
  split; [apply modify_first_map; exact Hact |].
  split; [| reflexivity].
  apply active_count_map_is_active, modify_first_map. exact Hact.
Qed.

(** X9: deleting is idempotent and two deletions commute; and creating a
    cluster whose id is not stored, then deleting it, gives back the stored
    list. *)
Theorem delete_fulfilled_algebra
    (state : ClusterState.t) (id id' : string) (payload : Cluster.t) :
  let delete s i := clusterSlice.reducer s (clusterSlice.deleteCluster_fulfilled i) in
  delete (delete state id) id = delete state id /\
  delete (delete state id) id' = delete (delete state id') id /\
  ((forall c, In c (ClusterState.clusters state) -> Cluster.id c <> Cluster.id payload) ->
   ClusterState.clusters
     (delete (clusterSlice.reducer state (clusterSlice.createCluster_fulfilled payload))
             (Cluster.id payload)) = ClusterState.clusters state).
Proof.
  cbv zeta. split; [| split].
  - simpl. rewrite filter_id_idempotent. f_equal.
    destruct (ClusterState.activeCluster state) as [a|]; [| reflexivity].
    destruct (Js.str_eq (Cluster.id a) id) eqn:Ha; [reflexivity |].
    rewrite Ha. reflexivity.
  - simpl. rewrite filter_swap. f_equal.
    destruct (ClusterState.activeCluster state) as [a|]; [| reflexivity].
    destruct (Js.str_eq (Cluster.id a) id) eqn:Ha, (Js.str_eq (Cluster.id a) id') eqn:Ha';
      rewrite ?Ha, ?Ha'; reflexivity.
  - intros Habsent. simpl. rewrite List.filter_app. simpl.
    unfold Js.str_eq at 2. rewrite String.eqb_refl. simpl.
    rewrite app_nil_r. apply filter_id_absent. exact Habsent.
Qed.

Lemma delete_fulfilled_algebra_witness :
  ClusterState.clusters
    (clusterSlice.run Scenario.state_B
       [clusterSlice.createCluster_fulfilled Scenario.prod_connected;
        clusterSlice.deleteCluster_fulfilled "c-1"]) = [Scenario.staging] /\
  ClusterState.clusters
    (clusterSlice.run (ClusterState.mk [Scenario.staging] None false None)
       [clusterSlice.createCluster_fulfilled Scenario.prod_connected;
        clusterSlice.deleteCluster_fulfilled "c-1"]) = [Scenario.staging].
Proof.
  split; [reflexivity |].
  destruct (delete_fulfilled_algebra (ClusterState.mk [Scenario.staging] None false None)
              "c-1" "c-1" Scenario.prod_connected) as (_ & _ & Hround).
  apply Hround. intros c [<- | []]. discriminate.
Defined.

(** X10: what the application shell shows around the initial
    [fetchClusters]: while the request is pending, the loading screen until
    the timer fires and the main routes after; once it has settled, the
    onboarding screen only if the request succeeded with an empty list and
    the timer has not fired, and the main routes in every other case, a
    failed request included. *)
Theorem app_view_around_fetch
    (state : ClusterState.t) (response : clusterSlice.api_result (list Cluster.t))
    (timedOut : bool) :
  App.AppWithClusterCheck
    (clusterSlice.reducer state clusterSlice.fetchClusters_pending) timedOut =
    (if timedOut then App.MainRoutes else App.LoadingScreen) /\
  App.AppWithClusterCheck
    (clusterSlice.run state (clusterThunks.fetchClusters response)) timedOut =
    match response with
    | clusterSlice.resolved [] =>
        if timedOut then App.MainRoutes else App.ClusterOnboarding
    | clusterSlice.resolved (_ :: _) => App.MainRoutes
    | clusterSlice.thrown _ => App.MainRoutes
    end.
Proof.
  split.
  - unfold App.AppWithClusterCheck. simpl. destruct timedOut; reflexivity.
  - destruct response as [[|c l] | message]; unfold App.AppWithClusterCheck; simpl.
    + destruct timedOut; reflexivity.
    + destruct timedOut; simpl; rewrite ?andb_false_r; reflexivity.
    + destruct message as [m|]; simpl.
      * destruct (String.eqb m "") eqn:E; simpl; rewrite ?E; simpl;
          destruct timedOut; reflexivity.
      * destruct timedOut; reflexivity.
Qed.

(** X11: the detail page's "activate when viewing" effect. After
    [activateCluster.fulfilled] for the viewed cluster, its guard holds
    exactly when the cluster is stored and the payload arrived inactive: an
    activation that returns the cluster active switches the effect off. *)
Theorem detail_page_activation_settles
    (state : ClusterState.t) (payload : Cluster.t) :
  ClusterDetailPage.activates
    (clusterSlice.reducer state (clusterSlice.activateCluster_fulfilled payload))
    (Some (Cluster.id payload)) =
  match Js.findIndex (fun c => Js.str_eq (Cluster.id c) (Cluster.id payload))
                     (ClusterState.clusters state) with
  | Some _ => negb (Cluster.is_active payload) && negb (String.eqb (Cluster.id payload) "")
  | None => false
  end.
Proof.
  unfold ClusterDetailPage.activates, ClusterDetailPage.cluster.
  destruct (Js.findIndex _ (ClusterState.clusters state)) as [i|] eqn:Hi.
  - rewrite (activate_fulfilled_found state payload i Hi). simpl.
    rewrite (find_insert_first (Cluster.id payload) _ i payload);
      [reflexivity | rewrite findIndex_map by reflexivity; exact Hi | reflexivity].
  - rewrite (activate_fulfilled_not_found state payload Hi). simpl.
    rewrite find_None_of_findIndex; [reflexivity |].
    rewrite findIndex_map by reflexivity. exact Hi.
Qed.

(** ** Signing in: the auth thunks, the login page and the protected route *)

Section AuthFlows.
Import authSlice.

Lemma or_else_nonempty (o : option string) (d : string) :
  d <> "" -> Js.or_else o d <> "".
Proof.
  intros Hd. destruct o as [s|]; simpl; [| exact Hd].
  destruct (String.eqb_spec s ""); assumption.
Qed.

Lemma truthy_Some (o : option string) :
  Js.truthy o = true <-> exists s, o = Some s /\ s <> "".
Proof.
  destruct o as [s|]; simpl.
  - rewrite negb_true_iff, String.eqb_neq. split.
    + intros H. exists s. auto.
    + intros (s' & [= <-] & H). exact H.
  - split; [discriminate | intros (s & H & _); discriminate].
Qed.

(** A rejected login or registration carries a message that is not
    empty. *)
Lemma login_settled_rejected answer :
  (forall body, answer <> authThunks.token_ok body) ->
  exists message,
    authThunks.login_settled answer = login_rejected message /\ message <> "".
Proof.
  intros Hno. destruct answer as [body | detail |]; simpl.
  - exfalso. apply (Hno body). reflexivity.
  - eexists. split; [reflexivity |]. apply or_else_nonempty. discriminate.
  - eexists. split; [reflexivity | discriminate].
Qed.

(** The settling action of [fetchCurrentUser] is [fulfilled] exactly when a
    token is stored and the server accepts it. *)
Lemma fetchCurrentUser_settled_fulfilled state server u :
  authThunks.fetchCurrentUser_settled state server = fetchCurrentUser_fulfilled u <->
  exists token, AuthState.accessToken state = Some token /\ token <> "" /\
                server token = authThunks.me_ok u.
Proof.
  unfold authThunks.fetchCurrentUser_settled.
  destruct (AuthState.accessToken state) as [token|]; simpl.
  - destruct (String.eqb_spec token "") as [-> | Hne]; simpl.
    + split; [discriminate | intros (t & [= <-] & H & _); contradiction].
    + destruct (server token) eqn:Hs; split; try discriminate.
      * intros [= ->]. exists token. auto.
      * intros (t & [= <-] & _ & H). congruence.
      * intros (t & [= <-] & _ & H). congruence.
      * intros (t & [= <-] & _ & H). congruence.
  - split; [discriminate | intros (t & H & _); discriminate].
Qed.

Lemma fetchCurrentUser_settled_cases state server :
  (exists u, authThunks.fetchCurrentUser_settled state server = fetchCurrentUser_fulfilled u)
  \/ authThunks.fetchCurrentUser_settled state server = fetchCurrentUser_rejected.
Proof.
  unfold authThunks.fetchCurrentUser_settled.
  destruct (Js.truthy _); [| right; reflexivity].
  destruct (AuthState.accessToken state) as [token|]; [| right; reflexivity].
  destruct (server token); [left; eexists; reflexivity | right; reflexivity ..].
Qed.

End AuthFlows.

(** X12: the protected route fetches the user once per token. Whenever its
    effect's guard holds, it does not hold while [fetchCurrentUser] is
    pending (the route shows the spinner), and it does not hold once the
    thunk has settled: a fulfilled fetch sets the user and the route shows
    its children, a rejected one clears the tokens and the route shows the
    login page. *)
Theorem protected_route_fetches_user_once
    (state : AuthState.t) (ls : gmap string string)
    (server : string -> authThunks.me_answer) :
  ProtectedRoute.fetches_user state = true ->
  let pending := fst (authSlice.reducer (state, ls) authSlice.fetchCurrentUser_pending) in
  let settled := fst (fst (authThunks.fetchCurrentUser (state, ls) server)) in
  ProtectedRoute.fetches_user pending = false /\
  ProtectedRoute.ProtectedRoute pending = ProtectedRoute.Spinner /\
  ProtectedRoute.fetches_user settled = false /\
  ProtectedRoute.ProtectedRoute settled =
    match snd (authThunks.fetchCurrentUser (state, ls) server) with
    | authSlice.fetchCurrentUser_fulfilled _ => ProtectedRoute.children
    | _ => ProtectedRoute.LoginPage
    end.
Proof.
  intros Hguard pending settled. subst pending settled.
  unfold ProtectedRoute.fetches_user in Hguard.
  apply andb_true_iff in Hguard as [Hguard _].
  apply andb_true_iff in Hguard as [_ Huser].
  destruct (AuthState.user state) eqn:Hu; [discriminate |].
  split; [unfold ProtectedRoute.fetches_user; simpl; apply andb_false_r |].
  split; [reflexivity |].
  unfold authThunks.fetchCurrentUser. cbn [fst snd].
  destruct (fetchCurrentUser_settled_cases
              (fst (authSlice.reducer (state, ls) authSlice.fetchCurrentUser_pending))
              server) as [[u ->] | ->].
  - split; [| reflexivity].
    unfold ProtectedRoute.fetches_user. simpl.
    destruct (Js.truthy (AuthState.accessToken state)); reflexivity.
  - simpl. rewrite Hu. split; reflexivity.
Qed.

Lemma protected_route_fetches_user_once_witness :
  ProtectedRoute.fetches_user (authSlice.initialState Scenario.storage_C) = true /\
  ProtectedRoute.ProtectedRoute
    (fst (fst (authThunks.fetchCurrentUser
                 (authSlice.initialState Scenario.storage_C, Scenario.storage_C)
                 (fun _ => authThunks.me_not_ok)))) = ProtectedRoute.LoginPage /\
  ProtectedRoute.fetches_user
    (fst (fst (authThunks.fetchCurrentUser
                 (authSlice.initialState Scenario.storage_C, Scenario.storage_C)
                 (fun _ => authThunks.me_not_ok)))) = false.
Proof.
  assert (ProtectedRoute.fetches_user (authSlice.initialState Scenario.storage_C) = true)
    as Hg by reflexivity.
  destruct (protected_route_fetches_user_once
              (authSlice.initialState Scenario.storage_C) Scenario.storage_C
              (fun _ => authThunks.me_not_ok) Hg) as (_ & _ & Hoff & Hview).
  split; [exact Hg |]. split; [exact Hview | exact Hoff].
Defined.

(** X13: a login that fails with a message changes nothing but the
    feedback. When the response is not OK and its [detail] is a string or
    missing, or when the request throws, the page does not navigate and
    asks for no user, the tokens, the user and [localStorage] are as
    before, loading is over and [state.error] holds a message that is not
    empty: the [detail] if it is a string that is not empty, "Login failed"
    if it is missing or empty, "Network error" if the request threw. *)
Theorem login_page_rejected_login
    (state : AuthState.t) (ls : gmap string string)
    (answer : authThunks.token_answer) (me_server : string -> authThunks.me_answer) :
  (forall body, answer <> authThunks.token_ok body) ->
  let result := LoginPage.handleSubmit (state, ls) answer me_server in
  snd result = false /\
  snd (fst result) = ls /\
  AuthState.accessToken (fst (fst result)) = AuthState.accessToken state /\
  AuthState.refreshToken (fst (fst result)) = AuthState.refreshToken state /\
  AuthState.user (fst (fst result)) = AuthState.user state /\
  AuthState.isLoading (fst (fst result)) = false /\
  exists message,
    AuthState.error (fst (fst result)) = Some message /\ message <> "" /\
    message = match answer with
              | authThunks.token_not_ok detail => Js.or_else detail "Login failed"
              | _ => "Network error"
              end.
Proof.
  intros Hno result. subst result.
  destruct (login_settled_rejected answer Hno) as (message & Hsettled & Hne).
  unfold LoginPage.handleSubmit, authThunks.login.
  destruct answer as [body | detail |];
    [exfalso; apply (Hno body); reflexivity | ..];
    simpl in *; injection Hsettled as <-; repeat split; eexists;
    (split; [reflexivity | split; [exact Hne | reflexivity]]).
Qed.

Lemma login_page_rejected_login_witness :
  LoginPage.handleSubmit (authSlice.initialState ∅, ∅)
    (authThunks.token_not_ok (Some "Incorrect email or password"))
    (fun _ => authThunks.me_not_ok) =
  (AuthState.mk None None None false (Some "Incorrect email or password"), ∅, false).
Proof.
  destruct (login_page_rejected_login (authSlice.initialState ∅) ∅
              (authThunks.token_not_ok (Some "Incorrect email or password"))
              (fun _ => authThunks.me_not_ok)) as (Hnav & _).
  - discriminate.
  - reflexivity.
Defined.

(** X14: a login that succeeds while the user cannot be fetched ends signed
    out without a word: the tokens the login stored are cleared again from
    the state and from [localStorage], the page does not navigate, and
    [state.error] stays null. *)
Theorem login_page_user_fetch_fails
    (state : AuthState.t) (ls : gmap string string)
    (body : TokenResponse.t) (me_server : string -> authThunks.me_answer) :
  (forall u, me_server (TokenResponse.access_token body) <> authThunks.me_ok u) ->
  let result := LoginPage.handleSubmit (state, ls) (authThunks.token_ok body) me_server in
  snd result = false /\
  AuthState.accessToken (fst (fst result)) = None /\
  AuthState.refreshToken (fst (fst result)) = None /\
  snd (fst result) !! authSlice.ACCESS_KEY = None /\
  snd (fst result) !! authSlice.REFRESH_KEY = None /\
  AuthState.user (fst (fst result)) = AuthState.user state /\
  AuthState.isLoading (fst (fst result)) = false /\
  AuthState.error (fst (fst result)) = None.
Proof.
  intros Hno result. subst result.
  unfold LoginPage.handleSubmit, authThunks.login, authThunks.fetchCurrentUser.
  cbn [authThunks.run fold_left authThunks.login_settled].
  set (st1 := authSlice.reducer (authSlice.reducer (authSlice.reducer (state, ls)
                authSlice.clearError) authSlice.login_pending)
                (authSlice.login_fulfilled body)).
  set (st2 := authSlice.reducer st1 authSlice.fetchCurrentUser_pending).
  assert (authThunks.fetchCurrentUser_settled (fst st2) me_server =
          authSlice.fetchCurrentUser_rejected) as Hrej.
  { destruct (fetchCurrentUser_settled_cases (fst st2) me_server) as [[u Hu] | H];
      [| exact H].
    apply fetchCurrentUser_settled_fulfilled in Hu as (token & Htok & _ & Hs).
    subst st2 st1. simpl in Htok. injection Htok as <-.
    exfalso. apply (Hno u). exact Hs. }
  rewrite Hrej. subst st2 st1. simpl.
  repeat split; apply remove_tokens_lookup.
Qed.

Lemma login_page_user_fetch_fails_witness :
  LoginPage.handleSubmit (authSlice.initialState ∅, ∅)
    (authThunks.token_ok (TokenResponse.mk "access-1" "rt-1"))
    (fun _ => authThunks.me_thrown) =
  (AuthState.mk None None None false None, ∅, false).
Proof.
  destruct (login_page_user_fetch_fails (authSlice.initialState ∅) ∅
              (TokenResponse.mk "access-1" "rt-1") (fun _ => authThunks.me_thrown))
    as (Hnav & _).
  - discriminate.
  - vm_compute. reflexivity.
Defined.

(** X15: a login the server accepts, followed by a fetch of the user the
    server accepts for the new access token, signs the user in: the page
    navigates, the state and [localStorage] hold the new pair and the user,
    the protected route shows its children, and the API client sends the
    new access token as [Authorization: Bearer]. *)
Theorem login_page_signs_in
    (state : AuthState.t) (ls : gmap string string)
    (body : TokenResponse.t) (me_server : string -> authThunks.me_answer)
    (u : User.t) (headers : gmap string string) :
  TokenResponse.access_token body <> "" ->
  me_server (TokenResponse.access_token body) = authThunks.me_ok u ->
  let result := LoginPage.handleSubmit (state, ls) (authThunks.token_ok body) me_server in
  snd result = true /\
  AuthState.user (fst (fst result)) = Some u /\
  AuthState.accessToken (fst (fst result)) = Some (TokenResponse.access_token body) /\
  AuthState.refreshToken (fst (fst result)) = Some (TokenResponse.refresh_token body) /\
  snd (fst result) !! authSlice.ACCESS_KEY = Some (TokenResponse.access_token body) /\
  snd (fst result) !! authSlice.REFRESH_KEY = Some (TokenResponse.refresh_token body) /\
  AuthState.error (fst (fst result)) = None /\
  ProtectedRoute.ProtectedRoute (fst (fst result)) = ProtectedRoute.children /\
  api.request_interceptor (snd (fst result)) headers !! "Authorization" =
    Some (String.append "Bearer " (TokenResponse.access_token body)).
Proof.
  intros Hne Hme result. subst result.
  unfold LoginPage.handleSubmit, authThunks.login, authThunks.fetchCurrentUser.
  cbn [authThunks.run fold_left authThunks.login_settled].
  set (st1 := authSlice.reducer (authSlice.reducer (authSlice.reducer (state, ls)
                authSlice.clearError) authSlice.login_pending)
                (authSlice.login_fulfilled body)).
  set (st2 := authSlice.reducer st1 authSlice.fetchCurrentUser_pending).
  assert (authThunks.fetchCurrentUser_settled (fst st2) me_server =
          authSlice.fetchCurrentUser_fulfilled u) as Hok.
  { apply fetchCurrentUser_settled_fulfilled.
    exists (TokenResponse.access_token body). subst st2 st1. simpl. auto. }
  rewrite Hok. subst st2 st1. simpl.
  destruct (store_tokens_lookup (TokenResponse.access_token body)
              (TokenResponse.refresh_token body) ls) as [Ha Hr].
  repeat (split; [first [reflexivity | exact Ha | exact Hr] |]).
  unfold api.request_interceptor.
  change "xkube_access_token" with authSlice.ACCESS_KEY. rewrite Ha. simpl.
  apply String.eqb_neq in Hne. rewrite Hne. simpl. apply lookup_insert_eq.
Qed.

Lemma login_page_signs_in_witness :
  snd (LoginPage.handleSubmit (authSlice.initialState ∅, ∅)
         (authThunks.token_ok (TokenResponse.mk "access-1" "rt-1"))
         (fun _ => authThunks.me_ok
                     (User.mk "user-1" "alice@example.org" "Alice" None "local" true
                              "2025-12-24T08:00:00Z"))) = true.
Proof.
  destruct (login_page_signs_in (authSlice.initialState ∅) ∅
              (TokenResponse.mk "access-1" "rt-1")
              (fun _ => authThunks.me_ok
                          (User.mk "user-1" "alice@example.org" "Alice" None "local" true
                                   "2025-12-24T08:00:00Z"))
              (User.mk "user-1" "alice@example.org" "Alice" None "local" true
                       "2025-12-24T08:00:00Z") ∅) as (Hnav & _).
  - discriminate.
  - reflexivity.
  - exact Hnav.
Defined.

(** ** The session in [localStorage] *)

Section StoredSession.
Import authSlice.

(** Neither token is kept under the key the pods client reads. *)
Lemma pods_key_differs :
  "access_token" <> ACCESS_KEY /\ "access_token" <> REFRESH_KEY.
Proof. split; discriminate. Qed.

Lemma store_tokens_other access refresh (ls : gmap string string) k :
  k <> ACCESS_KEY -> k <> REFRESH_KEY ->
  store_tokens access refresh ls !! k = ls !! k.
Proof.
  intros Ha Hr. unfold store_tokens.
  rewrite lookup_insert_ne by congruence. apply lookup_insert_ne. congruence.
Qed.

Lemma remove_tokens_other (ls : gmap string string) k :
  k <> ACCESS_KEY -> k <> REFRESH_KEY ->
  remove_tokens ls !! k = ls !! k.
Proof.
  intros Ha Hr. unfold remove_tokens.
  rewrite lookup_delete_ne by congruence. apply lookup_delete_ne. congruence.
Qed.

(** A reducer writes no key of [localStorage] but the two token keys. *)
Lemma reducer_other_keys st a k :
  k <> ACCESS_KEY -> k <> REFRESH_KEY ->
  snd (reducer st a) !! k = snd st !! k.
Proof.
  intros Ha Hr. destruct st as [state ls].
  destruct a; simpl; first [reflexivity
                           | apply store_tokens_other; assumption
                           | apply remove_tokens_other; assumption].
Qed.

Lemma run_other_keys actions st k :
  k <> ACCESS_KEY -> k <> REFRESH_KEY ->
  snd (authThunks.run st actions) !! k = snd st !! k.
Proof.
  intros Ha Hr. unfold authThunks.run. revert st.
  induction actions as [|a actions IH]; intros st; simpl; [reflexivity |].
  rewrite IH. apply reducer_other_keys; assumption.
Qed.

(** The token fields of the state stay the values of the two keys. *)
Lemma reducer_mirrors st a :
  AuthState.accessToken (fst st) = snd st !! ACCESS_KEY /\
  AuthState.refreshToken (fst st) = snd st !! REFRESH_KEY ->
  AuthState.accessToken (fst (reducer st a)) = snd (reducer st a) !! ACCESS_KEY /\
  AuthState.refreshToken (fst (reducer st a)) = snd (reducer st a) !! REFRESH_KEY.
Proof.
  destruct st as [state ls]. intros [Ha Hr].
  destruct a; simpl in *; first [split; assumption
    | split; symmetry; apply store_tokens_lookup
    | split; symmetry; apply remove_tokens_lookup].
Qed.

Lemma run_mirrors actions st :
  AuthState.accessToken (fst st) = snd st !! ACCESS_KEY /\
  AuthState.refreshToken (fst st) = snd st !! REFRESH_KEY ->
  AuthState.accessToken (fst (authThunks.run st actions)) =
    snd (authThunks.run st actions) !! ACCESS_KEY /\
  AuthState.refreshToken (fst (authThunks.run st actions)) =
    snd (authThunks.run st actions) !! REFRESH_KEY.
Proof.
  unfold authThunks.run. revert st.
  induction actions as [|a actions IH]; intros st H; simpl; [exact H |].
  apply IH. apply reducer_mirrors. exact H.
Qed.

End StoredSession.

(** X6: from the start of the application on, whatever actions the auth
    slice handles, [state.accessToken] and [state.refreshToken] are what
    [localStorage] holds under the two keys; so a reload of the page, which
    starts the slice again from [localStorage], restores the same two
    tokens. *)
Theorem session_survives_reload
    (localStorage : gmap string string) (actions : list authSlice.action) :
  let st := authThunks.run (authSlice.initialState localStorage, localStorage) actions in
  AuthState.accessToken (fst st) = snd st !! authSlice.ACCESS_KEY /\
  AuthState.refreshToken (fst st) = snd st !! authSlice.REFRESH_KEY /\
  AuthState.accessToken (authSlice.initialState (snd st)) = AuthState.accessToken (fst st) /\
  AuthState.refreshToken (authSlice.initialState (snd st)) = AuthState.refreshToken (fst st).
Proof.
  intros st.
  destruct (run_mirrors actions (authSlice.initialState localStorage, localStorage))
    as [Ha Hr]; [split; reflexivity |].
  fold st in Ha, Hr.
  repeat split; simpl; congruence.
Qed.

(** X16: an answer 401 to a request of the API client removes both tokens
    from [localStorage] and nothing else: afterwards the request
    interceptor adds no [Authorization] header, and a reload starts the
    slice signed out, on the login page and without a fetch of the user.
    Any other error leaves [localStorage] as it was. *)
Theorem api_unauthorized_clears_stored_tokens
    (ls headers : gmap string string) :
  let ls' := api.response_error_interceptor (Some 401%Z) ls in
  api.request_interceptor ls' headers = headers /\
  authSlice.initialState ls' = AuthState.mk None None None false None /\
  ProtectedRoute.ProtectedRoute (authSlice.initialState ls') = ProtectedRoute.LoginPage /\
  ProtectedRoute.fetches_user (authSlice.initialState ls') = false /\
  (forall k, k <> authSlice.ACCESS_KEY -> k <> authSlice.REFRESH_KEY ->
             ls' !! k = ls !! k) /\
  (forall status, status <> Some 401%Z -> api.response_error_interceptor status ls = ls).
Proof.
  intros ls'.
  assert (ls' !! authSlice.ACCESS_KEY = None /\ ls' !! authSlice.REFRESH_KEY = None)
    as [Ha Hr] by apply remove_tokens_lookup.
  assert (authSlice.initialState ls' = AuthState.mk None None None false None) as Hinit.
  { unfold authSlice.initialState. rewrite Ha, Hr. reflexivity. }
  split.
  { unfold api.request_interceptor.
    change "xkube_access_token" with authSlice.ACCESS_KEY. rewrite Ha. reflexivity. }
  split; [exact Hinit |]. rewrite Hinit.
  split; [reflexivity |]. split; [reflexivity |]. split.
  - intros k Hka Hkr. apply remove_tokens_other; assumption.
  - intros status Hs. unfold api.response_error_interceptor.
    destruct status as [z|]; [| reflexivity].
    destruct z as [|p|p]; try reflexivity.
    do 9 (destruct p as [p|p|]; try reflexivity).
    exfalso. apply Hs. reflexivity.
Qed.

(** X17: the pods client reads its token under the key [access_token],
    which nothing writes: no sequence of actions of the auth slice, no OAuth
    callback and no 401 handled by the API client changes what
    [getAuthToken] returns, nor the headers the pods client sends. *)
Theorem pods_client_ignores_session
    (st : AuthState.t * gmap string string) (actions : list authSlice.action)
    (access_token refresh_token : option string) (status : option Z)
    (headers : gmap string string) :
  podsApi.request_interceptor (snd (authThunks.run st actions)) headers =
    podsApi.request_interceptor (snd st) headers /\
  podsApi.getAuthToken (api.response_error_interceptor status (snd st)) =
    podsApi.getAuthToken (snd st) /\
  match ProtectedRoute.oauth_callback access_token refresh_token (snd st) with
  | Some ls' => podsApi.getAuthToken ls' = podsApi.getAuthToken (snd st)
  | None => True
  end.
Proof.
  destruct pods_key_differs as [Ha Hr].
  split; [| split].
  - unfold podsApi.request_interceptor, podsApi.getAuthToken.
    rewrite run_other_keys by assumption. reflexivity.
  - unfold podsApi.getAuthToken, api.response_error_interceptor.
    destruct status as [z|]; [| reflexivity].
    destruct z as [|p|p]; try reflexivity.
    do 9 (destruct p as [p|p|]; try reflexivity).
    apply (remove_tokens_other (snd st)); assumption.
  - unfold ProtectedRoute.oauth_callback.
    destruct (Js.truthy access_token && Js.truthy refresh_token); [| exact I].
    destruct access_token as [a|]; [| exact I].
    destruct refresh_token as [r|]; [| exact I].
    apply (store_tokens_other a r (snd st)); assumption.
Qed.

(** X18: a refresh the server accepts rotates the pair: the state and
    [localStorage] hold the new access and refresh token, the user, the
    loading flag and the error are as before, and the outcome of the next
    refresh depends on the server's answer to the new refresh token only,
    so the redeemed token is not presented again. *)
Theorem refresh_rotates_stored_pair
    (state : AuthState.t) (ls : gmap string string)
    (server : string -> authSlice.refresh_response)
    (rt : string) (body : TokenResponse.t) :
  AuthState.refreshToken state = Some rt ->
  rt <> "" ->
  server rt = authSlice.response_ok body ->
  let st' := authThunks.dispatch_refreshAccessToken (state, ls) server in
  AuthState.accessToken (fst st') = Some (TokenResponse.access_token body) /\
  AuthState.refreshToken (fst st') = Some (TokenResponse.refresh_token body) /\
  snd st' !! authSlice.ACCESS_KEY = Some (TokenResponse.access_token body) /\
  snd st' !! authSlice.REFRESH_KEY = Some (TokenResponse.refresh_token body) /\
  AuthState.user (fst st') = AuthState.user state /\
  AuthState.isLoading (fst st') = AuthState.isLoading state /\
  AuthState.error (fst st') = AuthState.error state /\
  forall next next' : string -> authSlice.refresh_response,
    next (TokenResponse.refresh_token body) = next' (TokenResponse.refresh_token body) ->
    authThunks.dispatch_refreshAccessToken st' next =
    authThunks.dispatch_refreshAccessToken st' next'.
Proof.
  intros Hrt Hne Hok st'. subst st'.
  unfold authThunks.dispatch_refreshAccessToken at 1 2 3 4 5 6 7.
  assert (authSlice.refreshAccessToken (fst (state, ls)) server =
          authSlice.refreshAccessToken_fulfilled body) as Hact.
  { unfold authSlice.refreshAccessToken. simpl. rewrite Hrt. simpl.
    apply String.eqb_neq in Hne. rewrite Hne, Hok. reflexivity. }
  unfold authThunks.dispatch_refreshAccessToken. rewrite Hact. simpl.
  destruct (store_tokens_lookup (TokenResponse.access_token body)
              (TokenResponse.refresh_token body) ls) as [Ha Hr].
  repeat (split; [first [reflexivity | exact Ha | exact Hr] |]).
  intros next next' Hsame. unfold authSlice.refreshAccessToken. simpl.
  rewrite Hsame. reflexivity.
Qed.

Lemma refresh_rotates_stored_pair_witness :
  let st' := authThunks.dispatch_refreshAccessToken
               (Scenario.auth_C, Scenario.storage_C)
               (fun _ => authSlice.response_ok (TokenResponse.mk "access-2" "rt-2")) in
  AuthState.refreshToken (fst st') = Some "rt-2" /\
  snd st' !! authSlice.REFRESH_KEY = Some "rt-2".
Proof.
  destruct (refresh_rotates_stored_pair Scenario.auth_C Scenario.storage_C
              (fun _ => authSlice.response_ok (TokenResponse.mk "access-2" "rt-2"))
              "rt-1" (TokenResponse.mk "access-2" "rt-2"))
    as (_ & Hr & _ & Hlr & _).
  - reflexivity.
  - discriminate.
  - reflexivity.
  - split; [exact Hr | exact Hlr].
Defined.

(** ** The add-cluster form: tags, the edit round trip and the upload *)

Section StringFacts.

Lemma split_not_nil sep s : JsString.split sep s <> [].
Proof.
  destruct s as [|c s]; simpl; [discriminate |].
  destruct (Ascii.eqb c sep); [discriminate |].
  destruct (JsString.split sep s); discriminate.
Qed.

Lemma split_comma_split s :
  AddClusterModal.split_comma s = JsString.split ","%char s.
Proof.
  induction s as [|c s IH]; simpl; [reflexivity |]. rewrite IH. reflexivity.
Qed.

(** A string without the separator is one piece. *)
Lemma split_without sep s :
  JsString.includes sep s = false -> JsString.split sep s = [s].
Proof.
  induction s as [|c s IH]; simpl; [reflexivity |].
  intros H. apply orb_false_iff in H as [Hc Hs].
  rewrite Hc, (IH Hs). reflexivity.
Qed.

(** Splitting after a first piece that is free of the separator. *)
Lemma split_app sep a b :
  JsString.includes sep a = false ->
  JsString.split sep (a ++ String sep b)%string = a :: JsString.split sep b.
Proof.
  induction a as [|c a IH]; simpl.
  - intros _. rewrite Ascii.eqb_refl. reflexivity.
  - intros H. apply orb_false_iff in H as [Hc Ha].
    rewrite Hc, (IH Ha). reflexivity.
Qed.

(** No piece contains the separator. *)
Lemma split_pieces sep s :
  Forall (fun piece => JsString.includes sep piece = false) (JsString.split sep s).
Proof.
  induction s as [|c s IH]; simpl.
  - constructor; [reflexivity | constructor].
  - destruct (Ascii.eqb c sep) eqn:Hc.
    + constructor; [reflexivity | exact IH].
    + destruct (JsString.split sep s) as [|t ts].
      * constructor; [simpl; rewrite Hc; reflexivity | constructor].
      * inversion IH as [|? ? Ht Hts]; subst.
        constructor; [simpl; rewrite Hc; exact Ht | exact Hts].
Qed.

Lemma includes_trimStart c s :
  JsString.includes c s = false -> JsString.includes c (Js.trimStart s) = false.
Proof.
  induction s as [|d s IH]; simpl; [reflexivity |].
  intros H. destruct (Js.is_white_space d); [| exact H].
  apply IH. apply orb_false_iff in H. tauto.
Qed.

Lemma includes_trimEnd c s :
  JsString.includes c s = false -> JsString.includes c (Js.trimEnd s) = false.
Proof.
  induction s as [|d s IH]; simpl; [reflexivity |].
  intros H. apply orb_false_iff in H as [Hd Hs]. specialize (IH Hs).
  destruct (Js.trimEnd s) as [|e t].
  - destruct (Js.is_white_space d); simpl; [reflexivity |].
    rewrite Hd. reflexivity.
  - simpl in *. rewrite Hd. exact IH.
Qed.

Lemma includes_trim c s :
  JsString.includes c s = false -> JsString.includes c (Js.trim s) = false.
Proof.
  intros H. unfold Js.trim. apply includes_trimEnd, includes_trimStart, H.
Qed.

Lemma trimEnd_idempotent s : Js.trimEnd (Js.trimEnd s) = Js.trimEnd s.
Proof.
  induction s as [|c s IH]; simpl; [reflexivity |].
  destruct (Js.trimEnd s) as [|d t] eqn:Ht.
  - destruct (Js.is_white_space c) eqn:Hc; simpl; [reflexivity |].
    rewrite Hc. reflexivity.
  - change (Js.trimEnd (String c (String d t))) with
      (match Js.trimEnd (String d t) with
       | EmptyString => if Js.is_white_space c then EmptyString else String c EmptyString
       | u => String c u
       end).
    rewrite IH. reflexivity.
Qed.

Lemma trimStart_idempotent s : Js.trimStart (Js.trimStart s) = Js.trimStart s.
Proof.
  induction s as [|c s IH]; simpl; [reflexivity |].
  destruct (Js.is_white_space c) eqn:Hc; [exact IH |].
  simpl. rewrite Hc. reflexivity.
Qed.

Lemma trimStart_trimEnd s :
  Js.trimStart s = s -> Js.trimStart (Js.trimEnd s) = Js.trimEnd s.
Proof.
  destruct s as [|c s]; [reflexivity |].
  simpl. destruct (Js.is_white_space c) eqn:Hc.
  - intros H. exfalso.
    assert (String.length (Js.trimStart s) <= String.length s)%nat as Hle.
    { clear. induction s as [|d s IH]; simpl; [lia |].
      destruct (Js.is_white_space d); simpl; lia. }
    rewrite H in Hle. simpl in Hle. lia.
  - intros _. destruct (Js.trimEnd s); simpl; rewrite Hc; reflexivity.
Qed.

Lemma trim_idempotent s : Js.trim (Js.trim s) = Js.trim s.
Proof.
  unfold Js.trim.
  rewrite (trimStart_trimEnd (Js.trimStart s)) by apply trimStart_idempotent.
  apply trimEnd_idempotent.
Qed.

(** The pieces of [tags.join(', ')] for tags without a comma: the first
    tag, and every other tag after a space. *)
Lemma split_join_tags t tags :
  Forall (fun t => JsString.includes ","%char t = false) (t :: tags) ->
  JsString.split ","%char (JsString.join ", " (t :: tags)) =
  t :: map (String " "%char) tags.
Proof.
  revert t. induction tags as [|t' tags IH]; intros t H.
  - simpl. apply split_without. inversion H; assumption.
  - inversion H as [|? ? Ht Hrest]; subst.
    change (JsString.join ", " (t :: t' :: tags)) with
      (t ++ String ","%char (String " "%char (JsString.join ", " (t' :: tags))))%string.
    rewrite split_app by exact Ht.
    change (JsString.split ","%char (String " "%char (JsString.join ", " (t' :: tags))))
      with (match JsString.split ","%char (JsString.join ", " (t' :: tags)) with
            | [] => [String " "%char EmptyString]
            | u :: us => String " "%char u :: us
            end).
    rewrite (IH t' Hrest). reflexivity.
Qed.

Lemma map_trim_spaced tags :
  map Js.trim (map (String " "%char) tags) = map Js.trim tags.
Proof. rewrite map_map. reflexivity. Qed.

(** What the form makes of the joined tags of a cluster. *)
Lemma tagArray_join tags :
  Forall (fun t => JsString.includes ","%char t = false) tags ->
  AddClusterModal.tagArray (JsString.join ", " tags) =
  List.filter (fun t => negb (String.eqb t "")) (map Js.trim tags).
Proof.
  intros H. unfold AddClusterModal.tagArray. rewrite split_comma_split.
  destruct tags as [|t tags]; [reflexivity |].
  rewrite (split_join_tags t tags H).
  change (map Js.trim (t :: map (String " "%char) tags)) with
    (Js.trim t :: map Js.trim (map (String " "%char) tags)).
  rewrite map_trim_spaced. reflexivity.
Qed.

Lemma filter_trimmed_tags tags :
  Forall (fun t => t <> "" /\ Js.trim t = t) tags ->
  List.filter (fun t => negb (String.eqb t "")) (map Js.trim tags) = tags.
Proof.
  induction 1 as [|t tags [Hne Htrim] _ IH]; simpl; [reflexivity |].
  rewrite Htrim. apply String.eqb_neq in Hne. rewrite Hne. simpl.
  rewrite IH. reflexivity.
Qed.

Lemma startsWith_app p s :
  JsString.startsWith p s = true -> exists rest, s = (p ++ rest)%string.
Proof.
  unfold JsString.startsWith. revert s.
  induction p as [|c p IH]; intros s.
  - intros _. exists s. reflexivity.
  - destruct s as [|d s]; simpl; [discriminate |].
    destruct (Ascii.ascii_dec c d) as [<- | Hne]; [| discriminate].
    intros H. destruct (IH s H) as [rest ->]. exists rest. reflexivity.
Qed.

End StringFacts.

(** X19: the tags the form submits are clean, whatever was typed: no tag
    is empty, none contains a comma, none starts or ends with white space;
    and the [tags] field of the request is never an empty array. *)
Theorem submitted_tags_are_clean (tags : string) :
  Forall (fun t => t <> "" /\ JsString.includes ","%char t = false /\ Js.trim t = t)
         (AddClusterModal.tagArray tags) /\
  AddClusterModal.nonempty_or_undefined (AddClusterModal.tagArray tags) <> Some [].
Proof.
  split.
  - unfold AddClusterModal.tagArray. rewrite split_comma_split.
    apply List.Forall_forall. intros t Ht.
    apply filter_In in Ht as [Hin Hne].
    apply in_map_iff in Hin as (piece & <- & Hpiece).
    split; [apply String.eqb_neq, negb_true_iff, Hne |].
    split; [| apply trim_idempotent].
    apply includes_trim.
    pose proof (split_pieces ","%char tags) as Hall.
    rewrite List.Forall_forall in Hall. apply Hall. exact Hpiece.
  - destruct (AddClusterModal.tagArray tags); simpl; discriminate.
Qed.

(** X20: opening the form on a cluster and submitting it unchanged sends
    the cluster's own values back: when the name and the context are not
    blank and every tag is clean (not empty, no comma, no white space
    around it), [updateCluster] is dispatched for the cluster's id with the
    trimmed name and context and with exactly the cluster's tags; the
    kubeconfig is the one left in the form, if any. *)
Theorem edit_round_trip (c : Cluster.t) (f : AddClusterModal.form) :
  Js.trim (Cluster.name c) <> "" ->
  Js.trim (Cluster.context c) <> "" ->
  Forall (fun t => t <> "" /\ JsString.includes ","%char t = false /\ Js.trim t = t)
         (Cluster.tags c) ->
  AddClusterModal.handleSubmit (Some c) (AddClusterModalEffects.useEffect (Some c) f) =
  AddClusterModal.dispatch_updateCluster (Cluster.id c)
    (Js.trim (Cluster.name c))
    (AddClusterModal.trimmed_or_undefined (Js.or_else (Cluster.description c) ""))
    (Js.trim (Cluster.context c))
    (AddClusterModal.nonempty_or_undefined (Cluster.tags c))
    (AddClusterModal.trimmed_or_undefined (AddClusterModal.kubeconfig f)).
Proof.
  intros Hname Hcontext Htags.
  unfold AddClusterModal.handleSubmit, AddClusterModalEffects.useEffect.
  cbn [AddClusterModal.name AddClusterModal.context AddClusterModal.tags
       AddClusterModal.description AddClusterModal.kubeconfig].
  apply String.eqb_neq in Hname, Hcontext. rewrite Hname, Hcontext.
  assert (SimplifiedClusterForm.or_string (JsString.join ", " (Cluster.tags c)) "" =
          JsString.join ", " (Cluster.tags c)) as ->.
  { unfold SimplifiedClusterForm.or_string.
    destruct (String.eqb_spec (JsString.join ", " (Cluster.tags c)) "") as [-> |];
      reflexivity. }
  rewrite tagArray_join, filter_trimmed_tags; [reflexivity | |].
  - eapply List.Forall_impl; [| exact Htags]. simpl. tauto.
  - eapply List.Forall_impl; [| exact Htags]. simpl. tauto.
Qed.

Lemma edit_round_trip_witness :
  AddClusterModal.handleSubmit
    (Some (Cluster.mk "c-3" "edge" (Some "edge sites") "edge-admin" false false None 0 0
                      ["eu"; "blue"] Scenario.alice "2026-01-04T10:00:00Z"
                      "2026-01-04T10:00:00Z" None))
    (AddClusterModalEffects.useEffect
       (Some (Cluster.mk "c-3" "edge" (Some "edge sites") "edge-admin" false false None 0 0
                         ["eu"; "blue"] Scenario.alice "2026-01-04T10:00:00Z"
                         "2026-01-04T10:00:00Z" None))
       (AddClusterModal.mk_form "" "" "" "" "")) =
  AddClusterModal.dispatch_updateCluster "c-3" "edge" (Some "edge sites") "edge-admin"
    (Some ["eu"; "blue"]) None.
Proof.
  rewrite edit_round_trip.
  - reflexivity.
  - discriminate.
  - discriminate.
  - repeat constructor; discriminate.
Defined.

(** X21: an uploaded kubeconfig always becomes the kubeconfig field. The
    context field changes only when a line starts with [current-context:];
    it then takes what follows that prefix on the first such line, up to
    the next colon and trimmed, so it never contains a colon, and it is the
    whole trimmed value when the value has no colon. The other fields are
    left as they are. *)
Theorem file_upload_extracts_context (content : string) (f : AddClusterModal.form) :
  let f' := AddClusterModalEffects.handleFileUpload content f in
  AddClusterModal.kubeconfig f' = content /\
  AddClusterModal.name f' = AddClusterModal.name f /\
  AddClusterModal.description f' = AddClusterModal.description f /\
  AddClusterModal.tags f' = AddClusterModal.tags f /\
  match find (JsString.startsWith "current-context:")
             (JsString.split "010"%char content) with
  | None => AddClusterModal.context f' = AddClusterModal.context f
  | Some line =>
      exists value segment rest,
        line = ("current-context:" ++ value)%string /\
        JsString.split ":"%char value = segment :: rest /\
        AddClusterModal.context f' = Js.trim segment /\
        JsString.includes ":"%char (AddClusterModal.context f') = false /\
        (JsString.includes ":"%char value = false ->
         AddClusterModal.context f' = Js.trim value)
  end.
Proof.
  intros f'. subst f'. unfold AddClusterModalEffects.handleFileUpload.
  destruct (find (JsString.startsWith "current-context:")
                 (JsString.split "010"%char content)) as [line|] eqn:Hfind;
    [| repeat split; reflexivity].
  apply find_some in Hfind as [_ Hstarts].
  destruct (startsWith_app _ _ Hstarts) as [value ->].
  destruct (JsString.split ":"%char value) as [|segment rest] eqn:Hsplit;
    [exfalso; exact (split_not_nil _ _ Hsplit) |].
  assert (JsString.split ":"%char ("current-context:" ++ value)%string =
          "current-context" :: segment :: rest) as Hline.
  { change ("current-context:" ++ value)%string with
      ("current-context" ++ String ":"%char value)%string.
    rewrite split_app by reflexivity. rewrite Hsplit. reflexivity. }
  rewrite Hline. simpl.
  repeat (split; [reflexivity |]).
  exists value, segment, rest.
  split; [reflexivity |]. split; [exact Hsplit |]. split; [reflexivity |].
  split.
  - apply includes_trim.
    pose proof (split_pieces ":"%char value) as Hall. rewrite Hsplit in Hall.
    inversion Hall; assumption.
  - intros Hnone. rewrite (split_without _ _ Hnone) in Hsplit.
    injection Hsplit as <- _. reflexivity.
Qed.

(** What [handleSubmit] does before any request is sent. It stops with a
    validation message, which is not empty, exactly when the name or the
    context is blank or, in create mode, the kubeconfig is blank. Otherwise
    it dispatches [createCluster] in create mode and [updateCluster] for the
    edited cluster's id in edit mode, and every string it sends is trimmed
    and not empty: name, context and (on create) kubeconfig always, the
    description and (on update) the kubeconfig unless they are left out. *)
Lemma handleSubmit_outcomes (cluster : option Cluster.t) (f : AddClusterModal.form) :
  match AddClusterModal.handleSubmit cluster f with
  | AddClusterModal.set_error message =>
      message <> "" /\
      (Js.trim (AddClusterModal.name f) = "" \/
       (cluster = None /\ Js.trim (AddClusterModal.kubeconfig f) = "") \/
       Js.trim (AddClusterModal.context f) = "")
  | AddClusterModal.dispatch_createCluster data =>
      cluster = None /\
      Js.trim (AddClusterModal.name f) <> "" /\
      Js.trim (AddClusterModal.kubeconfig f) <> "" /\
      Js.trim (AddClusterModal.context f) <> "" /\
      Forall (fun s => s <> "" /\ Js.trim s = s)
             ([ClusterCreate.name data; ClusterCreate.kubeconfig data;
               ClusterCreate.context data]
              ++ match ClusterCreate.description data with Some d => [d] | None => [] end)
  | AddClusterModal.dispatch_updateCluster id name description context tags kubeconfig =>
      (exists c, cluster = Some c /\ id = Cluster.id c) /\
      Js.trim (AddClusterModal.name f) <> "" /\
      Js.trim (AddClusterModal.context f) <> "" /\
      Forall (fun s => s <> "" /\ Js.trim s = s)
             ([name; context]
              ++ match description with Some d => [d] | None => [] end
              ++ match kubeconfig with Some k => [k] | None => [] end)
  end.
Proof.
  assert (forall s, Js.trim s <> "" -> Js.trim s <> "" /\ Js.trim (Js.trim s) = Js.trim s)
    as Hclean by (intros s H; split; [exact H | apply trim_idempotent]).
  assert (forall s, Forall (fun s => s <> "" /\ Js.trim s = s)
                      match AddClusterModal.trimmed_or_undefined s with
                      | Some d => [d]
                      | None => []
                      end) as Hopt.
  { intros s. unfold AddClusterModal.trimmed_or_undefined.
    destruct (String.eqb_spec (Js.trim s) "") as [_ | Hne]; [constructor |].
    constructor; [apply Hclean, Hne | constructor]. }
  unfold AddClusterModal.handleSubmit.
  destruct (String.eqb_spec (Js.trim (AddClusterModal.name f)) "") as [Hn | Hn].
  { split; [discriminate | left; exact Hn]. }
  destruct cluster as [c|].
  - destruct (String.eqb_spec (Js.trim (AddClusterModal.context f)) "") as [Hc | Hc].
    { split; [discriminate | right; right; exact Hc]. }
    split; [exists c; split; reflexivity |]. split; [exact Hn |]. split; [exact Hc |].
    constructor; [apply Hclean, Hn |]. constructor; [apply Hclean, Hc |].
    apply Forall_app. split; apply Hopt.
  - destruct (String.eqb_spec (Js.trim (AddClusterModal.kubeconfig f)) "") as [Hk | Hk].
    { split; [discriminate | right; left; split; [reflexivity | exact Hk]]. }
    destruct (String.eqb_spec (Js.trim (AddClusterModal.context f)) "") as [Hc | Hc].
    { split; [discriminate | right; right; exact Hc]. }
    split; [reflexivity |]. split; [exact Hn |]. split; [exact Hk |]. split; [exact Hc |].
    simpl. constructor; [apply Hclean, Hn |]. constructor; [apply Hclean, Hk |].
    constructor; [apply Hclean, Hc |]. apply Hopt.
Qed.

(** ** The onboarding form: detection, the submit button and the payload *)

Section Onboarding.
Import SimplifiedClusterFormState.

Lemma or_string_nonempty a b : b <> "" -> SimplifiedClusterForm.or_string a b <> "".
Proof.
  intros Hb. unfold SimplifiedClusterForm.or_string.
  destruct (String.eqb_spec a ""); assumption.
Qed.

Lemma or_string_left a b : a <> "" -> SimplifiedClusterForm.or_string a b = a.
Proof.
  intros Ha. unfold SimplifiedClusterForm.or_string.
  apply String.eqb_neq in Ha. rewrite Ha. reflexivity.
Qed.

Lemma find_some_length {A} (p : A -> bool) (l : list A) x :
  find p l = Some x -> (0 <? length l)%nat = true.
Proof. destruct l; [discriminate | reflexivity]. Qed.

End Onboarding.

(** X22: when auto-detection succeeds and reports a current context with a
    name, the form selects it, shows no error, and enables the submit
    button unless a submission is running; submitting then imports that
    context under its own name, with no kubeconfig in the request. *)
Theorem onboarding_imports_current_context
    (s : SimplifiedClusterFormState.t) (data : AutoDetectResponse.t)
    (current : KubeContext.t) (current_context : string -> option string) :
  SimplifiedClusterFormState.autoDetect s = true ->
  AutoDetectResponse.success data = true ->
  find KubeContext.is_current (AutoDetectResponse.contexts data) = Some current ->
  KubeContext.name current <> "" ->
  let s' := SimplifiedClusterFormState.detectClusters (clusterSlice.resolved data) s in
  SimplifiedClusterFormState.contexts s' = AutoDetectResponse.contexts data /\
  SimplifiedClusterFormState.error s' = "" /\
  SimplifiedClusterFormState.detecting s' = false /\
  SimplifiedClusterFormState.submit_disabled s' = SimplifiedClusterFormState.loading s /\
  SimplifiedClusterForm.handleSubmit current_context (SimplifiedClusterFormState.form s') =
    SimplifiedClusterForm.mk_payload
      (KubeContext.name current)
      (String.append "Imported from " (KubeContext.name current))
      (Some (KubeContext.name current)) None None.
Proof.
  intros Hauto Hsuccess Hfind Hname s'. subst s'.
  unfold SimplifiedClusterFormState.detectClusters.
  rewrite Hsuccess, (find_some_length _ _ _ Hfind), Hfind. simpl.
  split; [reflexivity |]. split; [reflexivity |]. split; [reflexivity |].
  unfold SimplifiedClusterFormState.submit_disabled, SimplifiedClusterFormState.form,
    SimplifiedClusterForm.handleSubmit. simpl.
  rewrite Hauto. apply String.eqb_neq in Hname. simpl. rewrite Hname. simpl.
  split; [destruct (SimplifiedClusterFormState.loading s); reflexivity |].
  unfold SimplifiedClusterForm.or_string. rewrite Hname. reflexivity.
Qed.

Lemma onboarding_imports_current_context_witness :
  SimplifiedClusterForm.handleSubmit (fun _ => None)
    (SimplifiedClusterFormState.form
       (SimplifiedClusterFormState.detectClusters
          (clusterSlice.resolved
             (AutoDetectResponse.mk true "Found 2 contexts"
                [ KubeContext.mk "kind-dev" "kind-dev" "kind-dev" "default"
                                 "https://127.0.0.1:6443" false;
                  KubeContext.mk "prod-admin" "prod" "admin" "default"
                                 "https://10.0.0.1:6443" true ]
                (Some "prod-admin") "~/.kube/config"))
          SimplifiedClusterFormState.initialState)) =
  SimplifiedClusterForm.mk_payload "prod-admin" "Imported from prod-admin"
    (Some "prod-admin") None None.
Proof.
  destruct (onboarding_imports_current_context
              SimplifiedClusterFormState.initialState
              (AutoDetectResponse.mk true "Found 2 contexts"
                 [ KubeContext.mk "kind-dev" "kind-dev" "kind-dev" "default"
                                  "https://127.0.0.1:6443" false;
                   KubeContext.mk "prod-admin" "prod" "admin" "default"
                                  "https://10.0.0.1:6443" true ]
                 (Some "prod-admin") "~/.kube/config")
              (KubeContext.mk "prod-admin" "prod" "admin" "default"
                              "https://10.0.0.1:6443" true)
              (fun _ => None)) as (_ & _ & _ & _ & Hpayload).
  - reflexivity.
  - reflexivity.
  - reflexivity.
  - discriminate.
  - exact Hpayload.
Defined.

(** X23: when auto-detection fails (the call throws, the answer is not a
    success, or it lists no context) the form switches to manual mode with
    an error message that is not empty; the contexts, the selection, the
    name and the pasted kubeconfig are left as they are, and the submit
    button stays disabled while no kubeconfig is pasted. *)
Theorem onboarding_failed_detection_goes_manual
    (s : SimplifiedClusterFormState.t)
    (answer : clusterSlice.api_result AutoDetectResponse.t) :
  match answer with
  | clusterSlice.resolved data =>
      AutoDetectResponse.success data = false \/ AutoDetectResponse.contexts data = []
  | clusterSlice.thrown _ => True
  end ->
  let s' := SimplifiedClusterFormState.detectClusters answer s in
  SimplifiedClusterFormState.autoDetect s' = false /\
  SimplifiedClusterFormState.error s' <> "" /\
  SimplifiedClusterFormState.detecting s' = false /\
  SimplifiedClusterFormState.contexts s' = SimplifiedClusterFormState.contexts s /\
  SimplifiedClusterFormState.selectedContext s' =
    SimplifiedClusterFormState.selectedContext s /\
  SimplifiedClusterFormState.clusterName s' = SimplifiedClusterFormState.clusterName s /\
  SimplifiedClusterFormState.manualConfig s' = SimplifiedClusterFormState.manualConfig s /\
  SimplifiedClusterFormState.submit_disabled s' =
    SimplifiedClusterFormState.loading s
    || String.eqb (SimplifiedClusterFormState.manualConfig s) "".
Proof.
  intros Hfailed s'. subst s'.
  unfold SimplifiedClusterFormState.detectClusters.
  destruct answer as [data | message].
  - assert (AutoDetectResponse.success data
            && (0 <? length (AutoDetectResponse.contexts data))%nat = false) as ->.
    { destruct Hfailed as [-> | ->]; [reflexivity | apply andb_false_r]. }
    unfold SimplifiedClusterFormState.submit_disabled. simpl.
    repeat (split; [first [reflexivity | apply or_string_nonempty; discriminate] |]).
    rewrite orb_false_r. reflexivity.
  - unfold SimplifiedClusterFormState.submit_disabled. simpl.
    repeat (split; [first [reflexivity | discriminate] |]).
    rewrite orb_false_r. reflexivity.
Qed.

Lemma onboarding_failed_detection_goes_manual_witness :
  SimplifiedClusterFormState.detectClusters
    (clusterSlice.resolved
       (AutoDetectResponse.mk true "" [] None "~/.kube/config"))
    SimplifiedClusterFormState.initialState =
  SimplifiedClusterFormState.mk false false false [] "" "" ""
    "No contexts found in ~/.kube/config".
Proof.
  destruct (onboarding_failed_detection_goes_manual
              SimplifiedClusterFormState.initialState
              (clusterSlice.resolved
                 (AutoDetectResponse.mk true "" [] None "~/.kube/config")))
    as (Hauto & _).
  - right. reflexivity.
  - reflexivity.
Defined.

(** X24: whenever the submit button is enabled, the request the form sends
    has a name that is not empty and names its cluster in exactly one way:
    in auto-detect mode by a selected context that is not empty, with no
    kubeconfig and no context; in manual mode by a kubeconfig text that is
    not empty and a context that is not empty, with no context name. *)
Theorem onboarding_enabled_submit_payload
    (s : SimplifiedClusterFormState.t) (current_context : string -> option string) :
  SimplifiedClusterFormState.submit_disabled s = false ->
  let payload :=
    SimplifiedClusterForm.handleSubmit current_context (SimplifiedClusterFormState.form s) in
  SimplifiedClusterForm.name payload <> "" /\
  if SimplifiedClusterFormState.autoDetect s then
    SimplifiedClusterForm.context_name payload =
      Some (SimplifiedClusterFormState.selectedContext s) /\
    SimplifiedClusterFormState.selectedContext s <> "" /\
    SimplifiedClusterForm.kubeconfig payload = None /\
    SimplifiedClusterForm.context payload = None
  else
    SimplifiedClusterForm.kubeconfig payload =
      Some (SimplifiedClusterFormState.manualConfig s) /\
    SimplifiedClusterFormState.manualConfig s <> "" /\
    SimplifiedClusterForm.context_name payload = None /\
    exists context, SimplifiedClusterForm.context payload = Some context /\ context <> "".
Proof.
  intros Henabled payload. subst payload.
  unfold SimplifiedClusterFormState.submit_disabled in Henabled.
  apply orb_false_iff in Henabled as [Henabled Hmanual].
  apply orb_false_iff in Henabled as [_ Hauto].
  unfold SimplifiedClusterForm.handleSubmit, SimplifiedClusterFormState.form. simpl.
  destruct (SimplifiedClusterFormState.autoDetect s); simpl in *.
  - split; [do 2 (apply or_string_nonempty); discriminate |].
    split; [reflexivity |]. split; [apply String.eqb_neq, Hauto |].
    split; reflexivity.
  - split; [do 2 (apply or_string_nonempty); discriminate |].
    split; [reflexivity |]. split; [apply String.eqb_neq, Hmanual |].
    split; [reflexivity |].
    eexists. split; [reflexivity |]. apply or_else_nonempty. discriminate.
Qed.

Lemma onboarding_enabled_submit_payload_witness :
  SimplifiedClusterForm.kubeconfig
    (SimplifiedClusterForm.handleSubmit (fun _ => None)
       (SimplifiedClusterFormState.form
          (SimplifiedClusterFormState.mk false false false [] "" "apiVersion: v1" "" "")))
  = Some "apiVersion: v1".
Proof.
  destruct (onboarding_enabled_submit_payload
              (SimplifiedClusterFormState.mk false false false [] "" "apiVersion: v1" "" "")
              (fun _ => None)) as (_ & Hk & _).
  - reflexivity.
  - exact Hk.
Defined.

(** ** The auth context: [fetchUser] and [refreshToken] *)

Section AuthContextFacts.
Import AuthContext.

Lemma context_keys_differ : TOKEN_KEY <> REFRESH_TOKEN_KEY.
Proof. discriminate. Qed.

Lemma setTokens_lookup access refresh (ls : gmap string string) :
  getAccessToken (setTokens access refresh ls) = Some access /\
  getRefreshToken (setTokens access refresh ls) = Some refresh.
Proof.
  unfold getAccessToken, getRefreshToken, setTokens. split.
  - rewrite lookup_insert_ne by (symmetry; exact context_keys_differ).
    apply lookup_insert_eq.
  - apply lookup_insert_eq.
Qed.

Lemma clearTokens_lookup (ls : gmap string string) :
  getAccessToken (clearTokens ls) = None /\ getRefreshToken (clearTokens ls) = None.
Proof.
  unfold getAccessToken, getRefreshToken, clearTokens. split.
  - rewrite lookup_delete_ne by (symmetry; exact context_keys_differ).
    apply lookup_delete_eq.
  - apply lookup_delete_eq.
Qed.

Lemma truthy_nonempty token : token <> "" -> Js.truthy (Some token) = true.
Proof. intros H. simpl. apply negb_true_iff, String.eqb_neq, H. Qed.

(** The two functions, one call deep. *)
Lemma fetchUser_S fuel srv s ls :
  fetchUser (S fuel) srv (s, ls) =
  if Js.truthy (getAccessToken ls) then
    match getAccessToken ls with
    | Some token =>
        match me srv token with
        | me_ok userData => Some (mk (Some userData) false, ls)
        | me_status status =>
            if (status =? 401)%Z then
              match refreshToken fuel srv (s, ls) with
              | Some ((s', ls'), refreshed) =>
                  if refreshed then Some (mk (user s') false, ls')
                  else Some (mk None false, clearTokens ls')
              | None => None
              end
            else Some (mk (user s) false, ls)
        | me_thrown => Some (mk (user s) false, ls)
        end
    | None => Some (mk (user s) false, ls)
    end
  else Some (mk (user s) false, ls).
Proof. reflexivity. Qed.

Lemma refreshToken_S fuel srv s ls :
  refreshToken (S fuel) srv (s, ls) =
  if Js.truthy (getRefreshToken ls) then
    match getRefreshToken ls with
    | Some refreshTokenValue =>
        match refresh srv refreshTokenValue with
        | authSlice.response_ok data =>
            match fetchUser fuel srv
                    (s, setTokens (TokenResponse.access_token data)
                                  (TokenResponse.refresh_token data) ls) with
            | Some st' => Some (st', true)
            | None => None
            end
        | authSlice.response_not_ok | authSlice.network_error => Some ((s, ls), false)
        end
    | None => Some ((s, ls), false)
    end
  else Some ((s, ls), false).
Proof. reflexivity. Qed.

(** A refresh that cannot succeed returns [false] and changes nothing. *)
Lemma refreshToken_refused fuel srv s ls :
  Js.truthy (getRefreshToken ls) = false \/
  (exists rt, getRefreshToken ls = Some rt /\
              forall data, refresh srv rt <> authSlice.response_ok data) ->
  refreshToken (S fuel) srv (s, ls) = Some ((s, ls), false).
Proof.
  intros H. rewrite refreshToken_S.
  destruct (Js.truthy (getRefreshToken ls)) eqn:Ht; [| reflexivity].
  destruct H as [H | (rt & Hrt & Hno)]; [discriminate |].
  rewrite Hrt. destruct (refresh srv rt) eqn:Hr; try reflexivity.
  exfalso. exact (Hno body eq_refl).
Qed.

(** With more calls allowed, calls that settled settle in the same way. *)
Lemma fuel_monotone fuel srv :
  (forall st r, fetchUser fuel srv st = Some r -> fetchUser (S fuel) srv st = Some r) /\
  (forall st r, refreshToken fuel srv st = Some r -> refreshToken (S fuel) srv st = Some r).
Proof.
  induction fuel as [|fuel [IHf IHr]]; [split; intros; discriminate |].
  split; intros [s ls] r H.
  - rewrite fetchUser_S in *.
    destruct (Js.truthy (getAccessToken ls)); [| exact H].
    destruct (getAccessToken ls) as [token|]; [| exact H].
    destruct (me srv token) as [u | status |]; try exact H.
    destruct (status =? 401)%Z; [| exact H].
    destruct (refreshToken fuel srv (s, ls)) as [[[s' ls'] refreshed]|] eqn:Hr;
      [| discriminate].
    rewrite (IHr _ _ Hr). exact H.
  - rewrite refreshToken_S in *.
    destruct (Js.truthy (getRefreshToken ls)); [| exact H].
    destruct (getRefreshToken ls) as [rt|]; [| exact H].
    destruct (refresh srv rt) as [data | |]; try exact H.
    destruct (fetchUser fuel srv _) as [st'|] eqn:Hf; [| discriminate].
    rewrite (IHf _ _ Hf). exact H.
Qed.

End AuthContextFacts.

(** X25: in the auth context, a stored access token the server answers
    with 401, with no refresh token stored or a refresh the server does not
    accept, ends the session: [fetchUser] settles with no user, loading
    over and both tokens removed from [localStorage]; a later [fetchUser]
    then sends no request and changes nothing. *)
Theorem auth_context_refused_session_is_cleared
    (fuel : nat) (srv : AuthContext.server) (s : AuthContext.t)
    (ls : gmap string string) (token : string) :
  AuthContext.getAccessToken ls = Some token ->
  token <> "" ->
  AuthContext.me srv token = AuthContext.me_status 401 ->
  (Js.truthy (AuthContext.getRefreshToken ls) = false \/
   exists rt, AuthContext.getRefreshToken ls = Some rt /\
              forall data, AuthContext.refresh srv rt <> authSlice.response_ok data) ->
  let settled := (AuthContext.mk None false, AuthContext.clearTokens ls) in
  AuthContext.fetchUser (S (S fuel)) srv (s, ls) = Some settled /\
  AuthContext.getAccessToken (snd settled) = None /\
  AuthContext.getRefreshToken (snd settled) = None /\
  AuthContext.fetchUser (S fuel) srv settled = Some settled.
Proof.
  intros Htoken Hne Hme Hrefused settled. subst settled.
  destruct (clearTokens_lookup ls) as [Ha Hr].
  split; [| split; [exact Ha | split; [exact Hr |]]].
  - rewrite fetchUser_S, Htoken, (truthy_nonempty token Hne), Hme, Z.eqb_refl.
    rewrite (refreshToken_refused fuel srv s ls Hrefused). reflexivity.
  - rewrite fetchUser_S, Ha. reflexivity.
Qed.

Lemma auth_context_refused_session_is_cleared_witness :
  AuthContext.fetchUser 2
    (AuthContext.mk_server (fun _ => AuthContext.me_status 401)
                           (fun _ => authSlice.response_not_ok))
    (AuthContext.initialState, Scenario.storage_C) =
  Some (AuthContext.mk None false, AuthContext.clearTokens Scenario.storage_C).
Proof.
  destruct (auth_context_refused_session_is_cleared 0
              (AuthContext.mk_server (fun _ => AuthContext.me_status 401)
                                     (fun _ => authSlice.response_not_ok))
              AuthContext.initialState Scenario.storage_C "access-1")
    as (Hsettled & _).
  - reflexivity.
  - discriminate.
  - reflexivity.
  - right. exists "rt-1". split; [reflexivity | discriminate].
  - exact Hsettled.
Defined.

(** X26: a 401 answered by a refresh the server accepts is repaired: the
    new pair replaces the stored one and, when the server accepts the new
    access token, [fetchUser] settles with that user and loading over. *)
Theorem auth_context_refresh_restores_user
    (fuel : nat) (srv : AuthContext.server) (s : AuthContext.t)
    (ls : gmap string string) (token rt : string)
    (data : TokenResponse.t) (userData : User.t) :
  AuthContext.getAccessToken ls = Some token ->
  token <> "" ->
  AuthContext.me srv token = AuthContext.me_status 401 ->
  AuthContext.getRefreshToken ls = Some rt ->
  rt <> "" ->
  AuthContext.refresh srv rt = authSlice.response_ok data ->
  TokenResponse.access_token data <> "" ->
  AuthContext.me srv (TokenResponse.access_token data) = AuthContext.me_ok userData ->
  exists ls',
    AuthContext.fetchUser (S (S (S fuel))) srv (s, ls) =
      Some (AuthContext.mk (Some userData) false, ls') /\
    AuthContext.getAccessToken ls' = Some (TokenResponse.access_token data) /\
    AuthContext.getRefreshToken ls' = Some (TokenResponse.refresh_token data).
Proof.
  intros Htoken Hne Hme Hrt Hrtne Hrefresh Hane Hme'.
  exists (AuthContext.setTokens (TokenResponse.access_token data)
                                (TokenResponse.refresh_token data) ls).
  destruct (setTokens_lookup (TokenResponse.access_token data)
              (TokenResponse.refresh_token data) ls) as [Ha Hr].
  split; [| split; assumption].
  rewrite fetchUser_S, Htoken, (truthy_nonempty token Hne), Hme, Z.eqb_refl.
  rewrite refreshToken_S, Hrt, (truthy_nonempty rt Hrtne), Hrefresh.
  rewrite fetchUser_S, Ha, (truthy_nonempty _ Hane), Hme'. reflexivity.
Qed.

Lemma auth_context_refresh_restores_user_witness :
  exists ls',
    AuthContext.fetchUser 3
      (AuthContext.mk_server
         (fun token => if String.eqb token "access-2"
                       then AuthContext.me_ok
                              (User.mk "user-1" "alice@example.org" "Alice" None "local"
                                       true "2025-12-24T08:00:00Z")
                       else AuthContext.me_status 401)
         (fun _ => authSlice.response_ok (TokenResponse.mk "access-2" "rt-2")))
      (AuthContext.initialState, Scenario.storage_C) =
    Some (AuthContext.mk
            (Some (User.mk "user-1" "alice@example.org" "Alice" None "local" true
                           "2025-12-24T08:00:00Z")) false, ls') /\
    AuthContext.getAccessToken ls' = Some "access-2" /\
    AuthContext.getRefreshToken ls' = Some "rt-2".
Proof.
  apply (auth_context_refresh_restores_user 0
           (AuthContext.mk_server
              (fun token => if String.eqb token "access-2"
                            then AuthContext.me_ok
                                   (User.mk "user-1" "alice@example.org" "Alice" None
                                            "local" true "2025-12-24T08:00:00Z")
                            else AuthContext.me_status 401)
              (fun _ => authSlice.response_ok (TokenResponse.mk "access-2" "rt-2")))
           AuthContext.initialState Scenario.storage_C "access-1" "rt-1"
           (TokenResponse.mk "access-2" "rt-2")).
  - reflexivity.
  - discriminate.
  - reflexivity.
  - reflexivity.
  - discriminate.
  - reflexivity.
  - discriminate.
  - reflexivity.
Defined.

(** X27: nothing bounds the retries. Against a server that answers every
    access token with 401 and every refresh with a new pair, [fetchUser]
    and [refreshToken] call each other without end: with tokens stored,
    no number of nested calls lets [fetchUser] settle, so loading never
    ends. *)
Theorem auth_context_refresh_loop
    (srv : AuthContext.server) (s : AuthContext.t)
    (ls : gmap string string) (fuel : nat) :
  (forall token, AuthContext.me srv token = AuthContext.me_status 401) ->
  (forall rt, exists data,
      AuthContext.refresh srv rt = authSlice.response_ok data /\
      TokenResponse.access_token data <> "" /\
      TokenResponse.refresh_token data <> "") ->
  Js.truthy (AuthContext.getAccessToken ls) = true ->
  Js.truthy (AuthContext.getRefreshToken ls) = true ->
  AuthContext.fetchUser fuel srv (s, ls) = None.
Proof.
  intros Hme Hrefresh.
  enough (forall ls,
             Js.truthy (AuthContext.getAccessToken ls) = true ->
             Js.truthy (AuthContext.getRefreshToken ls) = true ->
             AuthContext.fetchUser fuel srv (s, ls) = None /\
             AuthContext.refreshToken fuel srv (s, ls) = None) as Hboth.
  { intros Ha Hr. apply (Hboth ls Ha Hr). }
  clear ls. induction fuel as [|fuel IH]; intros ls Ha Hr; [split; reflexivity |].
  split.
  - destruct (IH ls Ha Hr) as [_ Hloop].
    rewrite fetchUser_S, Ha, Hloop.
    destruct (AuthContext.getAccessToken ls) as [token|]; [| discriminate].
    rewrite Hme, Z.eqb_refl. reflexivity.
  - rewrite refreshToken_S, Hr.
    destruct (AuthContext.getRefreshToken ls) as [rt|] eqn:Hrt; [| discriminate].
    destruct (Hrefresh rt) as (data & -> & Hane & Hrne).
    destruct (setTokens_lookup (TokenResponse.access_token data)
                (TokenResponse.refresh_token data) ls) as [Ha' Hr'].
    destruct (IH (AuthContext.setTokens (TokenResponse.access_token data)
                    (TokenResponse.refresh_token data) ls)) as [-> _].
    + rewrite Ha'. apply truthy_nonempty, Hane.
    + rewrite Hr'. apply truthy_nonempty, Hrne.
    + reflexivity.
Qed.

Lemma auth_context_refresh_loop_witness :
  AuthContext.fetchUser 1000
    (AuthContext.mk_server (fun _ => AuthContext.me_status 401)
                           (fun rt => authSlice.response_ok
                                        (TokenResponse.mk "access" (String "r" rt))))
    (AuthContext.initialState, Scenario.storage_C) = None.
Proof.
  apply auth_context_refresh_loop.
  - reflexivity.
  - intros rt. eexists. split; [reflexivity |]. split; discriminate.
  - reflexivity.
  - reflexivity.
Defined.

(** X28: any other failure of [/api/auth/me] keeps the session: when the
    stored access token is answered by a status other than 401, or the
    call throws, [fetchUser] settles at once with loading over and leaves
    the user and [localStorage], the two tokens included, as they were. *)
Theorem auth_context_other_failures_keep_session
    (fuel : nat) (srv : AuthContext.server) (s : AuthContext.t)
    (ls : gmap string string) (token : string) :
  AuthContext.getAccessToken ls = Some token ->
  (AuthContext.me srv token = AuthContext.me_thrown \/
   exists status, AuthContext.me srv token = AuthContext.me_status status /\
                  status <> 401%Z) ->
  AuthContext.fetchUser (S fuel) srv (s, ls) =
    Some (AuthContext.mk (AuthContext.user s) false, ls).
Proof.
  intros Htoken Hfailure. rewrite fetchUser_S, Htoken.
  destruct (Js.truthy (Some token)); [| reflexivity].
  destruct Hfailure as [-> | (status & -> & Hstatus)]; [reflexivity |].
  apply Z.eqb_neq in Hstatus. rewrite Hstatus. reflexivity.
Qed.

Lemma auth_context_other_failures_keep_session_witness :
  AuthContext.fetchUser 1
    (AuthContext.mk_server (fun _ => AuthContext.me_status 503)
                           (fun _ => authSlice.response_not_ok))
    (AuthContext.initialState, Scenario.storage_C) =
  Some (AuthContext.mk None false, Scenario.storage_C).
Proof.
  apply (auth_context_other_failures_keep_session 0
           (AuthContext.mk_server (fun _ => AuthContext.me_status 503)
                                  (fun _ => authSlice.response_not_ok))
           AuthContext.initialState Scenario.storage_C "access-1").
  - reflexivity.
  - right. exists 503%Z. split; [reflexivity | discriminate].
Defined.

(** ** Entering and leaving a session *)

(** X29: the OAuth callback signs in through a reload. With both query
    parameters present and not empty it stores them; the slice then starts
    with exactly that pair, the route's effect asks for the user, and when
    the server accepts the access token the route shows its children. With
    a parameter missing or empty the callback does nothing. *)
Theorem oauth_callback_signs_in
    (access refresh : string) (ls : gmap string string)
    (server : string -> authThunks.me_answer) (u : User.t) :
  access <> "" ->
  refresh <> "" ->
  server access = authThunks.me_ok u ->
  exists ls',
    ProtectedRoute.oauth_callback (Some access) (Some refresh) ls = Some ls' /\
    AuthState.accessToken (authSlice.initialState ls') = Some access /\
    AuthState.refreshToken (authSlice.initialState ls') = Some refresh /\
    ProtectedRoute.fetches_user (authSlice.initialState ls') = true /\
    AuthState.user (fst (fst (authThunks.fetchCurrentUser
                                (authSlice.initialState ls', ls') server))) = Some u /\
    ProtectedRoute.ProtectedRoute
      (fst (fst (authThunks.fetchCurrentUser (authSlice.initialState ls', ls') server))) =
      ProtectedRoute.children /\
    snd (fst (authThunks.fetchCurrentUser (authSlice.initialState ls', ls') server)) = ls' /\
    forall other, Js.truthy other = false ->
      ProtectedRoute.oauth_callback other (Some refresh) ls = None /\
      ProtectedRoute.oauth_callback (Some access) other ls = None.
Proof.
  intros Ha Hr Hserver.
  exists (authSlice.store_tokens access refresh ls).
  destruct (store_tokens_lookup access refresh ls) as [Hla Hlr].
  pose proof (truthy_nonempty access Ha) as Hta.
  pose proof (truthy_nonempty refresh Hr) as Htr.
  assert (authThunks.fetchCurrentUser_settled
            (fst (authSlice.reducer
                    (authSlice.initialState (authSlice.store_tokens access refresh ls),
                     authSlice.store_tokens access refresh ls)
                    authSlice.fetchCurrentUser_pending)) server =
          authSlice.fetchCurrentUser_fulfilled u) as Hsettled.
  { apply fetchCurrentUser_settled_fulfilled. exists access.
    split; [exact Hla |]. split; assumption. }
  split.
  { unfold ProtectedRoute.oauth_callback. rewrite Hta, Htr. reflexivity. }
  split; [exact Hla |]. split; [exact Hlr |]. split.
  { unfold ProtectedRoute.fetches_user, authSlice.initialState. simpl.
    rewrite Hla. rewrite Hta. reflexivity. }
  unfold authThunks.fetchCurrentUser. cbn [fst snd]. rewrite Hsettled.
  split; [reflexivity |]. split; [reflexivity |]. split; [reflexivity |].
  intros other Hother. unfold ProtectedRoute.oauth_callback.
  rewrite Hother, andb_false_r. split; reflexivity.
Qed.

Lemma oauth_callback_signs_in_witness :
  exists ls',
    ProtectedRoute.oauth_callback (Some "access-1") (Some "rt-1") ∅ = Some ls' /\
    authSlice.initialState ls' =
      AuthState.mk None (Some "access-1") (Some "rt-1") false None.
Proof.
  destruct (oauth_callback_signs_in "access-1" "rt-1" ∅
              (fun _ => authThunks.me_ok
                          (User.mk "user-1" "alice@example.org" "Alice" None "local" true
                                   "2025-12-24T08:00:00Z"))
              (User.mk "user-1" "alice@example.org" "Alice" None "local" true
                       "2025-12-24T08:00:00Z"))
    as (ls' & Hcallback & Ha & Hr & _).
  - discriminate.
  - discriminate.
  - reflexivity.
  - exists ls'. split; [exact Hcallback |].
    unfold authSlice.initialState in *. simpl in Ha, Hr. rewrite Ha, Hr. reflexivity.
Defined.

(** X30: [logout] ends the session whatever the server does and whatever
    the state was: the user and both tokens leave the state, both tokens
    leave [localStorage] while every other key stays, the API client sends
    no [Authorization] header, the route's effect asks for no user, a
    refresh is rejected without a request, and a reload starts signed out.
    The request the thunk sends carries the refresh token exactly when one
    is stored and not empty. *)
Theorem logout_ends_the_session
    (state : AuthState.t) (ls headers : gmap string string)
    (server : string -> authSlice.refresh_response) :
  let st' := authThunks.run (state, ls) authThunks.logout in
  AuthState.user (fst st') = None /\
  AuthState.accessToken (fst st') = None /\
  AuthState.refreshToken (fst st') = None /\
  snd st' !! authSlice.ACCESS_KEY = None /\
  snd st' !! authSlice.REFRESH_KEY = None /\
  (forall k, k <> authSlice.ACCESS_KEY -> k <> authSlice.REFRESH_KEY ->
             snd st' !! k = ls !! k) /\
  api.request_interceptor (snd st') headers = headers /\
  ProtectedRoute.fetches_user (fst st') = false /\
  authSlice.refreshAccessToken (fst st') server = authSlice.refreshAccessToken_rejected /\
  authSlice.initialState (snd st') = AuthState.mk None None None false None /\
  (authThunks.logout_request state = None <->
   Js.truthy (AuthState.refreshToken state) = false).
Proof.
  intros st'. subst st'. unfold authThunks.run, authThunks.logout. simpl.
  destruct (remove_tokens_lookup ls) as [Ha Hr].
  repeat (split; [first [reflexivity | exact Ha | exact Hr] |]).
  split; [intros k Hka Hkr; apply remove_tokens_other; assumption |].
  split.
  { unfold api.request_interceptor.
    change "xkube_access_token" with authSlice.ACCESS_KEY. rewrite Ha. reflexivity. }
  split; [reflexivity |]. split; [reflexivity |]. split.
  { unfold authSlice.initialState. rewrite Ha, Hr. reflexivity. }
  unfold authThunks.logout_request.
  destruct (AuthState.refreshToken state) as [rt|]; simpl; [| tauto].
  destruct (String.eqb rt ""); simpl; split; intros; congruence.
Qed.

(** * The Registry and the slice that mirrors it *)

Section MirrorFacts.
Import Registry.
Implicit Types (rows L : list Cluster.t) (c b : Cluster.t) (st : state)
  (s : ClusterState.t).

(** [Load] finds the first of the owner's listed clusters with the id. *)
Lemma Load_List user id st : Load user id st = find (has_id id) (List user st).
Proof.
  unfold Load, List. induction (records st) as [|c rows IH]; [reflexivity |].
  simpl. destruct (owned_by user c) eqn:Ho; simpl.
  - rewrite andb_true_r. destruct (has_id id c); [reflexivity | exact IH].
  - rewrite andb_false_r. exact IH.
Qed.

Lemma find_marked id L :
  find Cluster.is_active (map (fun c => Cluster.set_is_active (has_id id c) c) L) =
  Cluster.set_is_active true <$> find (has_id id) L.
Proof.
  induction L as [|c L IH]; [reflexivity |].
  simpl. destruct (has_id id c); [reflexivity | exact IH].
Qed.

Lemma mark_absent id L :
  (forall c, In c L -> Cluster.id c <> id) ->
  map (fun c => Cluster.set_is_active (has_id id c) c) L =
  map (Cluster.set_is_active false) L.
Proof.
  intros H. apply List.map_ext_in. intros c Hc.
  assert (has_id id c = false) as ->; [| reflexivity].
  apply not_true_is_false. rewrite has_id_true. apply H. exact Hc.
Qed.

(** With distinct ids, marking the clusters by id is what the reducer of
    [activateCluster.fulfilled] does: deactivate all, then overwrite the
    first entry with the id. *)
Lemma mark_as_insert id L b :
  NoDup (map Cluster.id L) ->
  find (has_id id) L = Some b ->
  exists i,
    Js.findIndex (fun c => Js.str_eq (Cluster.id c) id) L = Some i /\
    (<[i := Cluster.set_is_active true b]> (map (Cluster.set_is_active false) L)) =
    map (fun c => Cluster.set_is_active (has_id id c) c) L.
Proof.
  induction L as [|c L IH]; simpl; intros Hnd Hfind; [discriminate |].
  apply NoDup_cons in Hnd as [Hnotin Hnd].
  unfold has_id, Js.str_eq in *.
  destruct (String.eqb (Cluster.id c) id) eqn:Hc.
  - injection Hfind as <-. exists 0%nat. split; [reflexivity |].
    simpl. f_equal. symmetry. apply mark_absent.
    intros x Hx Hid. apply Hnotin. apply String.eqb_eq in Hc.
    apply list_elem_of_In, in_map_iff. exists x. split; [congruence | exact Hx].
  - destruct (IH Hnd Hfind) as (i & Hi & Hins).
    exists (S i). split; [rewrite Hi; reflexivity |].
    simpl. f_equal. exact Hins.
Qed.

Lemma no_active_filter (q : Cluster.t -> bool) L :
  List.filter Cluster.is_active L = [] ->
  find Cluster.is_active (List.filter q L) = None.
Proof.
  induction L as [|c L IH]; [reflexivity |].
  simpl. destruct (Cluster.is_active c) eqn:Ha; [discriminate |].
  intros H. destruct (q c); simpl; rewrite ?Ha; apply IH, H.
Qed.

(** With at most one active cluster, the first active cluster after a
    deletion is the one before it, unless that is the deleted one. *)
Lemma find_active_delete id L :
  (length (List.filter Cluster.is_active L) <= 1)%nat ->
  find Cluster.is_active (List.filter (fun c => negb (has_id id c)) L) =
  match find Cluster.is_active L with
  | Some c => if has_id id c then None else Some c
  | None => None
  end.
Proof.
  induction L as [|c L IH]; [reflexivity |].
  simpl. destruct (Cluster.is_active c) eqn:Ha; simpl; intros Hlen.
  - destruct (has_id id c); simpl.
    + apply no_active_filter.
      destruct (List.filter Cluster.is_active L); [reflexivity | simpl in Hlen; lia].
    + rewrite Ha. reflexivity.
  - destruct (has_id id c); simpl; rewrite ?Ha; apply IH, Hlen.
Qed.

Lemma find_app_inactive L c :
  Cluster.is_active c = false ->
  find Cluster.is_active (L ++ [c]) = find Cluster.is_active L.
Proof.
  intros Hc. induction L as [|x L IH]; simpl; [rewrite Hc; reflexivity |].
  destruct (Cluster.is_active x); [reflexivity | exact IH].
Qed.

Lemma unique_by_id rows x y :
  NoDup (map Cluster.id rows) -> In x rows -> In y rows ->
  Cluster.id x = Cluster.id y -> x = y.
Proof.
  induction rows as [|c rows IH]; simpl; intros Hnd Hx Hy Hid; [contradiction |].
  apply NoDup_cons in Hnd as [Hnotin Hnd].
  assert (forall z, In z rows -> Cluster.id z <> Cluster.id c) as Hfresh.
  { intros z Hz Hzc. apply Hnotin. apply list_elem_of_In, in_map_iff.
    exists z. split; assumption. }
  destruct Hx as [-> | Hx], Hy as [-> | Hy].
  - reflexivity.
  - exfalso. apply (Hfresh y Hy). congruence.
  - exfalso. apply (Hfresh x Hx). congruence.
  - apply IH; assumption.
Qed.

Lemma filter_all {A} (q : A -> bool) (l : list A) :
  (forall x, In x l -> q x = true) -> List.filter q l = l.
Proof.
  induction l as [|a l IH]; [reflexivity |].
  intros H. simpl. rewrite (H a) by (left; reflexivity). f_equal.
  apply IH. intros x Hx. apply H. right. exact Hx.
Qed.

(** The owner's list after a [Delete] that found its cluster. *)
Lemma List_Delete ownerId id st c :
  Load ownerId id st = Some c ->
  List ownerId (snd (Delete ownerId id st)) =
  List.filter (fun x => negb (has_id id x)) (List ownerId st).
Proof.
  intros HL. rewrite (Delete_Ok _ _ _ _ HL). unfold List. simpl. apply filter_comm.
Qed.

(** No call of one owner changes what another owner lists. *)
Lemma step_other_owner st call other :
  keyed st ->
  match call with
  | call_Create ownerId _ _ _ _ | call_Activate ownerId _ | call_Delete ownerId _ =>
      ownerId <> other
  | call_Connect _ _ _ => True
  end ->
  List other (step st call) = List other st.
Proof.
  intros Hk Hne. destruct call as [o d i n a | o i | o i | o i a]; simpl.
  - destruct (fst (Create o d i n a st)) as [c | e] eqn:HC.
    + destruct (Create_Ok _ _ _ _ _ _ _ HC) as (Hrec & _ & Ho & _).
      unfold List. rewrite Hrec, List.filter_app. simpl.
      assert (owned_by other c = false) as ->; [| apply app_nil_r].
      apply not_true_is_false. rewrite owned_by_true. congruence.
    + rewrite (Create_Err_unchanged _ _ _ _ _ _ _ HC). reflexivity.
  - destruct (Load o i st) as [b|] eqn:HL.
    + rewrite (Activate_Ok _ _ _ _ HL). simpl.
      apply List_SetActive_other. congruence.
    + rewrite (Activate_NotFound _ _ _ HL). reflexivity.
  - destruct (Load o i st) as [b|] eqn:HL.
    + rewrite (Delete_Ok _ _ _ _ HL). unfold List. simpl.
      rewrite filter_comm. apply filter_all.
      intros x Hx. apply filter_In in Hx as [Hx Hox].
      apply negb_true_iff, not_true_is_false. rewrite has_id_true. intros Hid.
      destruct (Load_Some _ _ _ _ HL) as (Hb & Hbid & Hbo).
      assert (x = b) as -> by (apply (unique_by_id (records st) x b Hk Hx Hb); congruence).
      apply owned_by_true in Hox. congruence.
    + rewrite (Delete_NotFound _ _ _ HL). reflexivity.
  - destruct (Load o i st); [| reflexivity].
    unfold GetOrConnect. destruct (bool_decide _); [reflexivity |].
    destruct a; reflexivity.
Qed.

(** The slice counts the active clusters the Registry lists. *)
Lemma mirrors_active_count user st s :
  Mirror.mirrors user st s ->
  clusterSlice.active_count (ClusterState.clusters s) = active_count user st.
Proof. intros [Hc _]. unfold clusterSlice.active_count, active_count. rewrite Hc. reflexivity. Qed.

(** What a user's [Activate] that finds its cluster does to the slice. *)
Lemma mirror_Activate user st s id b :
  keyed st ->
  Mirror.mirrors user st s ->
  Load user id st = Some b ->
  Mirror.mirrors user (snd (Activate user id st))
    (clusterSlice.reducer s
       (clusterSlice.activateCluster_fulfilled (Cluster.set_is_active true b))).
Proof.
  intros Hk [Hc Ha] HL.
  rewrite (Activate_Ok _ _ _ _ HL). cbn [snd].
  destruct (Load_Some _ _ _ _ HL) as (_ & Hid & _).
  pose proof HL as Hfind. rewrite Load_List in Hfind.
  destruct (mark_as_insert id (List user st) b) as (i & Hi & Hins);
    [apply NoDup_ids_filter; exact Hk | exact Hfind |].
  rewrite (activate_fulfilled_found s (Cluster.set_is_active true b) i)
    by (simpl; rewrite Hc, Hid; exact Hi).
  unfold Mirror.mirrors, Mirror.active. simpl.
  rewrite List_SetActive, Hc, Hins, find_marked, Hfind. split; reflexivity.
Qed.

(** What a user's [Delete] that finds its cluster does to the slice. *)
Lemma mirror_Delete user st s id c :
  (active_count user st <= 1)%nat ->
  Mirror.mirrors user st s ->
  Load user id st = Some c ->
  Mirror.mirrors user (snd (Delete user id st))
    (clusterSlice.reducer s (clusterSlice.deleteCluster_fulfilled id)).
Proof.
  intros Hone [Hc Ha] HL.
  unfold Mirror.mirrors, Mirror.active.
  rewrite (List_Delete _ _ _ _ HL). simpl. rewrite Hc, Ha.
  split; [reflexivity |].
  rewrite find_active_delete by exact Hone. reflexivity.
Qed.

(** One call keeps the slice a mirror. *)
Lemma mirror_step user message st s call :
  keyed st ->
  (active_count user st <= 1)%nat ->
  Mirror.mirrors user st s ->
  Mirror.mirrors user (step st call)
    (clusterSlice.run s (Mirror.actions user message st call)).
Proof.
  intros Hk Hone Hm.
  assert (forall ownerId,
            match call with
            | call_Create o _ _ _ _ | call_Activate o _ | call_Delete o _ => o = ownerId
            | call_Connect _ _ _ => False
            end ->
            ownerId <> user ->
            Mirror.mirrors user (step st call) s) as Hother.
  { intros ownerId Hcall Hne. destruct Hm as [Hc Ha].
    unfold Mirror.mirrors, Mirror.active.
    rewrite (step_other_owner st call user Hk); [split; assumption |].
    destruct call; subst; try contradiction; exact Hne. }
  destruct call as [o d i n a | o i | o i | o i a]; [simpl | simpl | simpl |].
  - destruct (String.eqb_spec o user) as [-> | Hne];
      [| apply (Hother o eq_refl Hne)].
    destruct Hm as [Hc Ha]. unfold Mirror.mirrors, Mirror.active.
    destruct (fst (Create user d i n a st)) as [c | e] eqn:HC; simpl.
    + destruct (Create_Ok _ _ _ _ _ _ _ HC) as (Hrec & _ & Ho & Hinactive & _).
      unfold List. rewrite Hrec, List.filter_app. simpl.
      assert (owned_by user c = true) as -> by (apply owned_by_true; exact Ho).
      fold (List user st). rewrite find_app_inactive by exact Hinactive.
      rewrite Hc. split; [reflexivity | exact Ha].
    + rewrite (Create_Err_unchanged _ _ _ _ _ _ _ HC). split; assumption.
  - destruct (String.eqb_spec o user) as [-> | Hne];
      [| apply (Hother o eq_refl Hne)].
    destruct (Load user i st) as [b|] eqn:HL.
    + pose proof (mirror_Activate user st s i b Hk Hm HL) as H.
      rewrite (Activate_Ok _ _ _ _ HL) in *. exact H.
    + rewrite (Activate_NotFound _ _ _ HL). exact Hm.
  - destruct (String.eqb_spec o user) as [-> | Hne];
      [| apply (Hother o eq_refl Hne)].
    destruct (Load user i st) as [c|] eqn:HL.
    + pose proof (mirror_Delete user st s i c Hone Hm HL) as H.
      rewrite (Delete_Ok _ _ _ _ HL) in *. exact H.
    + rewrite (Delete_NotFound _ _ _ HL). exact Hm.
  - destruct Hm as [Hc Ha]. unfold Mirror.mirrors, Mirror.active.
    rewrite (step_other_owner st (call_Connect o i a) user Hk I).
    split; [exact Hc | exact Ha].
Qed.

(** Any sequence of calls keeps the slice a mirror. *)
Lemma mirror_run user message calls : forall st s,
  keyed st ->
  (forall ownerId, (active_count ownerId st <= 1)%nat) ->
  Mirror.mirrors user st s ->
  fst (Mirror.run user message (st, s) calls) = run st calls /\
  keyed (run st calls) /\
  (forall ownerId, (active_count ownerId (run st calls) <= 1)%nat) /\
  Mirror.mirrors user (run st calls) (snd (Mirror.run user message (st, s) calls)).
Proof.
  induction calls as [|call calls IH]; intros st s Hk Hone Hm; [simpl; auto |].
  simpl. apply IH.
  - apply step_keyed. exact Hk.
  - intros ownerId. apply step_active_count; [exact Hk | apply Hone].
  - apply mirror_step; [exact Hk | apply Hone | exact Hm].
Qed.

Lemma mirror_from_start user message calls :
  fst (Mirror.run user message Mirror.start calls) = run empty calls /\
  keyed (run empty calls) /\
  (forall ownerId, (active_count ownerId (run empty calls) <= 1)%nat) /\
  Mirror.mirrors user (run empty calls) (snd (Mirror.run user message Mirror.start calls)).
Proof.
  apply mirror_run.
  - unfold keyed. simpl. constructor.
  - intros ownerId. unfold active_count. simpl. lia.
  - split; reflexivity.
Qed.

(** [SetActive] on the row another id names: it is kept, inactive. *)
Lemma Load_SetActive_other ownerId id other_id rows handles0 a :
  other_id <> id ->
  Load ownerId other_id (mk rows handles0) = Some a ->
  Load ownerId other_id (mk (SetActive ownerId id rows) handles0) =
  Some (Cluster.set_is_active false a).
Proof.
  intros Hne. unfold Load. simpl. induction rows as [|c rows IH]; [discriminate |].
  simpl. destruct (owned_by ownerId c) eqn:Ho.
  - unfold owned_by, has_id in *. simpl. rewrite Ho.
    destruct (String.eqb (Cluster.id c) other_id) eqn:Hc; simpl; [| exact IH].
    intros [= <-]. apply String.eqb_eq in Hc.
    assert (String.eqb (Cluster.id c) id = false) as ->; [| reflexivity].
    apply String.eqb_neq. congruence.
  - rewrite Ho, andb_false_r. exact IH.
Qed.

End MirrorFacts.

Lemma filter_length_pos {A} (p : A -> bool) (l : list A) x :
  In x l -> p x = true -> (1 <= length (List.filter p l))%nat.
Proof.
  induction l as [|a l IH]; simpl; [contradiction |].
  intros [-> | Hx] Hp.
  - rewrite Hp. simpl. lia.
  - destruct (p a); simpl; [lia | apply IH; assumption].
Qed.


(** C4: in any state the Registry reaches, [Activate] of a cluster B of the
    owner is one update of the table, [SetActive]: it returns B active,
    afterwards [Load] and [List] show B active and every other cluster of
    the owner, the previously active one included, inactive and otherwise
    as it was, exactly one cluster of the owner is active, and no other
    owner's list changes. The owner's slice, on the [activateCluster]
    thunk's action with that answer, shows the same list, with B in
    [state.activeCluster]. *)
Theorem activate_makes_B_the_active_cluster
    (calls : list Registry.call) (user : string)
    (message : Core.error -> option string) (B : string) (b : Cluster.t) :
  let st := Registry.run Registry.empty calls in
  let s := snd (Mirror.run user message Mirror.start calls) in
  Registry.Load user B st = Some b ->
  exists st',
    Registry.Activate user B st = (Core.Ok (Cluster.set_is_active true b), st') /\
    Registry.records st' = Registry.SetActive user B (Registry.records st) /\
    Registry.Load user B st' = Some (Cluster.set_is_active true b) /\
    (forall A a, A <> B -> Registry.Load user A st = Some a ->
                 Registry.Load user A st' = Some (Cluster.set_is_active false a)) /\
    (forall c, In c (Registry.List user st') ->
               (Cluster.is_active c = true <-> Cluster.id c = B)) /\
    map (Cluster.set_is_active false) (Registry.List user st') =
      map (Cluster.set_is_active false) (Registry.List user st) /\
    Registry.active_count user st' = 1%nat /\
    (forall other, other <> user -> Registry.List other st' = Registry.List other st) /\
    let s' := clusterSlice.run s
                (Mirror.actions user message st (Registry.call_Activate user B)) in
    ClusterState.clusters s' = Registry.List user st' /\
    ClusterState.activeCluster s' = Some (Cluster.set_is_active true b) /\
    clusterSlice.active_count (ClusterState.clusters s') = 1%nat.
Proof.
  intros st s HL.
  destruct (mirror_from_start user message calls) as (_ & Hk & _ & Hm).
  fold st in Hk, Hm. fold s in Hm.
  exists (Registry.mk (Registry.SetActive user B (Registry.records st)) (Registry.handles st)).
  set (st' := Registry.mk (Registry.SetActive user B (Registry.records st))
                          (Registry.handles st)).
  pose proof (Activate_Ok _ _ _ _ HL) as Hact. fold st' in Hact.
  assert (Registry.Load user B st' = Some (Cluster.set_is_active true b)) as HL'.
  { subst st'. rewrite Load_SetActive. destruct st as [rows hs]. simpl in *.
    rewrite HL. reflexivity. }
  assert (Registry.active_count user st' = 1%nat) as Hcount.
  { apply Nat.le_antisymm.
    - subst st'. unfold Registry.active_count. rewrite List_SetActive.
      apply marked_at_most_one, NoDup_ids_filter. exact Hk.
    - unfold Registry.active_count.
      apply (filter_length_pos _ _ (Cluster.set_is_active true b));
        [eapply Load_in_List; exact HL' | reflexivity]. }
  pose proof (mirror_Activate user st s B b Hk Hm HL) as Hm'.
  rewrite Hact in Hm'. cbn [snd] in Hm'.
  split; [exact Hact |]. split; [reflexivity |]. split; [exact HL' |].
  split.
  { intros A a Hne HA. subst st'. destruct st as [rows hs]. simpl in *.
    apply Load_SetActive_other; assumption. }
  split; [intros c; subst st'; rewrite List_SetActive; apply marked_active_iff |].
  split.
  { subst st'. rewrite List_SetActive, List.map_map. reflexivity. }
  split; [exact Hcount |].
  split; [intros other Hne; subst st'; apply List_SetActive_other; exact Hne |].
  cbn zeta. unfold Mirror.actions. rewrite String.eqb_refl, Hact.
  cbn [fst Mirror.answer clusterThunks.activateCluster clusterSlice.run fold_left].
  destruct Hm' as [Hc Ha].
  split; [exact Hc |]. split.
  - rewrite Ha. unfold Mirror.active. subst st'. rewrite List_SetActive, find_marked.
    rewrite <- Load_List, HL. reflexivity.
  - rewrite (mirrors_active_count user st' _ (conj Hc Ha)). exact Hcount.
Qed.

(** Scenario B: "prod" is active, "staging" is created and activated. *)
Lemma activate_makes_B_the_active_cluster_witness :
  exists st',
    Registry.Activate Scenario.alice "c-2" Scenario.registry_B =
      (Core.Ok (Cluster.set_is_active true Scenario.staging), st') /\
    Registry.Load Scenario.alice "c-1" st' = Some Scenario.prod /\
    Registry.active_count Scenario.alice st' = 1%nat.
Proof.
  destruct (activate_makes_B_the_active_cluster Scenario.calls_B Scenario.alice
              (fun _ => None) "c-2" Scenario.staging)
    as (st' & Hact & _ & _ & Hothers & _ & _ & Hcount & _).
  - vm_compute. reflexivity.
  - exists st'. split; [exact Hact |]. split; [| exact Hcount].
    apply (Hothers "c-1" (Cluster.set_is_active true Scenario.prod)).
    + discriminate.
    + vm_compute. reflexivity.
Defined.

(** C5: in any state the Registry reaches, [Delete] of a cluster of the
    owner removes its record and evicts its connection handle; the owner's
    other clusters are listed as they were and no other owner's list
    changes. If the deleted cluster was active, no cluster of the owner is
    active afterwards: the owner's active cluster is [None] and none of the
    remaining clusters was promoted. The owner's slice, on the
    [deleteCluster] thunk's action, shows the same list and the same active
    slot, null when the deleted cluster was the active one. *)
Theorem delete_active_leaves_none_active
    (calls : list Registry.call) (user : string)
    (message : Core.error -> option string) (id : string) (c : Cluster.t) :
  let st := Registry.run Registry.empty calls in
  let s := snd (Mirror.run user message Mirror.start calls) in
  Registry.Load user id st = Some c ->
  let st' := snd (Registry.Delete user id st) in
  fst (Registry.Delete user id st) = Core.Ok tt /\
  (forall x, In x (Registry.records st') <->
             In x (Registry.records st) /\ Cluster.id x <> id) /\
  Registry.Load user id st' = None /\
  (id ∉ Registry.handles st') /\
  (forall other_id, other_id <> id ->
                    (other_id ∈ Registry.handles st' <-> other_id ∈ Registry.handles st)) /\
  Registry.List user st' =
    List.filter (fun x => negb (Registry.has_id id x)) (Registry.List user st) /\
  (forall other, other <> user -> Registry.List other st' = Registry.List other st) /\
  (Cluster.is_active c = true ->
   Registry.active_count user st' = 0%nat /\ Mirror.active user st' = None) /\
  let s' := clusterSlice.run s
              (Mirror.actions user message st (Registry.call_Delete user id)) in
  ClusterState.clusters s' = Registry.List user st' /\
  ClusterState.activeCluster s' = Mirror.active user st' /\
  (Cluster.is_active c = true ->
   ClusterState.activeCluster s' = None /\
   clusterSlice.active_count (ClusterState.clusters s') = 0%nat).
Proof.
  intros st s HL st'.
  destruct (mirror_from_start user message calls) as (_ & Hk & Hone & Hm).
  fold st in Hk, Hone, Hm. fold s in Hm.
  pose proof (Delete_Ok _ _ _ _ HL) as Hdel.
  pose proof (mirror_Delete user st s id c (Hone user) Hm HL) as Hm'.
  fold st' in Hm'.
  assert (Cluster.is_active c = true ->
          Registry.active_count user st' = 0%nat /\ Mirror.active user st' = None) as Hnone.
  { intros Hact.
    assert (Registry.active_count user st' = 0%nat) as H0
      by (subst st'; eapply Delete_active_none; [exact HL | exact Hact | apply Hone]).
    split; [exact H0 |].
    unfold Mirror.active. unfold Registry.active_count in H0.
    destruct (find Cluster.is_active (Registry.List user st')) as [a|] eqn:Hfind;
      [| reflexivity].
    apply find_some in Hfind as [Hin Ha].
    pose proof (filter_length_pos _ _ a Hin Ha) as Hpos. lia. }
  split; [rewrite Hdel; reflexivity |].
  split.
  { intros x. subst st'. rewrite Hdel. simpl. rewrite filter_In, negb_true_iff.
    rewrite <- not_true_iff_false, has_id_true. reflexivity. }
  split.
  { subst st'. rewrite Hdel. cbn [snd].
    match goal with
    | |- Registry.Load user id ?after = None =>
        destruct (Registry.Load user id after) as [x|] eqn:Hx; [| reflexivity]
    end.
    apply Load_Some in Hx as (Hin & Hid & _). simpl in Hin.
    apply filter_In in Hin as [_ Hne]. apply has_id_true in Hid.
    rewrite Hid in Hne. discriminate. }
  split.
  { subst st'. rewrite Hdel. simpl. unfold Registry.Invalidate.
    apply not_elem_of_difference. right. apply elem_of_singleton. reflexivity. }
  split.
  { intros other_id Hne. subst st'. rewrite Hdel. simpl. unfold Registry.Invalidate.
    rewrite elem_of_difference, elem_of_singleton. tauto. }
  split; [subst st'; apply (List_Delete _ _ _ _ HL) |].
  split.
  { intros other Hne. subst st'.
    apply (step_other_owner st (Registry.call_Delete user id) other Hk). congruence. }
  split; [exact Hnone |].
  cbn zeta. unfold Mirror.actions. rewrite String.eqb_refl, Hdel.
  cbn [fst Mirror.answer clusterThunks.deleteCluster clusterSlice.run fold_left].
  destruct Hm' as [Hc Ha].
  split; [exact Hc |]. split; [exact Ha |].
  intros Hact. destruct (Hnone Hact) as [H0 Hn].
  split; [rewrite Ha; exact Hn |].
  rewrite (mirrors_active_count user st' _ (conj Hc Ha)). exact H0.
Qed.

(** Scenario B after a use of "prod": deleting the active "prod" evicts its
    handle and leaves "staging", inactive, and no active cluster. *)
Lemma delete_active_leaves_none_active_witness :
  fst (Registry.Delete Scenario.alice "c-1" Scenario.registry_B_connected) = Core.Ok tt /\
  Registry.List Scenario.alice
    (snd (Registry.Delete Scenario.alice "c-1" Scenario.registry_B_connected)) =
    [Scenario.staging] /\
  Registry.active_count Scenario.alice
    (snd (Registry.Delete Scenario.alice "c-1" Scenario.registry_B_connected)) = 0%nat.
Proof.
  destruct (delete_active_leaves_none_active
              (Scenario.calls_B ++
                 [Registry.call_Connect Scenario.alice "c-1" (Core.connected "v1.29.0")])
              Scenario.alice (fun _ => None) "c-1"
              (Cluster.set_is_active true Scenario.prod))
    as (Hok & _ & _ & _ & _ & Hlist & _ & Hnone & _).
  - vm_compute. reflexivity.
  - split; [exact Hok |]. split; [| apply Hnone; reflexivity].
    refine (eq_trans Hlist _). vm_compute. reflexivity.
Defined.

(** C6: a [Create] whose kubeconfig and context fail to connect persists
    nothing: whatever the request, the Registry is in the state it was in,
    so every owner's list is the one before. It returns [InvalidCredential]
    whenever the request reaches the connection validation, that is when
    its name, kubeconfig and context are not empty; a request with an empty
    field is rejected before any connection is tried. The user's slice sees
    the [createCluster] thunk rejected: its clusters and its active slot
    are as before, and it shows the error. *)
Theorem invalid_credential_persists_nothing
    (st : Registry.state) (s : ClusterState.t) (user : string)
    (message : Core.error -> option string) (data : ClusterCreate.t)
    (new_id now : string) (reason : Core.connect_reason) :
  let call := Registry.call_Create user data new_id now (Core.failed reason) in
  let answer := fst (Registry.Create user data new_id now (Core.failed reason) st) in
  Registry.step st call = st /\
  (forall ownerId, Registry.List ownerId (Registry.step st call) = Registry.List ownerId st) /\
  (ClusterCreate.name data <> "" ->
   ClusterCreate.kubeconfig data <> "" ->
   ClusterCreate.context data <> "" ->
   answer = Core.Err Core.InvalidCredential) /\
  (answer = Core.Err Core.InvalidCredential \/
   answer = Core.Err Core.InvalidInput /\
   (ClusterCreate.name data = "" \/ ClusterCreate.kubeconfig data = "" \/
    ClusterCreate.context data = "")) /\
  exists e,
    answer = Core.Err e /\
    Mirror.actions user message st call =
      clusterSlice.createCluster (clusterSlice.thrown (message e)) /\
    let s' := clusterSlice.run s (Mirror.actions user message st call) in
    ClusterState.clusters s' = ClusterState.clusters s /\
    ClusterState.activeCluster s' = ClusterState.activeCluster s /\
    ClusterState.loading s' = false /\
    ClusterState.error s' = Some (Js.or_else (message e) "Failed to create cluster").
Proof.
  intros call answer.
  assert (forall e, answer = Core.Err e ->
            Registry.step st call = st /\
            Mirror.actions user message st call =
              clusterSlice.createCluster (clusterSlice.thrown (message e))) as Herr.
  { intros e He. subst call answer. split.
    - simpl. apply (Create_Err_unchanged _ _ _ _ _ _ _ He).
    - unfold Mirror.actions. rewrite String.eqb_refl, He. reflexivity. }
  assert (ClusterCreate.name data <> "" -> ClusterCreate.kubeconfig data <> "" ->
          ClusterCreate.context data <> "" -> answer = Core.Err Core.InvalidCredential)
    as Hinvalid.
  { intros Hn Hk Hc. subst answer.
    rewrite (Registry_Create_invalid_credential st user data new_id now reason Hn Hk Hc).
    reflexivity. }
  assert (answer = Core.Err Core.InvalidCredential \/
          answer = Core.Err Core.InvalidInput /\
          (ClusterCreate.name data = "" \/ ClusterCreate.kubeconfig data = "" \/
           ClusterCreate.context data = "")) as Hcases.
  { destruct (String.eqb_spec (ClusterCreate.name data) "") as [Hn | Hn];
      [right; split; [| auto] |].
    { subst answer. rewrite Create_rejects_empty by auto. reflexivity. }
    destruct (String.eqb_spec (ClusterCreate.kubeconfig data) "") as [Hk | Hk];
      [right; split; [| auto] |].
    { subst answer. rewrite Create_rejects_empty by auto. reflexivity. }
    destruct (String.eqb_spec (ClusterCreate.context data) "") as [Hc | Hc];
      [right; split; [| auto] |].
    { subst answer. rewrite Create_rejects_empty by auto. reflexivity. }
    left. apply Hinvalid; assumption. }
  assert (exists e, answer = Core.Err e) as [e He]
    by (destruct Hcases as [-> | [-> _]]; eexists; reflexivity).
  destruct (Herr e He) as [Hstep Hactions].
  split; [exact Hstep |].
  split; [intros ownerId; rewrite Hstep; reflexivity |].
  split; [exact Hinvalid |]. split; [exact Hcases |].
  exists e. split; [exact He |]. split; [exact Hactions |].
  cbn zeta. rewrite Hactions. repeat split.
Qed.

(** In scenario B, a third cluster whose endpoint times out. *)
Lemma invalid_credential_persists_nothing_witness :
  Registry.Create Scenario.alice
    (ClusterCreate.mk "edge" "apiVersion: v1" "edge-admin" None None)
    "c-3" "2026-01-03T10:00:00Z" (Core.failed Core.timeout) Scenario.registry_B =
  (Core.Err Core.InvalidCredential, Scenario.registry_B).
Proof.
  destruct (invalid_credential_persists_nothing Scenario.registry_B Scenario.state_B
              Scenario.alice (fun _ => None)
              (ClusterCreate.mk "edge" "apiVersion: v1" "edge-admin" None None)
              "c-3" "2026-01-03T10:00:00Z" Core.timeout)
    as (Hstep & _ & Hinvalid & _).
  apply injective_projections.
  - apply Hinvalid; discriminate.
  - exact Hstep.
Defined.

(** X4: the Add Cluster form from submit to the end. It sends no request
    and shows a validation message exactly when the name or the context is
    blank or, in create mode, the kubeconfig is blank. Otherwise it sends
    one request, [createCluster] in create mode and [updateCluster] for the
    edited cluster's id in edit mode, in which every string is trimmed and
    not empty. Afterwards the form shows an error exactly when a field was
    blank or the request failed (the failure's message, or "Failed to save
    cluster"), and the modal closes exactly when the request was sent and
    succeeded. *)
Theorem modal_submit_outcome
    (cluster : option Cluster.t) (f : AddClusterModal.form)
    (response : clusterSlice.api_result Cluster.t) :
  let blank :=
    Js.trim (AddClusterModal.name f) = "" \/
    (cluster = None /\ Js.trim (AddClusterModal.kubeconfig f) = "") \/
    Js.trim (AddClusterModal.context f) = "" in
  let result := AddClusterModalEffects.handleSubmit_settled cluster f response in
  (blank <->
   exists message, AddClusterModal.handleSubmit cluster f = AddClusterModal.set_error message) /\
  (fst result <> "" <-> blank \/ exists message, response = clusterSlice.thrown message) /\
  (snd result = true <-> ~ blank /\ exists data, response = clusterSlice.resolved data) /\
  (forall message, ~ blank -> response = clusterSlice.thrown message ->
                   fst result = Js.or_else message "Failed to save cluster") /\
  match AddClusterModal.handleSubmit cluster f with
  | AddClusterModal.set_error message => message <> ""
  | AddClusterModal.dispatch_createCluster data =>
      cluster = None /\
      Forall (fun s => s <> "" /\ Js.trim s = s)
             ([ClusterCreate.name data; ClusterCreate.kubeconfig data;
               ClusterCreate.context data]
              ++ match ClusterCreate.description data with Some d => [d] | None => [] end)
  | AddClusterModal.dispatch_updateCluster id name description context tags kubeconfig =>
      (exists c, cluster = Some c /\ id = Cluster.id c) /\
      Forall (fun s => s <> "" /\ Js.trim s = s)
             ([name; context]
              ++ match description with Some d => [d] | None => [] end
              ++ match kubeconfig with Some k => [k] | None => [] end)
  end.
Proof.
  intros blank result. subst result.
  pose proof (handleSubmit_outcomes cluster f) as H.
  unfold AddClusterModalEffects.handleSubmit_settled.
  destruct (AddClusterModal.handleSubmit cluster f)
    as [message | data | id name description context tags kubeconfig].
  - destruct H as [Hmessage Hblank]. fold blank in Hblank. cbn [fst snd].
    split; [split; [intros _; exists message; reflexivity | intros _; exact Hblank] |].
    split; [split; [intros _; left; exact Hblank | intros _; exact Hmessage] |].
    split; [split; [discriminate | intros [Hnot _]; contradiction] |].
    split; [intros m Hnot; contradiction | exact Hmessage].
  - destruct H as (Hcluster & Hn & Hk & Hc & Hclean).
    assert (~ blank) as Hnot.
    { intros [Hb | [[_ Hb] | Hb]]; congruence. }
    split; [split; [intros Hb; contradiction | intros [m Hm]; discriminate] |].
    destruct response as [created | m]; cbn [fst snd].
    + split; [split; [intros Hne; congruence
                     | intros [Hb | [m Hm]]; [contradiction | discriminate]] |].
      split; [split; [intros _; split; [exact Hnot | exists created; reflexivity]
                     | reflexivity] |].
      split; [intros m _ Hm; discriminate | split; assumption].
    + split; [split; [intros _; right; exists m; reflexivity
                     | intros _; apply or_else_nonempty; discriminate] |].
      split; [split; [discriminate | intros [_ [x Hx]]; discriminate] |].
      split; [intros m' _ [= <-]; reflexivity | split; assumption].
  - destruct H as (Hcluster & Hn & Hc & Hclean).
    assert (~ blank) as Hnot.
    { destruct Hcluster as (c & -> & _).
      intros [Hb | [[Hb _] | Hb]]; congruence. }
    split; [split; [intros Hb; contradiction | intros [m Hm]; discriminate] |].
    destruct response as [updated | m]; cbn [fst snd].
    + split; [split; [intros Hne; congruence
                     | intros [Hb | [m Hm]]; [contradiction | discriminate]] |].
      split; [split; [intros _; split; [exact Hnot | exists updated; reflexivity]
                     | reflexivity] |].
      split; [intros m _ Hm; discriminate | split; assumption].
    + split; [split; [intros _; right; exists m; reflexivity
                     | intros _; apply or_else_nonempty; discriminate] |].
      split; [split; [discriminate | intros [_ [x Hx]]; discriminate] |].
      split; [intros m' _ [= <-]; reflexivity | split; assumption].
Qed.
